(** * gomcp, package [types]: validated constructors and the tagged-union codec

    A shallow embedding of the Go package [pkg/types] of hide-org/gomcp:
    the option-function constructors (completion, progress, logging,
    resources, prompts, capabilities, initialize), the [Content] and
    [ErrorInfo] codecs, and the properties the specification states about
    them.

    Conventions of the embedding.
    - A Go [string] is a [string] (a sequence of bytes); a Go [int] is a [Z]
      (no arithmetic is done on it, only comparisons and [len]); a pointer
      [*T] is an [option T] ([None] is [nil]), two pointers being equal when
      they point to equal values.
    - A slice [[]T] whose value is compared after a round trip through JSON
      (the [Audience] of [Annotations]) is a [slice T]: the nil slice, or a
      slice with its sequence of elements, which may be empty.  The encoder
      omits both the nil and the empty slice under [omitempty], and the
      decoder, given nothing, leaves nil: the two are different values.  The
      other slices are kept as the [list] of their elements: the code only
      takes their [len], ranges over them, appends to them or fills them.
    - A [float64] is an IEEE 754 binary64 value, as the Standard Library's
      [spec_float] with precision 53 and exponent bound 1024; comparisons and
      arithmetic are those of [SpecFloat].
    - A Go function returning a pointer to [T] and an [error] returns
      [option T * option error]; a method that mutates its pointer receiver
      and returns [error] takes the receiver and returns the receiver after
      the call with the error.
    - [fmt.Errorf] is kept as its format string with its arguments.
    - [encoding/json] is modelled on JSON documents (type [json]): the byte
      string given to [json.Unmarshal] is the document it parses to, the byte
      string [json.Marshal] returns is the document it prints. *)

From Stdlib Require Import ZArith List String Ascii Bool Lia.
From Stdlib Require Import Floats.SpecFloat.
From Stdlib Require Import Permutation.
Import ListNotations.

Set Warnings "-register-all".

Local Open Scope string_scope.
Local Open Scope Z_scope.

(** ** Go values *)

Definition float64 : Type := spec_float.

Definition f64_prec : Z := 53.
Definition f64_emax : Z := 1024.

(** [float64(n)] for an integer [n]: the nearest binary64 value, ties to even. *)
Definition float64_of_int (n : Z) : float64 :=
  binary_normalize f64_prec f64_emax n 0 false.

(** Go's [a < b], [a > b], [a <= b] on [float64]: false when an operand is NaN. *)
Definition f64_lt (a b : float64) : bool := SFltb a b.
Definition f64_gt (a b : float64) : bool := SFltb b a.
Definition f64_le (a b : float64) : bool := SFleb a b.

Definition f64_div (a b : float64) : float64 := SFdiv f64_prec f64_emax a b.
Definition f64_mul (a b : float64) : float64 := SFmul f64_prec f64_emax a b.

(** The constant 1.5, that is 3 * 2^(-1). *)
Definition f64_one_and_a_half : float64 := binary_normalize f64_prec f64_emax 3 (-1) false.

(** Neither NaN nor an infinity. *)
Definition f64_finite (a : float64) : bool :=
  match a with
  | S754_zero _ | S754_finite _ _ _ => true
  | S754_infinity _ | S754_nan => false
  end.

(** Go's [int] is 64 bits wide on the platforms the package targets. *)
Definition in_int64 (n : Z) : bool := (- 2 ^ 63 <=? n) && (n <? 2 ^ 63).

(** [len(s)] of a slice, as a Go [int]. *)
Definition len {A : Type} (s : list A) : Z := Z.of_nat (List.length s).

(** A slice value: [nil], or a slice that is not nil, with its elements
    (none for the empty slice [[]T{}]). *)
Inductive slice (A : Type) : Type :=
| nil_slice
| slice_of (l : list A).

Arguments nil_slice {A}.
Arguments slice_of {A} l.

(** The elements that [len] counts and [range] yields: none for [nil]. *)
Definition elems {A : Type} (s : slice A) : list A :=
  match s with
  | nil_slice => []
  | slice_of l => l
  end.

(** Errors. [Errorf format args] is [fmt.Errorf(format, args...)]; an
    [ArgError] argument is one formatted with [%w] (or [%v]).  The two other
    constructors are the errors of [encoding/json] that the package passes
    on: a JSON value of the wrong kind for the Go type it is stored in, and a
    [float64] that JSON cannot express. *)
Inductive error : Type :=
| Errorf (format : string) (args : list fmt_arg)
| UnmarshalTypeError (value : string) (goType : string)
| UnsupportedValueError (f : float64)
with fmt_arg : Type :=
| ArgString (s : string)
| ArgInt (n : Z)
| ArgFloat (f : float64)
| ArgError (e : error).

(** ** The option-function pattern

    Every constructor of the package takes [opts ...XOption], where an
    [XOption] is a Go function from a pointer to [X] to [error].  An option
    may write to the value it is given and may return an error: it is a
    function from the value before the call to the value after it and the
    error returned. *)
Definition ConfigOption (T : Type) : Type := T -> T * option error.

(** The loop shared by all constructors:
<<
    for _, opt := range opts {
        if err := opt(v); err != nil {
            return nil, fmt.Errorf(wrap, err)
        }
    }
    return v, nil
>>
    [applyOptions] is the loop itself, returning the value as the last option
    run left it; [construct] is the loop with the two [return]s. *)
Fixpoint applyOptions {T : Type} (wrap : string) (opts : list (ConfigOption T)) (v : T)
  : T * option error :=
  match opts with
  | [] => (v, None)
  | opt :: rest =>
      match opt v with
      | (v', Some err) => (v', Some (Errorf wrap [ArgError err]))
      | (v', None) => applyOptions wrap rest v'
      end
  end.

Definition construct {T : Type} (wrap : string) (opts : list (ConfigOption T)) (v : T)
  : option T * option error :=
  match applyOptions wrap opts v with
  | (_, Some err) => (None, Some err)
  | (v', None) => (Some v', None)
  end.

(** ** JSON documents

    A number token is kept by what [encoding/json] reads from it: [num_int]
    is its value when the token is an integer literal (no fraction and no
    exponent), and [num_float] is the [float64] that [strconv.ParseFloat]
    reads, [None] when the token is out of the range of [float64]. *)
Record number : Type := {
  num_int : option Z;
  num_float : option float64
}.

Inductive json : Type :=
| JNull
| JBool (b : bool)
| JNumber (n : number)
| JString (s : string)
| JArray (elems : list json)
| JObject (members : list (string * json)).

(** [json.RawMessage]: the raw bytes of one JSON value, laid aside undecoded. *)
Definition RawMessage : Type := json.

(** ** completion: [CompleteRequest], [Reference], [CompleteResult] *)

Record Reference : Type := {
  ref_Type : string;
  ref_Name : option string;
  ref_URI : option string
}.

Definition NewPromptReference (name : string) : Reference :=
  {| ref_Type := "ref/prompt"; ref_Name := Some name; ref_URI := None |}.

Definition NewResourceReference (uri : string) : Reference :=
  {| ref_Type := "ref/resource"; ref_Name := None; ref_URI := Some uri |}.

Record CompletionArg : Type := {
  arg_Name : string;
  arg_Value : string
}.

Record CompleteParams : Type := {
  cp_Ref : Reference;
  cp_Argument : CompletionArg
}.

Record CompleteRequest : Type := {
  creq_Method : string;
  creq_Params : CompleteParams
}.

Definition CompleteRequestOption : Type := ConfigOption CompleteRequest.

Definition validateReference (ref : Reference) : option error :=
  if String.eqb (ref_Type ref) "ref/prompt" then
    match ref_Name ref with
    | None => Some (Errorf "prompt reference requires name" [])
    | Some name =>
        if String.eqb name "" then Some (Errorf "prompt reference requires name" [])
        else
          match ref_URI ref with
          | Some _ => Some (Errorf "prompt reference should not have URI" [])
          | None => None
          end
    end
  else if String.eqb (ref_Type ref) "ref/resource" then
    match ref_URI ref with
    | None => Some (Errorf "resource reference requires URI" [])
    | Some uri =>
        if String.eqb uri "" then Some (Errorf "resource reference requires URI" [])
        else
          match ref_Name ref with
          | Some _ => Some (Errorf "resource reference should not have name" [])
          | None => None
          end
    end
  else Some (Errorf "invalid reference type: %s" [ArgString (ref_Type ref)]).

(** The value [NewCompleteRequest] hands to its options. *)
Definition CompleteRequest_init (ref : Reference) (argName argValue : string) : CompleteRequest :=
  {| creq_Method := "completion/complete";
     creq_Params := {| cp_Ref := ref;
                       cp_Argument := {| arg_Name := argName; arg_Value := argValue |} |} |}.

Definition NewCompleteRequest (ref : Reference) (argName argValue : string)
    (opts : list CompleteRequestOption) : option CompleteRequest * option error :=
  match validateReference ref with
  | Some err => (None, Some (Errorf "invalid reference: %w" [ArgError err]))
  | None =>
      if String.eqb argName "" then (None, Some (Errorf "argument name cannot be empty" []))
      else construct "applying complete request option: %w" opts
             (CompleteRequest_init ref argName argValue)
  end.

Record CompletionInfo : Type := {
  ci_Values : list string;
  ci_Total : option Z;
  ci_HasMore : option bool
}.

Record CompleteResult : Type := {
  cres_Completion : CompletionInfo
}.

Definition CompleteResultOption : Type := ConfigOption CompleteResult.

Definition CompleteResult_init (values : list string) : CompleteResult :=
  {| cres_Completion := {| ci_Values := values; ci_Total := None; ci_HasMore := None |} |}.

Definition NewCompleteResult (values : list string) (opts : list CompleteResultOption)
  : option CompleteResult * option error :=
  if len values >? 100 then
    (None, Some (Errorf "completion values cannot exceed 100 items" []))
  else construct "applying complete result option: %w" opts (CompleteResult_init values).

Definition WithResultTotal (total : Z) : CompleteResultOption := fun r =>
  if total <? len (ci_Values (cres_Completion r)) then
    (r, Some (Errorf "total (%d) cannot be less than number of values (%d)"
                [ArgInt total; ArgInt (len (ci_Values (cres_Completion r)))]))
  else
    ({| cres_Completion := {| ci_Values := ci_Values (cres_Completion r);
                              ci_Total := Some total;
                              ci_HasMore := ci_HasMore (cres_Completion r) |} |}, None).

Definition WithHasMore (hasMore : bool) : CompleteResultOption := fun r =>
  ({| cres_Completion := {| ci_Values := ci_Values (cres_Completion r);
                            ci_Total := ci_Total (cres_Completion r);
                            ci_HasMore := Some hasMore |} |}, None).

(** ** progress: [ProgressNotification] *)

Definition ProgressToken : Type := Z.

Record ProgressParams : Type := {
  pp_ProgressToken : ProgressToken;
  pp_Progress : float64;
  pp_Total : option float64
}.

Record ProgressNotification : Type := {
  pn_Method : string;
  pn_Params : ProgressParams
}.

Definition ProgressNotificationOption : Type := ConfigOption ProgressNotification.

Definition ProgressNotification_init (token : ProgressToken) (progress : float64)
  : ProgressNotification :=
  {| pn_Method := "notifications/progress";
     pn_Params := {| pp_ProgressToken := token; pp_Progress := progress; pp_Total := None |} |}.

Definition NewProgressNotification (token : ProgressToken) (progress : float64)
    (opts : list ProgressNotificationOption) : option ProgressNotification * option error :=
  if f64_lt progress (float64_of_int 0) then
    (None, Some (Errorf "progress cannot be negative" []))
  else construct "applying progress notification option: %w" opts
         (ProgressNotification_init token progress).

Definition WithProgressTotal (total : float64) : ProgressNotificationOption := fun n =>
  if f64_le total (float64_of_int 0) then
    (n, Some (Errorf "total must be positive" []))
  else if f64_gt (pp_Progress (pn_Params n)) total then
    (n, Some (Errorf "progress (%f) cannot exceed total (%f)"
                [ArgFloat (pp_Progress (pn_Params n)); ArgFloat total]))
  else
    ({| pn_Method := pn_Method n;
        pn_Params := {| pp_ProgressToken := pp_ProgressToken (pn_Params n);
                        pp_Progress := pp_Progress (pn_Params n);
                        pp_Total := Some total |} |}, None).

Definition NewProgressStart (token : ProgressToken)
  : option ProgressNotification * option error :=
  NewProgressNotification token (float64_of_int 0) [].

Definition NewProgressComplete (token : ProgressToken)
  : option ProgressNotification * option error :=
  NewProgressNotification token (float64_of_int 100) [].

Definition NewProgressPercentage (token : ProgressToken) (percentage : float64)
  : option ProgressNotification * option error :=
  if f64_lt percentage (float64_of_int 0) || f64_gt percentage (float64_of_int 100) then
    (None, Some (Errorf "percentage must be between 0 and 100" []))
  else NewProgressNotification token percentage [].

(** [(float64(completed) / float64(total)) * 100] *)
Definition items_percentage (completed total : Z) : float64 :=
  f64_mul (f64_div (float64_of_int completed) (float64_of_int total)) (float64_of_int 100).

Definition NewProgressWithItems (token : ProgressToken) (completed total : Z)
  : option ProgressNotification * option error :=
  if completed <? 0 then
    (None, Some (Errorf "completed items cannot be negative" []))
  else if total <=? 0 then
    (None, Some (Errorf "total items must be positive" []))
  else if completed >? total then
    (None, Some (Errorf "completed items (%d) cannot exceed total items (%d)"
                   [ArgInt completed; ArgInt total]))
  else
    NewProgressNotification token (items_percentage completed total)
      [WithProgressTotal (float64_of_int total)].

(** ** content: [Annotations] and the three [Content] variants *)

Definition Role : Type := string.
Definition RoleUser : Role := "user".
Definition RoleAssistant : Role := "assistant".

Record Annotations : Type := {
  ann_Audience : slice Role;
  ann_Priority : option float64
}.

(** The [for ... range a.Audience] loop of [Validate], with its [switch]. *)
Fixpoint validateAudience (audience : list Role) : option error :=
  match audience with
  | [] => None
  | role :: rest =>
      if String.eqb role RoleUser || String.eqb role RoleAssistant then validateAudience rest
      else Some (Errorf "invalid role in audience: %s" [ArgString role])
  end.

(** [*a.Priority < 0 || *a.Priority > 1] *)
Definition priority_out_of_range (p : float64) : bool :=
  f64_lt p (float64_of_int 0) || f64_gt p (float64_of_int 1).

(** The [if a.Priority != nil] block of [Validate]. *)
Definition validatePriority (priority : option float64) : option error :=
  match priority with
  | Some p =>
      if priority_out_of_range p then
        Some (Errorf "priority must be between 0 and 1, got %f" [ArgFloat p])
      else None
  | None => None
  end.

(** [func (a *Annotations) Validate() error]; the method only reads [a]. *)
Definition Annotations_Validate (a : option Annotations) : option error :=
  match a with
  | None => None
  | Some a =>
      match validatePriority (ann_Priority a) with
      | Some err => Some err
      | None =>
          if len (elems (ann_Audience a)) >? 0
          then validateAudience (elems (ann_Audience a))
          else None
      end
  end.

Definition ContentType : Type := string.
Definition ContentTypeText : ContentType := "text".
Definition ContentTypeImage : ContentType := "image".
Definition ContentTypeResource : ContentType := "resource".

Record TextContent : Type := {
  tc_Text : string;
  tc_Annotations : option Annotations
}.

Record ImageContent : Type := {
  ic_Data : string;
  ic_MimeType : string;
  ic_Annotations : option Annotations
}.

Record ResourceContent : Type := {
  rc_URI : string;
  rc_Text : option string;
  rc_Blob : option string;
  rc_MimeType : option string;
  rc_Annotations : option Annotations
}.

Record Content : Type := {
  c_Type : ContentType;
  c_TextContent : option TextContent;
  c_ImageContent : option ImageContent;
  c_ResourceContent : option ResourceContent
}.

Definition NewTextContent (text : string) (annotations : option Annotations) : Content :=
  {| c_Type := ContentTypeText;
     c_TextContent := Some {| tc_Text := text; tc_Annotations := annotations |};
     c_ImageContent := None;
     c_ResourceContent := None |}.

Definition NewImageContent (data mimeType : string) (annotations : option Annotations) : Content :=
  {| c_Type := ContentTypeImage;
     c_TextContent := None;
     c_ImageContent := Some {| ic_Data := data; ic_MimeType := mimeType;
                               ic_Annotations := annotations |};
     c_ResourceContent := None |}.

(** ** resource: [ResourceContent] and its constructor *)

Definition ResourceContentOption : Type := ConfigOption ResourceContent.

Definition ResourceContent_init (uri : string) : ResourceContent :=
  {| rc_URI := uri; rc_Text := None; rc_Blob := None; rc_MimeType := None;
     rc_Annotations := None |}.

Definition isSome {A : Type} (p : option A) : bool :=
  match p with Some _ => true | None => false end.

Definition NewResourceContent (uri : string) (opts : list ResourceContentOption)
  : option ResourceContent * option error :=
  if String.eqb uri "" then (None, Some (Errorf "resource URI cannot be empty" []))
  else
    match applyOptions "applying content option: %w" opts (ResourceContent_init uri) with
    | (_, Some err) => (None, Some err)
    | (rc, None) =>
        if (isSome (rc_Text rc) && isSome (rc_Blob rc))
           || (negb (isSome (rc_Text rc)) && negb (isSome (rc_Blob rc)))
        then (None, Some (Errorf "exactly one of text or blob must be set" []))
        else (Some rc, None)
    end.

Definition WithContentText (text : string) : ResourceContentOption := fun rc =>
  if isSome (rc_Blob rc) then
    (rc, Some (Errorf "cannot set text when blob is already set" []))
  else
    ({| rc_URI := rc_URI rc; rc_Text := Some text; rc_Blob := rc_Blob rc;
        rc_MimeType := rc_MimeType rc; rc_Annotations := rc_Annotations rc |}, None).

Definition WithContentBlob (blob : string) : ResourceContentOption := fun rc =>
  if isSome (rc_Text rc) then
    (rc, Some (Errorf "cannot set blob when text is already set" []))
  else
    ({| rc_URI := rc_URI rc; rc_Text := rc_Text rc; rc_Blob := Some blob;
        rc_MimeType := rc_MimeType rc; rc_Annotations := rc_Annotations rc |}, None).

Definition WithContentMimeType (mimeType : string) : ResourceContentOption := fun rc =>
  ({| rc_URI := rc_URI rc; rc_Text := rc_Text rc; rc_Blob := rc_Blob rc;
      rc_MimeType := Some mimeType; rc_Annotations := rc_Annotations rc |}, None).

Definition WithContentAnnotations (annotations : option Annotations) : ResourceContentOption :=
  fun rc =>
  ({| rc_URI := rc_URI rc; rc_Text := rc_Text rc; rc_Blob := rc_Blob rc;
      rc_MimeType := rc_MimeType rc; rc_Annotations := annotations |}, None).

(** ** resource: [Resource], [ResourceTemplate] *)

Record Resource : Type := {
  res_URI : string;
  res_Name : string;
  res_Description : option string;
  res_MimeType : option string;
  res_Annotations : option Annotations
}.

Definition ResourceOption : Type := ConfigOption Resource.

Definition Resource_init (uri name : string) : Resource :=
  {| res_URI := uri; res_Name := name; res_Description := None; res_MimeType := None;
     res_Annotations := None |}.

Definition NewResource (uri name : string) (opts : list ResourceOption)
  : option Resource * option error :=
  if String.eqb uri "" then (None, Some (Errorf "resource URI cannot be empty" []))
  else if String.eqb name "" then (None, Some (Errorf "resource name cannot be empty" []))
  else construct "applying resource option: %w" opts (Resource_init uri name).

Definition WithResourceAnnotations (annotations : option Annotations) : ResourceOption :=
  fun r =>
  ({| res_URI := res_URI r; res_Name := res_Name r; res_Description := res_Description r;
      res_MimeType := res_MimeType r; res_Annotations := annotations |}, None).

Record ResourceTemplate : Type := {
  rt_Name : string;
  rt_URITemplate : string;
  rt_Description : option string;
  rt_MimeType : option string;
  rt_Annotations : option Annotations
}.

Definition ResourceTemplateOption : Type := ConfigOption ResourceTemplate.

Definition ResourceTemplate_init (name uriTemplate : string) : ResourceTemplate :=
  {| rt_Name := name; rt_URITemplate := uriTemplate; rt_Description := None;
     rt_MimeType := None; rt_Annotations := None |}.

Definition NewResourceTemplate (name uriTemplate : string) (opts : list ResourceTemplateOption)
  : option ResourceTemplate * option error :=
  if String.eqb name "" then (None, Some (Errorf "template name cannot be empty" []))
  else if String.eqb uriTemplate "" then (None, Some (Errorf "URI template cannot be empty" []))
  else construct "applying template option: %w" opts (ResourceTemplate_init name uriTemplate).

(** ** prompt: [Prompt] *)

Record PromptArgument : Type := {
  pa_Name : string;
  pa_Description : option string;
  pa_Required : option bool
}.

Record Prompt : Type := {
  p_Name : string;
  p_Description : option string;
  p_Arguments : list PromptArgument
}.

Definition PromptOption : Type := ConfigOption Prompt.
Definition PromptArgumentOption : Type := ConfigOption PromptArgument.

Definition Prompt_init (name : string) : Prompt :=
  {| p_Name := name; p_Description := None; p_Arguments := [] |}.

Definition NewPrompt (name : string) (opts : list PromptOption) : option Prompt * option error :=
  if String.eqb name "" then (None, Some (Errorf "prompt name cannot be empty" []))
  else construct "applying prompt option: %w" opts (Prompt_init name).

(** The option runs the same loop over the argument under construction; the
    argument is appended only when every argument option succeeded. *)
Definition WithPromptArgument (name : string) (opts : list PromptArgumentOption) : PromptOption :=
  fun p =>
  match applyOptions "applying argument option: %w" opts
          {| pa_Name := name; pa_Description := None; pa_Required := None |} with
  | (_, Some err) => (p, Some err)
  | (arg, None) =>
      ({| p_Name := p_Name p; p_Description := p_Description p;
          p_Arguments := p_Arguments p ++ [arg] |}, None)
  end.

(** ** logging: [SetLevelRequest], [LoggingMessageNotification] *)

Definition LoggingLevel : Type := string.

Definition validateLoggingLevel (level : LoggingLevel) : option error :=
  if String.eqb level "debug" || String.eqb level "info" || String.eqb level "notice"
     || String.eqb level "warning" || String.eqb level "error" || String.eqb level "critical"
     || String.eqb level "alert" || String.eqb level "emergency"
  then None
  else Some (Errorf "invalid logging level: %s" [ArgString level]).

Record SetLevelParams : Type := {
  slp_Level : LoggingLevel
}.

Record SetLevelRequest : Type := {
  slr_Method : string;
  slr_Params : SetLevelParams
}.

Definition SetLevelRequestOption : Type := ConfigOption SetLevelRequest.

Definition SetLevelRequest_init (level : LoggingLevel) : SetLevelRequest :=
  {| slr_Method := "logging/setLevel"; slr_Params := {| slp_Level := level |} |}.

Definition NewSetLevelRequest (level : LoggingLevel) (opts : list SetLevelRequestOption)
  : option SetLevelRequest * option error :=
  match validateLoggingLevel level with
  | Some err => (None, Some err)
  | None => construct "applying set level request option: %w" opts (SetLevelRequest_init level)
  end.

Section Logging.

(** The dynamic values a Go [interface{}] can hold; the interface value itself
    is an [option Any], [None] being the nil interface. *)
Variable Any : Type.

Record LoggingMessageParams : Type := {
  lmp_Level : LoggingLevel;
  lmp_Data : option Any;
  lmp_Logger : option string
}.

Record LoggingMessageNotification : Type := {
  lmn_Method : string;
  lmn_Params : LoggingMessageParams
}.

Definition LoggingMessageOption : Type := ConfigOption LoggingMessageNotification.

Definition LoggingMessage_init (level : LoggingLevel) (data : option Any)
  : LoggingMessageNotification :=
  {| lmn_Method := "notifications/message";
     lmn_Params := {| lmp_Level := level; lmp_Data := data; lmp_Logger := None |} |}.

Definition NewLoggingMessage (level : LoggingLevel) (data : option Any)
    (opts : list LoggingMessageOption) : option LoggingMessageNotification * option error :=
  match validateLoggingLevel level with
  | Some err => (None, Some err)
  | None =>
      match data with
      | None => (None, Some (Errorf "log data cannot be nil" []))
      | Some _ =>
          construct "applying logging message option: %w" opts (LoggingMessage_init level data)
      end
  end.

Definition WithLogger (logger : string) : LoggingMessageOption := fun msg =>
  if String.eqb logger "" then (msg, Some (Errorf "logger name cannot be empty" []))
  else
    ({| lmn_Method := lmn_Method msg;
        lmn_Params := {| lmp_Level := lmp_Level (lmn_Params msg);
                         lmp_Data := lmp_Data (lmn_Params msg);
                         lmp_Logger := Some logger |} |}, None).

End Logging.

Arguments lmp_Level {Any}.
Arguments lmp_Data {Any}.
Arguments lmp_Logger {Any}.
Arguments lmn_Method {Any}.
Arguments lmn_Params {Any}.
Arguments NewLoggingMessage {Any}.
Arguments LoggingMessage_init {Any}.
Arguments WithLogger {Any}.

(** ** capabilities: [ServerCapabilities], [ClientCapabilities]

    The [Experimental] map from names to raw JSON is kept as an association
    list; [make(map[string]json.RawMessage)] and the nil map are both [[]]. *)

Record LoggingCapability : Type := { }.
Record SamplingCapability : Type := { }.

Record PromptsCapability : Type := {
  prc_ListChanged : option bool
}.

Record ResourcesCapability : Type := {
  rsc_Subscribe : option bool;
  rsc_ListChanged : option bool
}.

Record ToolsCapability : Type := {
  tlc_ListChanged : option bool
}.

Record RootsCapability : Type := {
  roc_ListChanged : option bool
}.

Record ServerCapabilities : Type := {
  sc_Experimental : list (string * RawMessage);
  sc_Logging : option LoggingCapability;
  sc_Prompts : option PromptsCapability;
  sc_Resources : option ResourcesCapability;
  sc_Tools : option ToolsCapability
}.

Record ClientCapabilities : Type := {
  cc_Experimental : list (string * RawMessage);
  cc_Roots : option RootsCapability;
  cc_Sampling : option SamplingCapability
}.

Definition ServerCapabilityOption : Type := ConfigOption ServerCapabilities.
Definition ClientCapabilityOption : Type := ConfigOption ClientCapabilities.

Definition ServerCapabilities_init : ServerCapabilities :=
  {| sc_Experimental := []; sc_Logging := None; sc_Prompts := None; sc_Resources := None;
     sc_Tools := None |}.

Definition ClientCapabilities_init : ClientCapabilities :=
  {| cc_Experimental := []; cc_Roots := None; cc_Sampling := None |}.

Definition NewServerCapabilities (opts : list ServerCapabilityOption)
  : option ServerCapabilities * option error :=
  construct "applying server capability option: %w" opts ServerCapabilities_init.

Definition NewClientCapabilities (opts : list ClientCapabilityOption)
  : option ClientCapabilities * option error :=
  construct "applying client capability option: %w" opts ClientCapabilities_init.

Definition WithServerLogging : ServerCapabilityOption := fun sc =>
  ({| sc_Experimental := sc_Experimental sc; sc_Logging := Some Build_LoggingCapability;
      sc_Prompts := sc_Prompts sc; sc_Resources := sc_Resources sc; sc_Tools := sc_Tools sc |},
   None).

Definition WithClientSampling : ClientCapabilityOption := fun cc =>
  ({| cc_Experimental := cc_Experimental cc; cc_Roots := cc_Roots cc;
      cc_Sampling := Some Build_SamplingCapability |}, None).

(** ** initialize: [InitializeRequest], [InitializeResult] *)

Record Implementation : Type := {
  impl_Name : string;
  impl_Version : string
}.

Definition NewImplementation (name version : string) : option Implementation * option error :=
  if String.eqb name "" then (None, Some (Errorf "implementation name cannot be empty" []))
  else if String.eqb version "" then
    (None, Some (Errorf "implementation version cannot be empty" []))
  else (Some {| impl_Name := name; impl_Version := version |}, None).

Record InitializeParams : Type := {
  ip_ProtocolVersion : string;
  ip_Capabilities : ClientCapabilities;
  ip_ClientInfo : Implementation
}.

Record InitializeRequest : Type := {
  ireq_Method : string;
  ireq_Params : InitializeParams
}.

Record InitializeResult : Type := {
  ires_ProtocolVersion : string;
  ires_ServerInfo : Implementation;
  ires_Capabilities : ServerCapabilities;
  ires_Instructions : option string
}.

Definition InitializeRequestOption : Type := ConfigOption InitializeRequest.
Definition InitializeResultOption : Type := ConfigOption InitializeResult.

Section Initialize.

(** The package constant [LatestProtocolVersion]; its declaration is not in
    the files at hand, so it is a parameter of the two constructors. *)
Variable LatestProtocolVersion : string.

Definition InitializeRequest_init (clientInfo : Implementation) : InitializeRequest :=
  {| ireq_Method := "initialize";
     ireq_Params := {| ip_ProtocolVersion := LatestProtocolVersion;
                       ip_Capabilities := ClientCapabilities_init;
                       ip_ClientInfo := clientInfo |} |}.

Definition NewInitializeRequest (clientInfo : Implementation) (opts : list InitializeRequestOption)
  : option InitializeRequest * option error :=
  construct "applying initialize request option: %w" opts (InitializeRequest_init clientInfo).

Definition InitializeResult_init (serverInfo : Implementation) : InitializeResult :=
  {| ires_ProtocolVersion := LatestProtocolVersion;
     ires_ServerInfo := serverInfo;
     ires_Capabilities := ServerCapabilities_init;
     ires_Instructions := None |}.

Definition NewInitializeResult (serverInfo : Implementation) (opts : list InitializeResultOption)
  : option InitializeResult * option error :=
  construct "applying initialize result option: %w" opts (InitializeResult_init serverInfo).

End Initialize.

(** ** encoding/json: strings and member names *)

Definition byte_in (lo hi : N) (c : ascii) : bool :=
  (N.leb lo (N_of_ascii c)) && (N.leb (N_of_ascii c) hi).

(** A continuation byte, 0x80 to 0xBF. *)
Definition utf8_cont (c : ascii) : bool := byte_in 128 191 c.

(** The well-formed two, three and four byte sequences of UTF-8, as the
    tables [first] and [acceptRanges] of [unicode/utf8] accept them: no
    overlong forms, no surrogates, nothing above U+10FFFF. *)
Definition utf8_two (b0 b1 : ascii) : bool :=
  byte_in 194 223 b0 && utf8_cont b1.

Definition utf8_three (b0 b1 b2 : ascii) : bool :=
  (if byte_in 224 224 b0 then byte_in 160 191 b1
   else if byte_in 237 237 b0 then byte_in 128 159 b1
   else byte_in 225 239 b0 && utf8_cont b1)
  && utf8_cont b2.

Definition utf8_four (b0 b1 b2 b3 : ascii) : bool :=
  (if byte_in 240 240 b0 then byte_in 144 191 b1
   else if byte_in 244 244 b0 then byte_in 128 143 b1
   else byte_in 241 243 b0 && utf8_cont b1)
  && utf8_cont b2 && utf8_cont b3.

(** [utf8.ValidString]. *)
Fixpoint utf8_valid (s : string) : bool :=
  match s with
  | EmptyString => true
  | String b0 r0 =>
      if byte_in 0 127 b0 then utf8_valid r0
      else
        match r0 with
        | String b1 r1 =>
            if utf8_two b0 b1 then utf8_valid r1
            else
              match r1 with
              | String b2 r2 =>
                  if utf8_three b0 b1 b2 then utf8_valid r2
                  else
                    match r2 with
                    | String b3 r3 => utf8_four b0 b1 b2 b3 && utf8_valid r3
                    | EmptyString => false
                    end
              | EmptyString => false
              end
        | EmptyString => false
        end
  end.

(** U+FFFD, the replacement character: bytes EF BF BD. *)
Definition utf8_replacement (rest : string) : string :=
  String "239"%char (String "191"%char (String "189"%char rest)).

(** The text of a JSON string that [json.Marshal] writes for a Go string:
    every byte that starts no well-formed sequence is replaced by U+FFFD
    (escapes are a matter of the bytes printed, not of the document). *)
Fixpoint toValidUTF8 (s : string) : string :=
  match s with
  | EmptyString => EmptyString
  | String b0 r0 =>
      if byte_in 0 127 b0 then String b0 (toValidUTF8 r0)
      else
        match r0 with
        | String b1 r1 =>
            if utf8_two b0 b1 then String b0 (String b1 (toValidUTF8 r1))
            else
              match r1 with
              | String b2 r2 =>
                  if utf8_three b0 b1 b2 then
                    String b0 (String b1 (String b2 (toValidUTF8 r2)))
                  else
                    match r2 with
                    | String b3 r3 =>
                        if utf8_four b0 b1 b2 b3 then
                          String b0 (String b1 (String b2 (String b3 (toValidUTF8 r3))))
                        else utf8_replacement (toValidUTF8 r0)
                    | EmptyString => utf8_replacement (toValidUTF8 r0)
                    end
              | EmptyString => utf8_replacement (toValidUTF8 r0)
              end
        | EmptyString => utf8_replacement (toValidUTF8 r0)
        end
  end.

Definition upper (c : ascii) : ascii :=
  if byte_in 97 122 c then ascii_of_N (N_of_ascii c - 32) else c.

(** The case folding under which [json.Unmarshal] matches a member name with
    a field name when no field has exactly that name: ASCII letters fold
    together, U+017F (bytes C5 BF) folds with S and U+212A (bytes E2 84 AA)
    with K.  The field names of this package are ASCII, so no other rune can
    make a member name match one of them. *)
Fixpoint foldName (s : string) : string :=
  match s with
  | EmptyString => EmptyString
  | String c r =>
      match r with
      | String c1 r1 =>
          if byte_in 197 197 c && byte_in 191 191 c1 then String "S"%char (foldName r1)
          else
            match r1 with
            | String c2 r2 =>
                if byte_in 226 226 c && byte_in 132 132 c1 && byte_in 170 170 c2
                then String "K"%char (foldName r2)
                else String (upper c) (foldName r)
            | EmptyString => String (upper c) (foldName r)
            end
      | EmptyString => String (upper c) (foldName r)
      end
  end.

(** Does the member named [key] go to the field tagged [name]?  (No struct of
    the package has two fields whose names fold together, so the order in
    which fields are tried does not matter.) *)
Definition fieldMatch (name key : string) : bool :=
  String.eqb key name || String.eqb (foldName key) (foldName name).

(** ** encoding/json: decoding into Go values

    A decoder takes the value the Go location holds before the call and the
    JSON value, and returns the value stored or an error.  [json.Unmarshal]
    keeps the first type error and goes on decoding; every caller in this
    package drops the target when an error comes back, so a decoder here
    stops at the first error. *)

Inductive result (A : Type) : Type :=
| Ok (a : A)
| Err (e : error).

Arguments Ok {A}.
Arguments Err {A}.

Definition bind {A B : Type} (r : result A) (k : A -> result B) : result B :=
  match r with
  | Ok a => k a
  | Err e => Err e
  end.

Notation "x <- c ;; k" := (bind c (fun x => k))
  (at level 61, c at next level, right associativity).

Definition json_kind (j : json) : string :=
  match j with
  | JNull => "null"
  | JBool _ => "bool"
  | JNumber _ => "number"
  | JString _ => "string"
  | JArray _ => "array"
  | JObject _ => "object"
  end.

(** Into a [string] (or a named string type): [null] changes nothing. *)
Definition unmarshal_string (old : string) (j : json) : result string :=
  match j with
  | JNull => Ok old
  | JString s => Ok s
  | _ => Err (UnmarshalTypeError (json_kind j) "string")
  end.

(** Into an [int]: an integer literal within range. *)
Definition unmarshal_int (old : Z) (j : json) : result Z :=
  match j with
  | JNull => Ok old
  | JNumber n =>
      match num_int n with
      | Some z => if in_int64 z then Ok z else Err (UnmarshalTypeError "number" "int")
      | None => Err (UnmarshalTypeError "number" "int")
      end
  | _ => Err (UnmarshalTypeError (json_kind j) "int")
  end.

Definition unmarshal_float64 (old : float64) (j : json) : result float64 :=
  match j with
  | JNull => Ok old
  | JNumber n =>
      match num_float n with
      | Some f => Ok f
      | None => Err (UnmarshalTypeError "number" "float64")
      end
  | _ => Err (UnmarshalTypeError (json_kind j) "float64")
  end.

(** Into a pointer: [null] sets it to nil; any other value is decoded into
    what it points to, a fresh zero value when it was nil. *)
Definition unmarshal_ptr {T : Type} (dec : T -> json -> result T) (zero : T)
    (old : option T) (j : json) : result (option T) :=
  match j with
  | JNull => Ok None
  | _ =>
      x <- dec (match old with Some v => v | None => zero end) j ;;
      Ok (Some x)
  end.

(** Into a slice: [null] sets it to nil; the elements of an array are decoded
    in turn, into the elements the slice already has as far as they go.
    [unmarshal_slice] is for a slice kept as the list of its elements. *)
Fixpoint unmarshal_elems {T : Type} (dec : T -> json -> result T) (zero : T)
    (old : list T) (elems : list json) : result (list T) :=
  match elems with
  | [] => Ok []
  | j :: rest =>
      x <- dec (hd zero old) j ;;
      xs <- unmarshal_elems dec zero (tl old) rest ;;
      Ok (x :: xs)
  end.

Definition unmarshal_slice {T : Type} (goType : string) (dec : T -> json -> result T)
    (zero : T) (old : list T) (j : json) : result (list T) :=
  match j with
  | JNull => Ok []
  | JArray elems => unmarshal_elems dec zero old elems
  | _ => Err (UnmarshalTypeError (json_kind j) goType)
  end.

(** The same into a [slice]: [null] stores nil, and an array stores a slice
    that is not nil, the empty array included (the decoder then makes an
    empty slice of capacity 0). *)
Definition unmarshal_slice_value {T : Type} (goType : string) (dec : T -> json -> result T)
    (zero : T) (old : slice T) (j : json) : result (slice T) :=
  match j with
  | JNull => Ok nil_slice
  | JArray items =>
      xs <- unmarshal_elems dec zero (elems old) items ;;
      Ok (slice_of xs)
  | _ => Err (UnmarshalTypeError (json_kind j) goType)
  end.

(** Into a struct: the members of an object are taken in the order they are
    written, each stored by [field] (which leaves the struct as it is when no
    field matches the member name); [null] changes nothing. *)
Fixpoint unmarshal_members {T : Type} (field : string -> json -> T -> result T)
    (members : list (string * json)) (v : T) : result T :=
  match members with
  | [] => Ok v
  | (key, j) :: rest =>
      v' <- field key j v ;;
      unmarshal_members field rest v'
  end.

Definition unmarshal_struct {T : Type} (goType : string)
    (field : string -> json -> T -> result T) (old : T) (j : json) : result T :=
  match j with
  | JNull => Ok old
  | JObject members => unmarshal_members field members old
  | _ => Err (UnmarshalTypeError (json_kind j) goType)
  end.

(** Into a [json.RawMessage]: the value as it stands, [null] included. *)
Definition unmarshal_raw (old : option RawMessage) (j : json) : result (option RawMessage) :=
  Ok (Some j).

(** ** encoding/json: encoding Go values *)

Definition marshal_string (s : string) : json := JString (toValidUTF8 s).

(** The value of a finite [float64] when it is a whole number below 1e21,
    which [json.Marshal] then prints as an integer literal. *)
Definition float64_int_literal (f : float64) : option Z :=
  match f with
  | S754_zero _ => Some 0
  | S754_finite s m e =>
      let sign := if s then (-1) else 1 in
      if 0 <=? e then
        if Zpos m * 2 ^ e <? 10 ^ 21 then Some (sign * (Zpos m * 2 ^ e)) else None
      else if (Zpos m mod 2 ^ (- e) =? 0) && (Zpos m / 2 ^ (- e) <? 10 ^ 21) then
        Some (sign * (Zpos m / 2 ^ (- e)))
      else None
  | _ => None
  end.

(** The number token printed for a finite [float64]: the shortest decimal
    that [strconv.ParseFloat] reads back as the same value. *)
Definition formatFloat (f : float64) : number :=
  {| num_int := float64_int_literal f; num_float := Some f |}.

Definition marshal_float64 (f : float64) : result json :=
  if f64_finite f then Ok (JNumber (formatFloat f))
  else Err (UnsupportedValueError f).

(** A member tagged [omitempty] whose Go type is a pointer to a string. *)
Definition marshal_opt_string (name : string) (p : option string) : list (string * json) :=
  match p with
  | None => []
  | Some s => [(name, marshal_string s)]
  end.

(** ** content: the codec of [Content] *)

Definition Annotations_zero : Annotations :=
  {| ann_Audience := nil_slice; ann_Priority := None |}.

Definition Annotations_field (key : string) (j : json) (a : Annotations) : result Annotations :=
  if fieldMatch "audience" key then
    audience <- unmarshal_slice_value "[]types.Role" unmarshal_string "" (ann_Audience a) j ;;
    Ok {| ann_Audience := audience; ann_Priority := ann_Priority a |}
  else if fieldMatch "priority" key then
    priority <- unmarshal_ptr unmarshal_float64 (float64_of_int 0) (ann_Priority a) j ;;
    Ok {| ann_Audience := ann_Audience a; ann_Priority := priority |}
  else Ok a.

Definition unmarshal_Annotations : Annotations -> json -> result Annotations :=
  unmarshal_struct "types.Annotations" Annotations_field.

Definition TextContent_zero : TextContent :=
  {| tc_Text := ""; tc_Annotations := None |}.

Definition TextContent_field (key : string) (j : json) (t : TextContent) : result TextContent :=
  if fieldMatch "text" key then
    text <- unmarshal_string (tc_Text t) j ;;
    Ok {| tc_Text := text; tc_Annotations := tc_Annotations t |}
  else if fieldMatch "annotations" key then
    ann <- unmarshal_ptr unmarshal_Annotations Annotations_zero (tc_Annotations t) j ;;
    Ok {| tc_Text := tc_Text t; tc_Annotations := ann |}
  else Ok t.

Definition ImageContent_zero : ImageContent :=
  {| ic_Data := ""; ic_MimeType := ""; ic_Annotations := None |}.

Definition ImageContent_field (key : string) (j : json) (i : ImageContent) : result ImageContent :=
  if fieldMatch "data" key then
    data <- unmarshal_string (ic_Data i) j ;;
    Ok {| ic_Data := data; ic_MimeType := ic_MimeType i; ic_Annotations := ic_Annotations i |}
  else if fieldMatch "mimeType" key then
    mimeType <- unmarshal_string (ic_MimeType i) j ;;
    Ok {| ic_Data := ic_Data i; ic_MimeType := mimeType; ic_Annotations := ic_Annotations i |}
  else if fieldMatch "annotations" key then
    ann <- unmarshal_ptr unmarshal_Annotations Annotations_zero (ic_Annotations i) j ;;
    Ok {| ic_Data := ic_Data i; ic_MimeType := ic_MimeType i; ic_Annotations := ann |}
  else Ok i.

Definition ResourceContent_zero : ResourceContent := ResourceContent_init "".

Definition ResourceContent_field (key : string) (j : json) (r : ResourceContent)
  : result ResourceContent :=
  if fieldMatch "uri" key then
    uri <- unmarshal_string (rc_URI r) j ;;
    Ok {| rc_URI := uri; rc_Text := rc_Text r; rc_Blob := rc_Blob r;
          rc_MimeType := rc_MimeType r; rc_Annotations := rc_Annotations r |}
  else if fieldMatch "text" key then
    text <- unmarshal_ptr unmarshal_string "" (rc_Text r) j ;;
    Ok {| rc_URI := rc_URI r; rc_Text := text; rc_Blob := rc_Blob r;
          rc_MimeType := rc_MimeType r; rc_Annotations := rc_Annotations r |}
  else if fieldMatch "blob" key then
    blob <- unmarshal_ptr unmarshal_string "" (rc_Blob r) j ;;
    Ok {| rc_URI := rc_URI r; rc_Text := rc_Text r; rc_Blob := blob;
          rc_MimeType := rc_MimeType r; rc_Annotations := rc_Annotations r |}
  else if fieldMatch "mimeType" key then
    mimeType <- unmarshal_ptr unmarshal_string "" (rc_MimeType r) j ;;
    Ok {| rc_URI := rc_URI r; rc_Text := rc_Text r; rc_Blob := rc_Blob r;
          rc_MimeType := mimeType; rc_Annotations := rc_Annotations r |}
  else if fieldMatch "annotations" key then
    ann <- unmarshal_ptr unmarshal_Annotations Annotations_zero (rc_Annotations r) j ;;
    Ok {| rc_URI := rc_URI r; rc_Text := rc_Text r; rc_Blob := rc_Blob r;
          rc_MimeType := rc_MimeType r; rc_Annotations := ann |}
  else Ok r.

(** The local [type typeOnly struct { Type ContentType }] of [UnmarshalJSON]. *)
Record typeOnly : Type := {
  to_Type : ContentType
}.

Definition typeOnly_field (key : string) (j : json) (t : typeOnly) : result typeOnly :=
  if fieldMatch "type" key then
    ty <- unmarshal_string (to_Type t) j ;;
    Ok {| to_Type := ty |}
  else Ok t.

(** [func (c *Content) UnmarshalJSON(data []byte) error]: the receiver before
    the call, the document, and the receiver after the call with the error. *)
Definition Content_UnmarshalJSON (c : Content) (data : json) : Content * option error :=
  match unmarshal_struct "typeOnly" typeOnly_field {| to_Type := "" |} data with
  | Err err => (c, Some err)
  | Ok t =>
      if String.eqb (to_Type t) ContentTypeText then
        match unmarshal_struct "types.TextContent" TextContent_field TextContent_zero data with
        | Err err => (c, Some err)
        | Ok text =>
            ({| c_Type := ContentTypeText; c_TextContent := Some text;
                c_ImageContent := c_ImageContent c;
                c_ResourceContent := c_ResourceContent c |}, None)
        end
      else if String.eqb (to_Type t) ContentTypeImage then
        match unmarshal_struct "types.ImageContent" ImageContent_field ImageContent_zero data with
        | Err err => (c, Some err)
        | Ok img =>
            ({| c_Type := ContentTypeImage; c_TextContent := c_TextContent c;
                c_ImageContent := Some img;
                c_ResourceContent := c_ResourceContent c |}, None)
        end
      else if String.eqb (to_Type t) ContentTypeResource then
        match unmarshal_struct "types.ResourceContent" ResourceContent_field
                ResourceContent_zero data with
        | Err err => (c, Some err)
        | Ok res =>
            ({| c_Type := ContentTypeResource; c_TextContent := c_TextContent c;
                c_ImageContent := c_ImageContent c;
                c_ResourceContent := Some res |}, None)
        end
      else (c, Some (Errorf "unknown content type: %s" [ArgString (to_Type t)]))
  end.

(** The zero [Content], as [var content Content] declares it. *)
Definition Content_zero : Content :=
  {| c_Type := ""; c_TextContent := None; c_ImageContent := None; c_ResourceContent := None |}.

(** The usage the package documents:
<<
    var content Content
    err := json.Unmarshal(data, &content)
>>
*)
Definition decode_Content (data : json) : Content * option error :=
  Content_UnmarshalJSON Content_zero data.

Definition marshal_Annotations (a : Annotations) : result json :=
  priority <- match ann_Priority a with
              | None => Ok []
              | Some p => n <- marshal_float64 p ;; Ok [("priority", n)]
              end ;;
  Ok (JObject ((match elems (ann_Audience a) with
                | [] => []
                | _ :: _ =>
                    [("audience", JArray (map marshal_string (elems (ann_Audience a))))]
                end) ++ priority)).

(** The member [annotations,omitempty] of the three variants. *)
Definition marshal_annotations (a : option Annotations) : result (list (string * json)) :=
  match a with
  | None => Ok []
  | Some a => j <- marshal_Annotations a ;; Ok [("annotations", j)]
  end.

Definition TextContent_members (t : TextContent) : result (list (string * json)) :=
  ann <- marshal_annotations (tc_Annotations t) ;;
  Ok (("text", marshal_string (tc_Text t)) :: ann).

Definition ImageContent_members (i : ImageContent) : result (list (string * json)) :=
  ann <- marshal_annotations (ic_Annotations i) ;;
  Ok (("data", marshal_string (ic_Data i)) :: ("mimeType", marshal_string (ic_MimeType i)) :: ann).

Definition ResourceContent_members (r : ResourceContent) : result (list (string * json)) :=
  ann <- marshal_annotations (rc_Annotations r) ;;
  Ok (("uri", marshal_string (rc_URI r))
      :: marshal_opt_string "text" (rc_Text r)
      ++ marshal_opt_string "blob" (rc_Blob r)
      ++ marshal_opt_string "mimeType" (rc_MimeType r)
      ++ ann).

(** [func (c Content) MarshalJSON() ([]byte, error)]: the anonymous struct
    with a [Type] field and the embedded variant is printed as one flat
    object, the [type] member first. *)
Definition Content_MarshalJSON (c : Content) : result json :=
  if String.eqb (c_Type c) ContentTypeText then
    match c_TextContent c with
    | None => Err (Errorf "text content is nil" [])
    | Some t =>
        members <- TextContent_members t ;;
        Ok (JObject (("type", marshal_string ContentTypeText) :: members))
    end
  else if String.eqb (c_Type c) ContentTypeImage then
    match c_ImageContent c with
    | None => Err (Errorf "image content is nil" [])
    | Some i =>
        members <- ImageContent_members i ;;
        Ok (JObject (("type", marshal_string ContentTypeImage) :: members))
    end
  else if String.eqb (c_Type c) ContentTypeResource then
    match c_ResourceContent c with
    | None => Err (Errorf "resource content is nil" [])
    | Some r =>
        members <- ResourceContent_members r ;;
        Ok (JObject (("type", marshal_string ContentTypeResource) :: members))
    end
  else Err (Errorf "unknown content type: %s" [ArgString (c_Type c)]).

(** ** errors: [ErrorInfo] and its decoder *)

Definition ErrParse : Z := -32700.
Definition ErrInvalidRequest : Z := -32600.
Definition ErrMethodNotFound : Z := -32601.
Definition ErrInvalidParams : Z := -32602.
Definition ErrInternal : Z := -32603.

Record ValidationFailure : Type := {
  vf_Field : string;
  vf_Error : string
}.

Record ValidationError : Type := {
  ve_Validation : list ValidationFailure
}.

Record ToolExecutionError : Type := {
  tee_ToolName : string;
  tee_ErrType : string;
  tee_Details : string
}.

(** The interface [ErrorData] with the two types of the package that
    implement it. *)
Inductive ErrorData : Type :=
| ErrorData_Validation (v : ValidationError)
| ErrorData_ToolExecution (t : ToolExecutionError).

Definition ErrorType (d : ErrorData) : string :=
  match d with
  | ErrorData_Validation _ => "validation"
  | ErrorData_ToolExecution _ => "toolExecution"
  end.

Record ErrorInfo : Type := {
  ei_Code : Z;
  ei_Message : string;
  ei_Data : option ErrorData
}.

Definition ErrorInfo_zero : ErrorInfo :=
  {| ei_Code := 0; ei_Message := ""; ei_Data := None |}.

Definition NewValidationError (failures : list ValidationFailure) : ErrorInfo :=
  {| ei_Code := ErrInvalidParams; ei_Message := "Invalid parameters";
     ei_Data := Some (ErrorData_Validation {| ve_Validation := failures |}) |}.

Definition NewToolExecutionError (toolName errorType details : string) : ErrorInfo :=
  {| ei_Code := ErrInternal; ei_Message := "Tool execution failed";
     ei_Data := Some (ErrorData_ToolExecution
                        {| tee_ToolName := toolName; tee_ErrType := errorType;
                           tee_Details := details |}) |}.

(** The local struct [aux] of [UnmarshalJSON]. *)
Record ErrorInfo_aux : Type := {
  aux_Code : Z;
  aux_Message : string;
  aux_Data : option RawMessage
}.

Definition aux_zero : ErrorInfo_aux :=
  {| aux_Code := 0; aux_Message := ""; aux_Data := None |}.

Definition aux_field (key : string) (j : json) (a : ErrorInfo_aux) : result ErrorInfo_aux :=
  if fieldMatch "code" key then
    code <- unmarshal_int (aux_Code a) j ;;
    Ok {| aux_Code := code; aux_Message := aux_Message a; aux_Data := aux_Data a |}
  else if fieldMatch "message" key then
    message <- unmarshal_string (aux_Message a) j ;;
    Ok {| aux_Code := aux_Code a; aux_Message := message; aux_Data := aux_Data a |}
  else if fieldMatch "data" key then
    data <- unmarshal_raw (aux_Data a) j ;;
    Ok {| aux_Code := aux_Code a; aux_Message := aux_Message a; aux_Data := data |}
  else Ok a.

(** The local struct [temp] of [UnmarshalJSON]. *)
Record ErrorInfo_temp : Type := {
  temp_ErrorType : string
}.

Definition temp_field (key : string) (j : json) (t : ErrorInfo_temp) : result ErrorInfo_temp :=
  if fieldMatch "errorType" key then
    ty <- unmarshal_string (temp_ErrorType t) j ;;
    Ok {| temp_ErrorType := ty |}
  else Ok t.

Definition ValidationFailure_zero : ValidationFailure :=
  {| vf_Field := ""; vf_Error := "" |}.

Definition ValidationFailure_field (key : string) (j : json) (f : ValidationFailure)
  : result ValidationFailure :=
  if fieldMatch "field" key then
    field <- unmarshal_string (vf_Field f) j ;;
    Ok {| vf_Field := field; vf_Error := vf_Error f |}
  else if fieldMatch "error" key then
    err <- unmarshal_string (vf_Error f) j ;;
    Ok {| vf_Field := vf_Field f; vf_Error := err |}
  else Ok f.

Definition ValidationError_field (key : string) (j : json) (v : ValidationError)
  : result ValidationError :=
  if fieldMatch "validation" key then
    failures <- unmarshal_slice "[]types.ValidationFailure"
                  (unmarshal_struct "types.ValidationFailure" ValidationFailure_field)
                  ValidationFailure_zero (ve_Validation v) j ;;
    Ok {| ve_Validation := failures |}
  else Ok v.

Definition ToolExecutionError_zero : ToolExecutionError :=
  {| tee_ToolName := ""; tee_ErrType := ""; tee_Details := "" |}.

Definition ToolExecutionError_field (key : string) (j : json) (t : ToolExecutionError)
  : result ToolExecutionError :=
  if fieldMatch "toolName" key then
    toolName <- unmarshal_string (tee_ToolName t) j ;;
    Ok {| tee_ToolName := toolName; tee_ErrType := tee_ErrType t; tee_Details := tee_Details t |}
  else if fieldMatch "errorType" key then
    errType <- unmarshal_string (tee_ErrType t) j ;;
    Ok {| tee_ToolName := tee_ToolName t; tee_ErrType := errType; tee_Details := tee_Details t |}
  else if fieldMatch "details" key then
    details <- unmarshal_string (tee_Details t) j ;;
    Ok {| tee_ToolName := tee_ToolName t; tee_ErrType := tee_ErrType t; tee_Details := details |}
  else Ok t.

Definition with_Data (e : ErrorInfo) (d : ErrorData) : ErrorInfo :=
  {| ei_Code := ei_Code e; ei_Message := ei_Message e; ei_Data := Some d |}.

(** [func (e *ErrorInfo) UnmarshalJSON(data []byte) error]: the receiver
    before the call, the document, and the receiver after the call with the
    error.  [e.Code] and [e.Message] are written as soon as [aux] is decoded;
    [e.Data] is written only on the two paths that decode a variant. *)
Definition ErrorInfo_UnmarshalJSON (e : ErrorInfo) (data : json) : ErrorInfo * option error :=
  match unmarshal_struct "struct" aux_field aux_zero data with
  | Err err => (e, Some err)
  | Ok aux =>
      let e1 := {| ei_Code := aux_Code aux; ei_Message := aux_Message aux;
                   ei_Data := ei_Data e |} in
      match aux_Data aux with
      | None => (e1, None)
      | Some raw =>
          match unmarshal_struct "struct" temp_field {| temp_ErrorType := "" |} raw with
          | Err err => (e1, Some err)
          | Ok temp =>
              if ei_Code e1 =? ErrInvalidParams then
                match unmarshal_struct "types.ValidationError" ValidationError_field
                        {| ve_Validation := [] |} raw with
                | Err err => (e1, Some err)
                | Ok validationErr => (with_Data e1 (ErrorData_Validation validationErr), None)
                end
              else if ei_Code e1 =? ErrInternal then
                if String.eqb (temp_ErrorType temp) "toolExecution" then
                  match unmarshal_struct "types.ToolExecutionError" ToolExecutionError_field
                          ToolExecutionError_zero raw with
                  | Err err => (e1, Some err)
                  | Ok toolErr => (with_Data e1 (ErrorData_ToolExecution toolErr), None)
                  end
                else (e1, Some (Errorf "unknown error type: %s"
                                  [ArgString (temp_ErrorType temp)]))
              else (e1, None)
          end
      end
  end.

(** [var err ErrorInfo; json.Unmarshal(jsonData, &err)], as in the package's
    third usage example. *)
Definition decode_ErrorInfo (data : json) : ErrorInfo * option error :=
  ErrorInfo_UnmarshalJSON ErrorInfo_zero data.

(** ** Predicates used to state the properties *)

(** Every option of the list, run in order from [v], returns nil; [v'] is the
    value the last one leaves. *)
Inductive OptionsSucceed {T : Type} : list (ConfigOption T) -> T -> T -> Prop :=
| succeed_nil : forall v, OptionsSucceed [] v v
| succeed_cons : forall opt rest v v' v'',
    opt v = (v', None) ->
    OptionsSucceed rest v' v'' ->
    OptionsSucceed (opt :: rest) v v''.

(** Some option of the list, when its turn comes, returns the error [err]
    (the options before it having returned nil). *)
Inductive OptionFails {T : Type} : list (ConfigOption T) -> T -> error -> Prop :=
| fails_here : forall opt rest v v' err,
    opt v = (v', Some err) ->
    OptionFails (opt :: rest) v err
| fails_later : forall opt rest v v' err,
    opt v = (v', None) ->
    OptionFails rest v' err ->
    OptionFails (opt :: rest) v err.

(** What a constructor returns: an error and no value. *)
Definition is_failure {T : Type} (r : option T * option error) : Prop :=
  exists err, r = (None, Some err).

(** All-or-nothing construction from the initial value [v0] with [opts]: a
    failing option makes the constructor fail, and what the constructor
    returns is either a failure or the value all options have configured,
    with a nil error. *)
Definition all_or_nothing {T : Type} (opts : list (ConfigOption T)) (v0 : T)
    (r : option T * option error) : Prop :=
  (forall err, OptionFails opts v0 err -> is_failure r)
  /\ (is_failure r \/ exists v, r = (Some v, None) /\ OptionsSucceed opts v0 v).

(** A role of the protocol. *)
Definition known_role (role : Role) : Prop := role = RoleUser \/ role = RoleAssistant.

(** Exactly one of [Text] and [Blob] is set. *)
Definition exactly_one_body (rc : ResourceContent) : Prop :=
  (rc_Text rc <> None /\ rc_Blob rc = None) \/ (rc_Text rc = None /\ rc_Blob rc <> None).

(** Values that JSON carries unchanged: a string is UTF-8 text, a number is
    finite, and a slice written under [omitempty] is nil or has an element
    (the empty slice that is not nil is omitted as nil is, and nil comes
    back). *)
Definition wire_string (s : string) : Prop := utf8_valid s = true.

Definition nil_or_nonempty {A : Type} (s : slice A) : Prop := s <> slice_of [].

Definition wire_opt_string (p : option string) : Prop :=
  match p with
  | Some s => wire_string s
  | None => True
  end.

Definition wire_Annotations (a : option Annotations) : Prop :=
  match a with
  | Some a =>
      Forall wire_string (elems (ann_Audience a))
      /\ nil_or_nonempty (ann_Audience a)
      /\ match ann_Priority a with
         | Some p => f64_finite p = true
         | None => True
         end
  | None => True
  end.

Definition valid_TextContent (t : TextContent) : Prop :=
  wire_string (tc_Text t) /\ wire_Annotations (tc_Annotations t).

Definition valid_ImageContent (i : ImageContent) : Prop :=
  wire_string (ic_Data i) /\ wire_string (ic_MimeType i) /\ wire_Annotations (ic_Annotations i).

Definition valid_ResourceContent (r : ResourceContent) : Prop :=
  wire_string (rc_URI r) /\ wire_opt_string (rc_Text r) /\ wire_opt_string (rc_Blob r)
  /\ wire_opt_string (rc_MimeType r) /\ wire_Annotations (rc_Annotations r).

(** A valid [Content]: the discriminator is one of the three, the variant it
    names is populated with a variant that JSON carries unchanged, and the
    other two are nil. *)
Definition valid_Content (c : Content) : Prop :=
  (c_Type c = ContentTypeText
   /\ (exists t, c_TextContent c = Some t /\ valid_TextContent t)
   /\ c_ImageContent c = None /\ c_ResourceContent c = None)
  \/ (c_Type c = ContentTypeImage
      /\ c_TextContent c = None
      /\ (exists i, c_ImageContent c = Some i /\ valid_ImageContent i)
      /\ c_ResourceContent c = None)
  \/ (c_Type c = ContentTypeResource
      /\ c_TextContent c = None /\ c_ImageContent c = None
      /\ (exists r, c_ResourceContent c = Some r /\ valid_ResourceContent r)).

(** The variant that the discriminator of [c] names is populated. *)
Definition discriminator_agrees (c : Content) : Prop :=
  (c_Type c = ContentTypeText /\ c_TextContent c <> None)
  \/ (c_Type c = ContentTypeImage /\ c_ImageContent c <> None)
  \/ (c_Type c = ContentTypeResource /\ c_ResourceContent c <> None).

(** Exactly one variant pointer of [c] is non-nil, the one its discriminator
    names. *)
Definition exactly_one_variant (c : Content) : Prop :=
  (c_Type c = ContentTypeText
   /\ c_TextContent c <> None /\ c_ImageContent c = None /\ c_ResourceContent c = None)
  \/ (c_Type c = ContentTypeImage
      /\ c_TextContent c = None /\ c_ImageContent c <> None /\ c_ResourceContent c = None)
  \/ (c_Type c = ContentTypeResource
      /\ c_TextContent c = None /\ c_ImageContent c = None /\ c_ResourceContent c <> None).

(** The discriminator that the members of an object carry, read off the
    document: the text of the last member named [type] that holds a string,
    [seen] when there is none ([null] counts as absent); [None] when a member
    named [type] holds a value that is neither a string nor [null]. *)
Fixpoint discriminator (members : list (string * json)) (seen : string) : option string :=
  match members with
  | [] => Some seen
  | (key, j) :: rest =>
      if fieldMatch "type" key then
        match j with
        | JString s => discriminator rest s
        | JNull => discriminator rest seen
        | _ => None
        end
      else discriminator rest seen
  end.

(** No member of the list is read as [type] by the decoder. *)
Definition no_type_member (members : list (string * json)) : bool :=
  forallb (fun member => negb (fieldMatch "type" (fst member))) members.

(** The same for the member [errorType] of an error's data. *)
Fixpoint errorType_of (members : list (string * json)) (seen : string) : option string :=
  match members with
  | [] => Some seen
  | (key, j) :: rest =>
      if fieldMatch "errorType" key then
        match j with
        | JString s => errorType_of rest s
        | JNull => errorType_of rest seen
        | _ => None
        end
      else errorType_of rest seen
  end.

(** * More of the package *)

(** ** resource: the options of [Resource] and [ResourceTemplate] *)

Definition WithResourceDescription (description : string) : ResourceOption := fun r =>
  ({| res_URI := res_URI r; res_Name := res_Name r; res_Description := Some description;
      res_MimeType := res_MimeType r; res_Annotations := res_Annotations r |}, None).

Definition WithResourceMimeType (mimeType : string) : ResourceOption := fun r =>
  ({| res_URI := res_URI r; res_Name := res_Name r; res_Description := res_Description r;
      res_MimeType := Some mimeType; res_Annotations := res_Annotations r |}, None).

Definition WithTemplateDescription (description : string) : ResourceTemplateOption := fun rt =>
  ({| rt_Name := rt_Name rt; rt_URITemplate := rt_URITemplate rt;
      rt_Description := Some description; rt_MimeType := rt_MimeType rt;
      rt_Annotations := rt_Annotations rt |}, None).

Definition WithTemplateMimeType (mimeType : string) : ResourceTemplateOption := fun rt =>
  ({| rt_Name := rt_Name rt; rt_URITemplate := rt_URITemplate rt;
      rt_Description := rt_Description rt; rt_MimeType := Some mimeType;
      rt_Annotations := rt_Annotations rt |}, None).

Definition WithTemplateAnnotations (annotations : option Annotations) : ResourceTemplateOption :=
  fun rt =>
  ({| rt_Name := rt_Name rt; rt_URITemplate := rt_URITemplate rt;
      rt_Description := rt_Description rt; rt_MimeType := rt_MimeType rt;
      rt_Annotations := annotations |}, None).

(** ** prompt: the options of [Prompt] and [PromptArgument] *)

Definition WithPromptDescription (description : string) : PromptOption := fun p =>
  ({| p_Name := p_Name p; p_Description := Some description; p_Arguments := p_Arguments p |},
   None).

Definition WithArgumentDescription (description : string) : PromptArgumentOption := fun a =>
  ({| pa_Name := pa_Name a; pa_Description := Some description; pa_Required := pa_Required a |},
   None).

Definition WithArgumentRequired (required : bool) : PromptArgumentOption := fun a =>
  ({| pa_Name := pa_Name a; pa_Description := pa_Description a; pa_Required := Some required |},
   None).

(** The argument that [WithPromptArgument] starts from. *)
Definition PromptArgument_init (name : string) : PromptArgument :=
  {| pa_Name := name; pa_Description := None; pa_Required := None |}.

(** ** logging: the levels and the constructors by level *)

Definition LogLevelDebug : LoggingLevel := "debug".
Definition LogLevelInfo : LoggingLevel := "info".
Definition LogLevelNotice : LoggingLevel := "notice".
Definition LogLevelWarning : LoggingLevel := "warning".
Definition LogLevelError : LoggingLevel := "error".
Definition LogLevelCritical : LoggingLevel := "critical".
Definition LogLevelAlert : LoggingLevel := "alert".
Definition LogLevelEmergency : LoggingLevel := "emergency".

Definition NewDebugMessage {Any : Type} (data : option Any)
    (opts : list (LoggingMessageOption Any)) :=
  NewLoggingMessage LogLevelDebug data opts.

Definition NewInfoMessage {Any : Type} (data : option Any)
    (opts : list (LoggingMessageOption Any)) :=
  NewLoggingMessage LogLevelInfo data opts.

Definition NewWarningMessage {Any : Type} (data : option Any)
    (opts : list (LoggingMessageOption Any)) :=
  NewLoggingMessage LogLevelWarning data opts.

Definition NewErrorMessage {Any : Type} (data : option Any)
    (opts : list (LoggingMessageOption Any)) :=
  NewLoggingMessage LogLevelError data opts.

Definition NewCriticalMessage {Any : Type} (data : option Any)
    (opts : list (LoggingMessageOption Any)) :=
  NewLoggingMessage LogLevelCritical data opts.

(** ** message: [Message], [ModelPreferences], [CreateMessageParams] *)

Record Message : Type := {
  msg_Role : Role;
  msg_Content : Content
}.

(** [func (m *Message) Validate() error], on a non-nil receiver. *)
Definition Message_Validate (m : Message) : option error :=
  if String.eqb (msg_Role m) RoleUser || String.eqb (msg_Role m) RoleAssistant then None
  else Some (Errorf "invalid role: %s" [ArgString (msg_Role m)]).

Record SamplingMessage : Type := {
  sm_Role : Role;
  sm_Content : Content
}.

Record ModelHint : Type := {
  mh_Name : option string
}.

Record ModelPreferences : Type := {
  mp_Hints : list ModelHint;
  mp_CostPriority : option float64;
  mp_SpeedPriority : option float64;
  mp_IntelligencePriority : option float64
}.

(** The map literal [priorities] of [ModelPreferences.Validate], as the list
    of its three entries. *)
Definition ModelPreferences_priorities (mp : ModelPreferences)
  : list (string * option float64) :=
  [("costPriority", mp_CostPriority mp);
   ("speedPriority", mp_SpeedPriority mp);
   ("intelligencePriority", mp_IntelligencePriority mp)].

(** The body of [for name, priority := range priorities], over the entries in
    the order in which they are yielded. *)
Fixpoint rangePriorities (entries : list (string * option float64)) : option error :=
  match entries with
  | [] => None
  | (name, priority) :: rest =>
      match priority with
      | Some p =>
          if priority_out_of_range p then
            Some (Errorf "%s must be between 0 and 1, got %f" [ArgString name; ArgFloat p])
          else rangePriorities rest
      | None => rangePriorities rest
      end
  end.

(** [func (mp *ModelPreferences) Validate() error].  Go leaves the order in
    which [range] yields the entries of a map unspecified: [rangeOrder] is
    that order, a parameter of the method, which the properties take to be an
    arbitrary permutation. *)
Definition ModelPreferences_Validate
    (rangeOrder : list (string * option float64) -> list (string * option float64))
    (mp : option ModelPreferences) : option error :=
  match mp with
  | None => None
  | Some mp => rangePriorities (rangeOrder (ModelPreferences_priorities mp))
  end.

Definition IncludeContext : Type := string.
Definition IncludeContextNone : IncludeContext := "none".
Definition IncludeContextThisServer : IncludeContext := "thisServer".
Definition IncludeContextAllServers : IncludeContext := "allServers".

Section Sampling.

(** The values of the map [Metadata], of type [any]. *)
Variable Any : Type.

Record CreateMessageParams : Type := {
  cmp_Messages : list SamplingMessage;
  cmp_ModelPreferences : option ModelPreferences;
  cmp_SystemPrompt : option string;
  cmp_IncludeContext : option IncludeContext;
  cmp_Temperature : option float64;
  cmp_MaxTokens : Z;
  cmp_StopSequences : list string;
  cmp_Metadata : list (string * Any)
}.

(** [func (p *CreateMessageParams) Validate() error], on a non-nil receiver. *)
Definition CreateMessageParams_Validate
    (rangeOrder : list (string * option float64) -> list (string * option float64))
    (p : CreateMessageParams) : option error :=
  if len (cmp_Messages p) =? 0 then Some (Errorf "messages cannot be empty" [])
  else if cmp_MaxTokens p <=? 0 then Some (Errorf "maxTokens must be positive" [])
  else if match cmp_Temperature p with
          | Some t => f64_lt t (float64_of_int 0) || f64_gt t (float64_of_int 1)
          | None => false
          end
  then Some (Errorf "temperature must be between 0 and 1" [])
  else
    match (match cmp_IncludeContext p with
           | Some ic =>
               if String.eqb ic IncludeContextNone || String.eqb ic IncludeContextThisServer
                  || String.eqb ic IncludeContextAllServers
               then None
               else Some (Errorf "invalid includeContext value: %s" [ArgString ic])
           | None => None
           end) with
    | Some err => Some err
    | None =>
        match cmp_ModelPreferences p with
        | Some mp =>
            match ModelPreferences_Validate rangeOrder (Some mp) with
            | Some err => Some (Errorf "invalid model preferences: %w" [ArgError err])
            | None => None
            end
        | None => None
        end
    end.

End Sampling.

Arguments cmp_Messages {Any}.
Arguments cmp_ModelPreferences {Any}.
Arguments cmp_SystemPrompt {Any}.
Arguments cmp_IncludeContext {Any}.
Arguments cmp_Temperature {Any}.
Arguments cmp_MaxTokens {Any}.
Arguments cmp_StopSequences {Any}.
Arguments cmp_Metadata {Any}.
Arguments CreateMessageParams_Validate {Any}.

(** ** capabilities and initialize: the options that cannot fail *)

Definition WithServerPrompts (listChanged : bool) : ServerCapabilityOption := fun sc =>
  ({| sc_Experimental := sc_Experimental sc; sc_Logging := sc_Logging sc;
      sc_Prompts := Some {| prc_ListChanged := Some listChanged |};
      sc_Resources := sc_Resources sc; sc_Tools := sc_Tools sc |}, None).

Definition WithServerResources (subscribe listChanged : bool) : ServerCapabilityOption :=
  fun sc =>
  ({| sc_Experimental := sc_Experimental sc; sc_Logging := sc_Logging sc;
      sc_Prompts := sc_Prompts sc;
      sc_Resources := Some {| rsc_Subscribe := Some subscribe;
                              rsc_ListChanged := Some listChanged |};
      sc_Tools := sc_Tools sc |}, None).

Definition WithServerTools (listChanged : bool) : ServerCapabilityOption := fun sc =>
  ({| sc_Experimental := sc_Experimental sc; sc_Logging := sc_Logging sc;
      sc_Prompts := sc_Prompts sc; sc_Resources := sc_Resources sc;
      sc_Tools := Some {| tlc_ListChanged := Some listChanged |} |}, None).

Definition WithClientRoots (listChanged : bool) : ClientCapabilityOption := fun cc =>
  ({| cc_Experimental := cc_Experimental cc;
      cc_Roots := Some {| roc_ListChanged := Some listChanged |};
      cc_Sampling := cc_Sampling cc |}, None).


Definition WithInstructions (instructions : string) : InitializeResultOption := fun r =>
  ({| ires_ProtocolVersion := ires_ProtocolVersion r; ires_ServerInfo := ires_ServerInfo r;
      ires_Capabilities := ires_Capabilities r; ires_Instructions := Some instructions |}, None).

(** ** schema: [JSONSchema] and its constructors *)

Definition JSONSchemaType : Type := string.
Definition TypeObject : JSONSchemaType := "object".
Definition TypeArray : JSONSchemaType := "array".
Definition TypeString : JSONSchemaType := "string".
Definition TypeNumber : JSONSchemaType := "number".
Definition TypeInteger : JSONSchemaType := "integer".
Definition TypeBoolean : JSONSchemaType := "boolean".
Definition TypeNull : JSONSchemaType := "null".

(** The dynamic values that the package stores in a [SchemaEnum]. *)
Inductive EnumValue : Type :=
| EnumString (s : string)
| EnumNumber (f : float64)
| EnumInteger (n : Z).

(** [type JSONSchema struct]; the map [Properties] is kept as an association
    list. *)
Inductive JSONSchema : Type :=
| Build_JSONSchema (js_Type : JSONSchemaType)
    (js_Properties : list (string * JSONSchema))
    (js_Required : list string)
    (js_Items : option JSONSchema)
    (js_Enum : list EnumValue)
    (js_MinLength js_MaxLength : option Z)
    (js_Minimum js_Maximum : option float64)
    (js_Pattern : option string).

Definition js_Type (s : JSONSchema) : JSONSchemaType :=
  match s with Build_JSONSchema t _ _ _ _ _ _ _ _ _ => t end.
Definition js_Properties (s : JSONSchema) : list (string * JSONSchema) :=
  match s with Build_JSONSchema _ p _ _ _ _ _ _ _ _ => p end.
Definition js_Required (s : JSONSchema) : list string :=
  match s with Build_JSONSchema _ _ r _ _ _ _ _ _ _ => r end.
Definition js_Items (s : JSONSchema) : option JSONSchema :=
  match s with Build_JSONSchema _ _ _ i _ _ _ _ _ _ => i end.
Definition js_Enum (s : JSONSchema) : list EnumValue :=
  match s with Build_JSONSchema _ _ _ _ e _ _ _ _ _ => e end.
Definition js_MinLength (s : JSONSchema) : option Z :=
  match s with Build_JSONSchema _ _ _ _ _ m _ _ _ _ => m end.
Definition js_MaxLength (s : JSONSchema) : option Z :=
  match s with Build_JSONSchema _ _ _ _ _ _ m _ _ _ => m end.
Definition js_Minimum (s : JSONSchema) : option float64 :=
  match s with Build_JSONSchema _ _ _ _ _ _ _ m _ _ => m end.
Definition js_Maximum (s : JSONSchema) : option float64 :=
  match s with Build_JSONSchema _ _ _ _ _ _ _ _ m _ => m end.
Definition js_Pattern (s : JSONSchema) : option string :=
  match s with Build_JSONSchema _ _ _ _ _ _ _ _ _ p => p end.

(** [JSONSchema{Type: t}]: every other field has its zero value. *)
Definition JSONSchema_of_type (t : JSONSchemaType) : JSONSchema :=
  Build_JSONSchema t [] [] None [] None None None None None.

Definition StringSchema : JSONSchema := JSONSchema_of_type TypeString.
Definition NumberSchema : JSONSchema := JSONSchema_of_type TypeNumber.
Definition IntegerSchema : JSONSchema := JSONSchema_of_type TypeInteger.
Definition BooleanSchema : JSONSchema := JSONSchema_of_type TypeBoolean.

Definition NewStringEnum (values : list string) : JSONSchema :=
  Build_JSONSchema TypeString [] [] None (map EnumString values) None None None None None.

Definition NewNumberEnum (values : list float64) : JSONSchema :=
  Build_JSONSchema TypeNumber [] [] None (map EnumNumber values) None None None None None.

Definition NewIntegerEnum (values : list Z) : JSONSchema :=
  Build_JSONSchema TypeInteger [] [] None (map EnumInteger values) None None None None None.

(** A [SchemaOption] is a Go function on a pointer to [JSONSchema], with no
    error result. *)
Definition SchemaOption : Type := JSONSchema -> JSONSchema.

Definition StringSchemaWithConstraints (opts : list SchemaOption) : JSONSchema :=
  fold_left (fun schema opt => opt schema) opts StringSchema.

Definition WithMinLength (min : Z) : SchemaOption := fun s =>
  Build_JSONSchema (js_Type s) (js_Properties s) (js_Required s) (js_Items s) (js_Enum s)
    (Some min) (js_MaxLength s) (js_Minimum s) (js_Maximum s) (js_Pattern s).

Definition WithMaxLength (max : Z) : SchemaOption := fun s =>
  Build_JSONSchema (js_Type s) (js_Properties s) (js_Required s) (js_Items s) (js_Enum s)
    (js_MinLength s) (Some max) (js_Minimum s) (js_Maximum s) (js_Pattern s).

Definition WithPattern (pattern : string) : SchemaOption := fun s =>
  Build_JSONSchema (js_Type s) (js_Properties s) (js_Required s) (js_Items s) (js_Enum s)
    (js_MinLength s) (js_MaxLength s) (js_Minimum s) (js_Maximum s) (Some pattern).

Definition WithNumberRange (min max : float64) : SchemaOption := fun s =>
  Build_JSONSchema (js_Type s) (js_Properties s) (js_Required s) (js_Items s) (js_Enum s)
    (js_MinLength s) (js_MaxLength s) (Some min) (Some max) (js_Pattern s).

Definition ArraySchema (items : JSONSchema) : JSONSchema :=
  Build_JSONSchema TypeArray [] [] (Some items) [] None None None None None.

Definition ObjectSchema (properties : list (string * JSONSchema)) : JSONSchema :=
  Build_JSONSchema TypeObject properties [] None [] None None None None None.

(** ** Calls of the package's own options

    To speak of the option lists that a caller can write with the options
    the package provides, a call of such an option is kept as data and
    [*_option] gives the option it stands for. *)

(** The last element of [l], [d] when [l] is empty. *)
Definition lastOr {A : Type} (l : list A) (d : A) : A :=
  fold_left (fun _ x => x) l d.

Definition nonempty {A : Type} (l : list A) : bool :=
  match l with [] => false | _ :: _ => true end.

Inductive ResourceOptionCall : Type :=
| CallResourceDescription (description : string)
| CallResourceMimeType (mimeType : string)
| CallResourceAnnotations (annotations : option Annotations).

Definition resource_option (c : ResourceOptionCall) : ResourceOption :=
  match c with
  | CallResourceDescription description => WithResourceDescription description
  | CallResourceMimeType mimeType => WithResourceMimeType mimeType
  | CallResourceAnnotations annotations => WithResourceAnnotations annotations
  end.

Definition template_option (c : ResourceOptionCall) : ResourceTemplateOption :=
  match c with
  | CallResourceDescription description => WithTemplateDescription description
  | CallResourceMimeType mimeType => WithTemplateMimeType mimeType
  | CallResourceAnnotations annotations => WithTemplateAnnotations annotations
  end.

Definition resource_descriptions (calls : list ResourceOptionCall) : list string :=
  flat_map (fun c => match c with CallResourceDescription d => [d] | _ => [] end) calls.

Definition resource_mimeTypes (calls : list ResourceOptionCall) : list string :=
  flat_map (fun c => match c with CallResourceMimeType m => [m] | _ => [] end) calls.

Definition resource_annotations (calls : list ResourceOptionCall) : list (option Annotations) :=
  flat_map (fun c => match c with CallResourceAnnotations a => [a] | _ => [] end) calls.

Inductive ContentOptionCall : Type :=
| CallContentText (text : string)
| CallContentBlob (blob : string)
| CallContentMimeType (mimeType : string)
| CallContentAnnotations (annotations : option Annotations).

Definition content_option (c : ContentOptionCall) : ResourceContentOption :=
  match c with
  | CallContentText text => WithContentText text
  | CallContentBlob blob => WithContentBlob blob
  | CallContentMimeType mimeType => WithContentMimeType mimeType
  | CallContentAnnotations annotations => WithContentAnnotations annotations
  end.

Definition content_texts (calls : list ContentOptionCall) : list string :=
  flat_map (fun c => match c with CallContentText t => [t] | _ => [] end) calls.

Definition content_blobs (calls : list ContentOptionCall) : list string :=
  flat_map (fun c => match c with CallContentBlob b => [b] | _ => [] end) calls.

Definition content_mimeTypes (calls : list ContentOptionCall) : list string :=
  flat_map (fun c => match c with CallContentMimeType m => [m] | _ => [] end) calls.

Definition content_annotations (calls : list ContentOptionCall) : list (option Annotations) :=
  flat_map (fun c => match c with CallContentAnnotations a => [a] | _ => [] end) calls.

(** The content that the calls describe for the URI: each field holds what
    the last call for it gave. *)
Definition content_of_calls (uri : string) (calls : list ContentOptionCall) : ResourceContent :=
  {| rc_URI := uri;
     rc_Text := lastOr (map Some (content_texts calls)) None;
     rc_Blob := lastOr (map Some (content_blobs calls)) None;
     rc_MimeType := lastOr (map Some (content_mimeTypes calls)) None;
     rc_Annotations := lastOr (content_annotations calls) None |}.

Inductive ResultOptionCall : Type :=
| CallResultTotal (total : Z)
| CallHasMore (hasMore : bool).

Definition result_option (c : ResultOptionCall) : CompleteResultOption :=
  match c with
  | CallResultTotal total => WithResultTotal total
  | CallHasMore hasMore => WithHasMore hasMore
  end.

Definition result_totals (calls : list ResultOptionCall) : list Z :=
  flat_map (fun c => match c with CallResultTotal t => [t] | _ => [] end) calls.

Definition result_hasMores (calls : list ResultOptionCall) : list bool :=
  flat_map (fun c => match c with CallHasMore b => [b] | _ => [] end) calls.

Inductive ArgumentOptionCall : Type :=
| CallArgumentDescription (description : string)
| CallArgumentRequired (required : bool).

Definition argument_option (c : ArgumentOptionCall) : PromptArgumentOption :=
  match c with
  | CallArgumentDescription description => WithArgumentDescription description
  | CallArgumentRequired required => WithArgumentRequired required
  end.

Inductive PromptOptionCall : Type :=
| CallPromptDescription (description : string)
| CallPromptArgument (name : string) (calls : list ArgumentOptionCall).

Definition prompt_option (c : PromptOptionCall) : PromptOption :=
  match c with
  | CallPromptDescription description => WithPromptDescription description
  | CallPromptArgument name calls => WithPromptArgument name (map argument_option calls)
  end.

(** The argument that a call of [WithPromptArgument] describes. *)
Definition argument_of_call (name : string) (calls : list ArgumentOptionCall) : PromptArgument :=
  {| pa_Name := name;
     pa_Description :=
       lastOr (map Some (flat_map (fun c => match c with
                                            | CallArgumentDescription d => [d]
                                            | _ => []
                                            end) calls)) None;
     pa_Required :=
       lastOr (map Some (flat_map (fun c => match c with
                                            | CallArgumentRequired r => [r]
                                            | _ => []
                                            end) calls)) None |}.

Definition prompt_descriptions (calls : list PromptOptionCall) : list string :=
  flat_map (fun c => match c with CallPromptDescription d => [d] | _ => [] end) calls.

Definition prompt_arguments (calls : list PromptOptionCall) : list PromptArgument :=
  flat_map (fun c => match c with
                     | CallPromptArgument name acalls => [argument_of_call name acalls]
                     | _ => []
                     end) calls.

Inductive ServerOptionCall : Type :=
| CallServerLogging
| CallServerPrompts (listChanged : bool)
| CallServerResources (subscribe listChanged : bool)
| CallServerTools (listChanged : bool).

Definition server_option (c : ServerOptionCall) : ServerCapabilityOption :=
  match c with
  | CallServerLogging => WithServerLogging
  | CallServerPrompts listChanged => WithServerPrompts listChanged
  | CallServerResources subscribe listChanged => WithServerResources subscribe listChanged
  | CallServerTools listChanged => WithServerTools listChanged
  end.

Inductive SchemaOptionCall : Type :=
| CallMinLength (min : Z)
| CallMaxLength (max : Z)
| CallPattern (pattern : string)
| CallNumberRange (min max : float64).

Definition schema_option (c : SchemaOptionCall) : SchemaOption :=
  match c with
  | CallMinLength min => WithMinLength min
  | CallMaxLength max => WithMaxLength max
  | CallPattern pattern => WithPattern pattern
  | CallNumberRange min max => WithNumberRange min max
  end.

(** ** Documents written by hand *)

(** The number token of an integer literal. *)
Definition int_token (n : Z) : json :=
  JNumber {| num_int := Some n; num_float := Some (float64_of_int n) |}.

(** An error object with the members code, message and data. *)
Definition error_doc (code : Z) (message : string) (data : json) : json :=
  JObject [("code", int_token code); ("message", JString message); ("data", data)].

Definition failure_doc (f : ValidationFailure) : json :=
  JObject [("field", JString (vf_Field f)); ("error", JString (vf_Error f))].

Definition validation_doc (failures : list ValidationFailure) : json :=
  JObject [("validation", JArray (map failure_doc failures))].

Definition tool_doc (toolName errorType details : string) : json :=
  JObject [("toolName", JString toolName); ("errorType", JString errorType);
           ("details", JString details)].

(** The member name [key] is that of no field of the [Content] codec. *)
Definition foreign_key (key : string) : bool :=
  negb (fieldMatch "type" key || fieldMatch "text" key || fieldMatch "annotations" key
        || fieldMatch "data" key || fieldMatch "mimeType" key || fieldMatch "uri" key
        || fieldMatch "blob" key).

(** What [MarshalJSON] needs of the annotations of a variant: a priority,
    when there is one, is finite. *)
Definition encodable_Annotations (a : option Annotations) : Prop :=
  match a with
  | Some a =>
      match ann_Priority a with
      | Some p => f64_finite p = true
      | None => True
      end
  | None => True
  end.

(** The annotations of the variant that the discriminator of [c] names. *)
Definition named_annotations (c : Content) : option Annotations :=
  if String.eqb (c_Type c) ContentTypeText then
    match c_TextContent c with Some t => tc_Annotations t | None => None end
  else if String.eqb (c_Type c) ContentTypeImage then
    match c_ImageContent c with Some i => ic_Annotations i | None => None end
  else if String.eqb (c_Type c) ContentTypeResource then
    match c_ResourceContent c with Some r => rc_Annotations r | None => None end
  else None.


(** The levels the package declares, in the order of the declaration. *)
Definition LoggingLevels : list LoggingLevel :=
  [LogLevelDebug; LogLevelInfo; LogLevelNotice; LogLevelWarning;
   LogLevelError; LogLevelCritical; LogLevelAlert; LogLevelEmergency].

(** What a constructor of log messages returns for a non-nil [data] and the
    options [WithLogger] of [names], once the level has been accepted. *)
Definition message_with_loggers {Any : Type} (level : LoggingLevel) (data : Any)
    (names : list string) : option (LoggingMessageNotification Any) * option error :=
  if existsb (fun name => String.eqb name "") names then
    (None, Some (Errorf "applying logging message option: %w"
                   [ArgError (Errorf "logger name cannot be empty" [])]))
  else
    (Some {| lmn_Method := "notifications/message";
             lmn_Params := {| lmp_Level := level; lmp_Data := Some data;
                              lmp_Logger := lastOr (map Some names) None |} |}, None).

(** A pointer to a [float64] that is nil or points into [0, 1], as the two
    comparisons of the validators decide it. *)
Definition unit_interval_or_nil (priority : option float64) : Prop :=
  match priority with
  | Some p => priority_out_of_range p = false
  | None => True
  end.

(** A pointer to an [IncludeContext] that is nil or one of the three
    constants. *)
Definition known_context_or_nil (ic : option IncludeContext) : Prop :=
  match ic with
  | Some ic =>
      ic = IncludeContextNone \/ ic = IncludeContextThisServer \/ ic = IncludeContextAllServers
  | None => True
  end.

(** A yield order that starts with the entries of key [name]. *)
Definition rangeFirst (name : string) (entries : list (string * option float64))
  : list (string * option float64) :=
  filter (fun e => String.eqb (fst e) name) entries
  ++ filter (fun e => negb (String.eqb (fst e) name)) entries.

(** [p] with its messages replaced. *)
Definition with_messages {Any : Type} (messages : list SamplingMessage)
    (p : CreateMessageParams Any) : CreateMessageParams Any :=
  {| cmp_Messages := messages;
     cmp_ModelPreferences := cmp_ModelPreferences p;
     cmp_SystemPrompt := cmp_SystemPrompt p;
     cmp_IncludeContext := cmp_IncludeContext p;
     cmp_Temperature := cmp_Temperature p;
     cmp_MaxTokens := cmp_MaxTokens p;
     cmp_StopSequences := cmp_StopSequences p;
     cmp_Metadata := cmp_Metadata p |}.

(** The three float comparisons that [NewProgressWithItems] reaches after its
    integer checks, through [NewProgressNotification] and
    [WithProgressTotal]: all three must be false. *)
Definition items_accepted (completed total : Z) : bool :=
  negb (f64_lt (items_percentage completed total) (float64_of_int 0))
  && negb (f64_le (float64_of_int total) (float64_of_int 0))
  && negb (f64_gt (items_percentage completed total) (float64_of_int total)).

(** [items_accepted] against integer arithmetic, for every total from 1 to
    [bound] and every count from 0 to the total. *)
Definition items_accepted_upto (bound : nat) : bool :=
  forallb (fun total =>
             forallb (fun completed =>
                        Bool.eqb (items_accepted (Z.of_nat completed) (Z.of_nat total))
                          (100 * Z.of_nat completed <=? Z.of_nat total * Z.of_nat total))
               (seq 0 (S total)))
    (seq 1 bound).

(** A total that [WithProgressTotal] accepts for [progress]. *)
Definition total_accepted (progress total : float64) : bool :=
  negb (f64_le total (float64_of_int 0)) && negb (f64_gt progress total).

(** [c] with the variants its discriminator does not name set to nil. *)
Definition only_named (c : Content) : Content :=
  {| c_Type := c_Type c;
     c_TextContent :=
       if String.eqb (c_Type c) ContentTypeText then c_TextContent c else None;
     c_ImageContent :=
       if String.eqb (c_Type c) ContentTypeImage then c_ImageContent c else None;
     c_ResourceContent :=
       if String.eqb (c_Type c) ContentTypeResource then c_ResourceContent c else None |}.

(** ** initialize: the options that build capabilities *)


(** [WithServerCapabilities], in the same way. *)
Definition WithServerCapabilities (opts : list ServerCapabilityOption)
  : InitializeResultOption := fun r =>
  match NewServerCapabilities opts with
  | (_, Some err) => (r, Some (Errorf "creating server capabilities: %w" [ArgError err]))
  | (Some caps, None) =>
      ({| ires_ProtocolVersion := ires_ProtocolVersion r; ires_ServerInfo := ires_ServerInfo r;
          ires_Capabilities := caps; ires_Instructions := ires_Instructions r |}, None)
  | (None, None) => (r, None)
  end.

Inductive ClientOptionCall : Type :=
| CallClientRoots (listChanged : bool)
| CallClientSampling.

Definition client_option (c : ClientOptionCall) : ClientCapabilityOption :=
  match c with
  | CallClientRoots listChanged => WithClientRoots listChanged
  | CallClientSampling => WithClientSampling
  end.

Definition server_loggings (calls : list ServerOptionCall) : list (option LoggingCapability) :=
  flat_map (fun c => match c with
                     | CallServerLogging => [Some Build_LoggingCapability]
                     | _ => []
                     end) calls.

Definition server_prompts (calls : list ServerOptionCall) : list (option PromptsCapability) :=
  flat_map (fun c => match c with
                     | CallServerPrompts listChanged =>
                         [Some {| prc_ListChanged := Some listChanged |}]
                     | _ => []
                     end) calls.

Definition server_resources (calls : list ServerOptionCall)
  : list (option ResourcesCapability) :=
  flat_map (fun c => match c with
                     | CallServerResources subscribe listChanged =>
                         [Some {| rsc_Subscribe := Some subscribe;
                                  rsc_ListChanged := Some listChanged |}]
                     | _ => []
                     end) calls.

Definition server_tools (calls : list ServerOptionCall) : list (option ToolsCapability) :=
  flat_map (fun c => match c with
                     | CallServerTools listChanged =>
                         [Some {| tlc_ListChanged := Some listChanged |}]
                     | _ => []
                     end) calls.

(** The capabilities that a list of server options describes: each field is
    what the last option for it built. *)
Definition server_capabilities_of (calls : list ServerOptionCall) : ServerCapabilities :=
  {| sc_Experimental := [];
     sc_Logging := lastOr (server_loggings calls) None;
     sc_Prompts := lastOr (server_prompts calls) None;
     sc_Resources := lastOr (server_resources calls) None;
     sc_Tools := lastOr (server_tools calls) None |}.

Definition client_roots (calls : list ClientOptionCall) : list (option RootsCapability) :=
  flat_map (fun c => match c with
                     | CallClientRoots listChanged =>
                         [Some {| roc_ListChanged := Some listChanged |}]
                     | _ => []
                     end) calls.

Definition client_samplings (calls : list ClientOptionCall)
  : list (option SamplingCapability) :=
  flat_map (fun c => match c with
                     | CallClientSampling => [Some Build_SamplingCapability]
                     | _ => []
                     end) calls.

Definition client_capabilities_of (calls : list ClientOptionCall) : ClientCapabilities :=
  {| cc_Experimental := [];
     cc_Roots := lastOr (client_roots calls) None;
     cc_Sampling := lastOr (client_samplings calls) None |}.









Definition schema_minLengths (calls : list SchemaOptionCall) : list (option Z) :=
  flat_map (fun c => match c with CallMinLength n => [Some n] | _ => [] end) calls.

Definition schema_maxLengths (calls : list SchemaOptionCall) : list (option Z) :=
  flat_map (fun c => match c with CallMaxLength n => [Some n] | _ => [] end) calls.

Definition schema_minimums (calls : list SchemaOptionCall) : list (option float64) :=
  flat_map (fun c => match c with CallNumberRange lo _ => [Some lo] | _ => [] end) calls.

Definition schema_maximums (calls : list SchemaOptionCall) : list (option float64) :=
  flat_map (fun c => match c with CallNumberRange _ hi => [Some hi] | _ => [] end) calls.

Definition schema_patterns (calls : list SchemaOptionCall) : list (option string) :=
  flat_map (fun c => match c with CallPattern p => [Some p] | _ => [] end) calls.

(** The schema that a list of schema options describes, from [StringSchema]. *)
Definition string_schema_of (calls : list SchemaOptionCall) : JSONSchema :=
  Build_JSONSchema TypeString [] [] None []
    (lastOr (schema_minLengths calls) None) (lastOr (schema_maxLengths calls) None)
    (lastOr (schema_minimums calls) None) (lastOr (schema_maximums calls) None)
    (lastOr (schema_patterns calls) None).

(** ** Values as they come back from the encoder *)

(** The audience that comes back: nil when the encoder omitted the member
    (a nil or an empty audience), else the roles as [json.Marshal] writes
    them. *)
Definition coerce_audience (audience : slice Role) : slice Role :=
  match elems audience with
  | [] => nil_slice
  | role :: rest => slice_of (map toValidUTF8 (role :: rest))
  end.

(** The value with every string replaced by the text [json.Marshal] writes
    for it (invalid UTF-8 replaced by U+FFFD) and an empty audience replaced
    by nil. *)
Definition coerce_Annotations (a : Annotations) : Annotations :=
  {| ann_Audience := coerce_audience (ann_Audience a); ann_Priority := ann_Priority a |}.

Definition coerce_TextContent (t : TextContent) : TextContent :=
  {| tc_Text := toValidUTF8 (tc_Text t);
     tc_Annotations := option_map coerce_Annotations (tc_Annotations t) |}.

Definition coerce_ImageContent (i : ImageContent) : ImageContent :=
  {| ic_Data := toValidUTF8 (ic_Data i);
     ic_MimeType := toValidUTF8 (ic_MimeType i);
     ic_Annotations := option_map coerce_Annotations (ic_Annotations i) |}.

Definition coerce_ResourceContent (r : ResourceContent) : ResourceContent :=
  {| rc_URI := toValidUTF8 (rc_URI r);
     rc_Text := option_map toValidUTF8 (rc_Text r);
     rc_Blob := option_map toValidUTF8 (rc_Blob r);
     rc_MimeType := option_map toValidUTF8 (rc_MimeType r);
     rc_Annotations := option_map coerce_Annotations (rc_Annotations r) |}.

Definition coerce_Content (c : Content) : Content :=
  {| c_Type := c_Type c;
     c_TextContent := option_map coerce_TextContent (c_TextContent c);
     c_ImageContent := option_map coerce_ImageContent (c_ImageContent c);
     c_ResourceContent := option_map coerce_ResourceContent (c_ResourceContent c) |}.

(** * Properties *)

(** ** The option loop *)

Lemma applyOptions_succeed {T : Type} (wrap : string) (opts : list (ConfigOption T)) (v v' : T) :
  OptionsSucceed opts v v' -> applyOptions wrap opts v = (v', None).
Proof.
  induction 1 as [v | opt rest v v1 v2 Hopt _ IH]; simpl.
  - reflexivity.
  - rewrite Hopt. exact IH.
Qed.

Lemma applyOptions_fails {T : Type} (wrap : string) (opts : list (ConfigOption T)) (v : T)
    (err : error) :
  OptionFails opts v err ->
  exists v', applyOptions wrap opts v = (v', Some (Errorf wrap [ArgError err])).
Proof.
  induction 1 as [opt rest v v1 err Hopt | opt rest v v1 err Hopt _ IH]; simpl.
  - rewrite Hopt. eauto.
  - rewrite Hopt. exact IH.
Qed.

Lemma applyOptions_nil_error {T : Type} (wrap : string) (opts : list (ConfigOption T)) (v v' : T) :
  applyOptions wrap opts v = (v', None) -> OptionsSucceed opts v v'.
Proof.
  revert v. induction opts as [| opt rest IH]; simpl; intros v H.
  - inversion H. constructor.
  - destruct (opt v) as [v1 [e |]] eqn:Hopt.
    + discriminate.
    + econstructor; eauto.
Qed.

Lemma applyOptions_some_error {T : Type} (wrap : string) (opts : list (ConfigOption T)) (v v' : T)
    (e : error) :
  applyOptions wrap opts v = (v', Some e) ->
  exists err, OptionFails opts v err /\ e = Errorf wrap [ArgError err].
Proof.
  revert v. induction opts as [| opt rest IH]; simpl; intros v H.
  - discriminate.
  - destruct (opt v) as [v1 [e1 |]] eqn:Hopt.
    + inversion H; subst. exists e1. split; [eapply fails_here; eauto | reflexivity].
    + destruct (IH _ H) as [err [Hf He]]. exists err. split; [eapply fails_later; eauto | exact He].
Qed.

Lemma construct_succeed {T : Type} (wrap : string) (opts : list (ConfigOption T)) (v v' : T) :
  OptionsSucceed opts v v' -> construct wrap opts v = (Some v', None).
Proof.
  intros H. unfold construct. rewrite (applyOptions_succeed wrap _ _ _ H). reflexivity.
Qed.

Lemma construct_fails {T : Type} (wrap : string) (opts : list (ConfigOption T)) (v : T)
    (err : error) :
  OptionFails opts v err -> construct wrap opts v = (None, Some (Errorf wrap [ArgError err])).
Proof.
  intros H. unfold construct. destruct (applyOptions_fails wrap _ _ _ H) as [v' Hv'].
  rewrite Hv'. reflexivity.
Qed.

Lemma construct_all_or_nothing {T : Type} (wrap : string) (opts : list (ConfigOption T)) (v : T) :
  all_or_nothing opts v (construct wrap opts v).
Proof.
  split.
  - intros err H. rewrite (construct_fails wrap _ _ _ H). eexists; reflexivity.
  - unfold construct. destruct (applyOptions wrap opts v) as [v' [e |]] eqn:Ha.
    + left. eexists; reflexivity.
    + right. exists v'. split; [reflexivity | eapply applyOptions_nil_error; eauto].
Qed.

Lemma failure_all_or_nothing {T : Type} (opts : list (ConfigOption T)) (v : T) (e : error) :
  all_or_nothing opts v (None, Some e).
Proof.
  split; [intros; eexists; reflexivity | left; eexists; reflexivity].
Qed.

(** ** Construction is all-or-nothing *)

(** Case analysis on the checks a constructor makes before its loop. *)
Ltac solve_all_or_nothing :=
  repeat match goal with
  | |- all_or_nothing _ _ (None, Some _) => apply failure_all_or_nothing
  | |- all_or_nothing _ _ (construct _ _ _) => apply construct_all_or_nothing
  | |- all_or_nothing _ _ (if ?b then _ else _) => destruct b
  | |- all_or_nothing _ _ (match ?x with _ => _ end) => destruct x
  end.

Lemma NewResourceContent_all_or_nothing (uri : string) (opts : list ResourceContentOption) :
  all_or_nothing opts (ResourceContent_init uri) (NewResourceContent uri opts).
Proof.
  unfold NewResourceContent. destruct (String.eqb uri "").
  - apply failure_all_or_nothing.
  - split.
    + intros err H.
      destruct (applyOptions_fails "applying content option: %w" _ _ _ H) as [v' Hv'].
      rewrite Hv'. eexists; reflexivity.
    + destruct (applyOptions _ opts _) as [rc [e |]] eqn:Ha.
      * left. eexists; reflexivity.
      * destruct (_ || _).
        -- left. eexists; reflexivity.
        -- right. exists rc. split; [reflexivity | eapply applyOptions_nil_error; eauto].
Qed.

(** C6. Every constructor of the package that takes a list of options
    (NewCompleteRequest, NewCompleteResult, NewProgressNotification,
    NewLoggingMessage, NewSetLevelRequest, NewResource, NewResourceTemplate,
    NewResourceContent, NewPrompt, NewServerCapabilities,
    NewClientCapabilities, NewInitializeRequest, NewInitializeResult) is
    all-or-nothing: if an option returns an error when its turn comes, the
    constructor returns an error and a nil value; and whatever the arguments,
    the constructor returns either an error with a nil value, or a nil error
    with the value on which every option has succeeded.  No value on which
    only some of the options ran is returned. *)
Theorem constructors_all_or_nothing :
  (forall ref argName argValue opts,
      all_or_nothing opts (CompleteRequest_init ref argName argValue)
        (NewCompleteRequest ref argName argValue opts))
  /\ (forall token progress opts,
      all_or_nothing opts (ProgressNotification_init token progress)
        (NewProgressNotification token progress opts))
  /\ (forall (Any : Type) level (data : option Any) opts,
      all_or_nothing opts (LoggingMessage_init level data)
        (NewLoggingMessage level data opts))
  /\ (forall values opts,
      all_or_nothing opts (CompleteResult_init values) (NewCompleteResult values opts))
  /\ (forall level opts,
      all_or_nothing opts (SetLevelRequest_init level) (NewSetLevelRequest level opts))
  /\ (forall uri name opts,
      all_or_nothing opts (Resource_init uri name) (NewResource uri name opts))
  /\ (forall name uriTemplate opts,
      all_or_nothing opts (ResourceTemplate_init name uriTemplate)
        (NewResourceTemplate name uriTemplate opts))
  /\ (forall uri opts,
      all_or_nothing opts (ResourceContent_init uri) (NewResourceContent uri opts))
  /\ (forall name opts, all_or_nothing opts (Prompt_init name) (NewPrompt name opts))
  /\ (forall opts, all_or_nothing opts ServerCapabilities_init (NewServerCapabilities opts))
  /\ (forall opts, all_or_nothing opts ClientCapabilities_init (NewClientCapabilities opts))
  /\ (forall latest clientInfo opts,
      all_or_nothing opts (InitializeRequest_init latest clientInfo)
        (NewInitializeRequest latest clientInfo opts))
  /\ (forall latest serverInfo opts,
      all_or_nothing opts (InitializeResult_init latest serverInfo)
        (NewInitializeResult latest serverInfo opts)).
Proof.
  repeat match goal with |- _ /\ _ => split end; intros;
    try apply NewResourceContent_all_or_nothing;
    unfold NewCompleteRequest, NewProgressNotification, NewLoggingMessage, NewCompleteResult,
      NewSetLevelRequest, NewResource, NewResourceTemplate, NewPrompt, NewServerCapabilities,
      NewClientCapabilities, NewInitializeRequest, NewInitializeResult;
    solve_all_or_nothing.
Qed.

Lemma constructors_all_or_nothing_witness :
  is_failure (NewLoggingMessage (Any := unit) "info" (Some tt) [WithLogger "db"; WithLogger ""])
  /\ is_failure (NewProgressNotification 1 (float64_of_int 50)
                   [WithProgressTotal (float64_of_int 2)]).
Proof.
  split.
  - apply (proj1 (proj1 (proj2 (proj2 constructors_all_or_nothing))
                    unit "info" (Some tt) [WithLogger "db"; WithLogger ""])
             (Errorf "logger name cannot be empty" [])).
    eapply fails_later; [reflexivity |]. eapply fails_here. reflexivity.
  - apply (proj1 (proj1 (proj2 constructors_all_or_nothing)
                    1 (float64_of_int 50) [WithProgressTotal (float64_of_int 2)])
             (Errorf "progress (%f) cannot exceed total (%f)"
                [ArgFloat (float64_of_int 50); ArgFloat (float64_of_int 2)])).
    eapply fails_here. vm_compute. reflexivity.
Defined.

(** ** Completion results: the ceiling of 100 values and the total *)

(** C7. NewCompleteResult returns an error for every list of 101 or more
    values, whatever the options; it succeeds for a list of exactly 100
    values (with no option, returning the result that holds exactly these
    values, and with any options that all return nil); WithResultTotal(total)
    returns an error exactly when total is less than the number of values
    already in the result, and otherwise records the total. *)
Theorem NewCompleteResult_ceiling_and_total :
  (forall values opts,
      101 <= len values ->
      NewCompleteResult values opts
      = (None, Some (Errorf "completion values cannot exceed 100 items" [])))
  /\ (forall values,
      len values = 100 ->
      NewCompleteResult values [] = (Some (CompleteResult_init values), None))
  /\ (forall values opts r,
      len values = 100 ->
      OptionsSucceed opts (CompleteResult_init values) r ->
      NewCompleteResult values opts = (Some r, None))
  /\ (forall total r,
      (total < len (ci_Values (cres_Completion r)) ->
       exists err, WithResultTotal total r = (r, Some err))
      /\ (len (ci_Values (cres_Completion r)) <= total ->
          snd (WithResultTotal total r) = None
          /\ ci_Total (cres_Completion (fst (WithResultTotal total r))) = Some total
          /\ ci_Values (cres_Completion (fst (WithResultTotal total r)))
             = ci_Values (cres_Completion r))).
Proof.
  repeat match goal with |- _ /\ _ => split end.
  - intros values opts H. unfold NewCompleteResult.
    destruct (len values >? 100) eqn:E; [reflexivity | lia].
  - intros values H. unfold NewCompleteResult. rewrite H. reflexivity.
  - intros values opts r H Hs. unfold NewCompleteResult. rewrite H. simpl.
    apply construct_succeed. exact Hs.
  - intros total r. unfold WithResultTotal.
    destruct (total <? len _) eqn:E; split; intros H; try lia.
    + eexists; reflexivity.
    + simpl; auto.
Qed.

Lemma NewCompleteResult_ceiling_and_total_witness :
  NewCompleteResult (repeat "v" 101) [WithHasMore true]
  = (None, Some (Errorf "completion values cannot exceed 100 items" []))
  /\ NewCompleteResult (repeat "v" 100) []
     = (Some (CompleteResult_init (repeat "v" 100)), None)
  /\ NewCompleteResult (repeat "v" 100) [WithResultTotal 150; WithHasMore true]
     = (Some {| cres_Completion := {| ci_Values := repeat "v" 100; ci_Total := Some 150;
                                      ci_HasMore := Some true |} |}, None)
  /\ (exists err, WithResultTotal 2 (CompleteResult_init ["a"; "b"; "c"])
                  = (CompleteResult_init ["a"; "b"; "c"], Some err))
  /\ snd (WithResultTotal 3 (CompleteResult_init ["a"; "b"; "c"])) = None.
Proof.
  destruct NewCompleteResult_ceiling_and_total as [H101 [H100 [Hopts Htotal]]].
  split; [| split; [| split; [| split]]].
  - apply H101. vm_compute. discriminate.
  - apply H100. reflexivity.
  - apply Hopts; [reflexivity |].
    econstructor; [reflexivity |]. econstructor; [reflexivity |]. constructor.
  - apply (proj1 (Htotal 2 (CompleteResult_init ["a"; "b"; "c"]))). reflexivity.
  - apply (proj2 (Htotal 3 (CompleteResult_init ["a"; "b"; "c"]))). vm_compute. discriminate.
Defined.

(** ** Comparisons of [float64] *)

Lemma SFcompare_antisym (a b : float64) :
  SFcompare b a = match SFcompare a b with Some c => Some (CompOpp c) | None => None end.
Proof.
  destruct a as [sa | sa | | sa ma ea], b as [sb | sb | | sb mb eb]; simpl;
    try reflexivity;
    try (destruct sa; reflexivity); try (destruct sb; reflexivity);
    try (destruct sa, sb; reflexivity).
  rewrite (Z.compare_antisym ea eb).
  change (PosDef.Pos.compare_cont Eq mb ma) with (Pos.compare mb ma).
  change (PosDef.Pos.compare_cont Eq ma mb) with (Pos.compare ma mb).
  rewrite (Pos.compare_antisym ma mb).
  destruct sa, sb; simpl; try reflexivity;
    destruct (ea ?= eb); simpl; try reflexivity;
    destruct (ma ?= mb)%positive; reflexivity.
Qed.

(** [a <= b] excludes [b < a]. *)
Lemma f64_le_not_gt (a b : float64) : f64_le a b = true -> f64_lt b a = false.
Proof.
  unfold f64_le, f64_lt, SFleb, SFltb. rewrite (SFcompare_antisym a b).
  destruct (SFcompare a b) as [[| |] |]; simpl; congruence.
Qed.

(** [a < b] excludes [b < a] and [b <= a]. *)
Lemma f64_lt_not_ge (a b : float64) : f64_lt a b = true -> f64_le b a = false.
Proof.
  unfold f64_le, f64_lt, SFleb, SFltb. rewrite (SFcompare_antisym a b).
  destruct (SFcompare a b) as [[| |] |]; simpl; congruence.
Qed.

(** ** Progress notifications *)

(** C8. NewProgressNotification returns an error for every negative progress
    value (progress < 0), whatever the options; for every non-negative one
    (0 <= progress) it succeeds when no option fails, returning the
    notification the options have configured; and WithProgressTotal(total)
    applied to a notification returns an error, leaving the notification as
    it was, whenever total is less than the notification's progress. *)
Theorem NewProgressNotification_sign_and_total :
  (forall token progress opts,
      f64_lt progress (float64_of_int 0) = true ->
      NewProgressNotification token progress opts
      = (None, Some (Errorf "progress cannot be negative" [])))
  /\ (forall token progress opts n,
      f64_le (float64_of_int 0) progress = true ->
      OptionsSucceed opts (ProgressNotification_init token progress) n ->
      NewProgressNotification token progress opts = (Some n, None))
  /\ (forall total n,
      f64_lt total (pp_Progress (pn_Params n)) = true ->
      exists err, WithProgressTotal total n = (n, Some err)).
Proof.
  split; [| split].
  - intros token progress opts H. unfold NewProgressNotification. rewrite H. reflexivity.
  - intros token progress opts n H Hs. unfold NewProgressNotification.
    rewrite (f64_le_not_gt _ _ H). apply construct_succeed. exact Hs.
  - intros total n H. unfold WithProgressTotal, f64_gt.
    fold (f64_lt total (pp_Progress (pn_Params n))). rewrite H.
    destruct (f64_le total (float64_of_int 0)); eexists; reflexivity.
Qed.

Lemma NewProgressNotification_sign_and_total_witness :
  NewProgressNotification 7 (float64_of_int (-1)) []
  = (None, Some (Errorf "progress cannot be negative" []))
  /\ NewProgressNotification 7 (float64_of_int 0) []
     = (Some (ProgressNotification_init 7 (float64_of_int 0)), None)
  /\ (exists err,
         WithProgressTotal (float64_of_int 10) (ProgressNotification_init 7 (float64_of_int 50))
         = (ProgressNotification_init 7 (float64_of_int 50), Some err)).
Proof.
  destruct NewProgressNotification_sign_and_total as [Hneg [Hnonneg Htotal]].
  split; [| split].
  - apply Hneg. vm_compute. reflexivity.
  - apply Hnonneg; [vm_compute; reflexivity | constructor].
  - apply Htotal. vm_compute. reflexivity.
Defined.

(** [NewProgressStart] and [NewProgressComplete] always succeed. *)
Example NewProgressStart_Complete_ok (token : ProgressToken) :
  NewProgressStart token = (Some (ProgressNotification_init token (float64_of_int 0)), None)
  /\ NewProgressComplete token
     = (Some (ProgressNotification_init token (float64_of_int 100)), None).
Proof. split; reflexivity. Qed.



(** The stages of the package's own usage example, 0 to 4 items out of 4:
    only the first passes the check of the total (0 <= 4); the four others
    give 25, 50, 75 and 100, which exceed 4.  With 75 items out of 100 the
    call succeeds. *)
Example NewProgressWithItems_usage_example :
  fst (NewProgressWithItems 123 0 4) <> None
  /\ is_failure (NewProgressWithItems 123 1 4)
  /\ is_failure (NewProgressWithItems 123 2 4)
  /\ is_failure (NewProgressWithItems 123 3 4)
  /\ is_failure (NewProgressWithItems 123 4 4)
  /\ fst (NewProgressWithItems 1 75 100) <> None.
Proof.
  split; [| split; [| split; [| split; [| split]]]];
    first [ vm_compute; discriminate | eexists; vm_compute; reflexivity ].
Qed.

(** For every total up to 60 and every count of completed items up to the
    total, the percentage lies between 0 and 100. *)
Example items_percentage_range_small :
  forallb (fun total =>
             forallb (fun completed =>
                        f64_le (float64_of_int 0)
                          (items_percentage (Z.of_nat completed) (Z.of_nat total))
                        && f64_le (items_percentage (Z.of_nat completed) (Z.of_nat total))
                             (float64_of_int 100))
               (seq 0 (S total)))
    (seq 1 60)
  = true.
Proof. vm_compute. reflexivity. Qed.

(** ** References *)

Lemma eqb_empty_false (s : string) : s <> "" -> String.eqb s "" = false.
Proof. intros H. apply String.eqb_neq. exact H. Qed.

(** C9. validateReference accepts a reference exactly when it is a prompt
    reference (type ref/prompt) with a non-empty name and no URI, or a
    resource reference (type ref/resource) with a non-empty URI and no name.
    So a prompt reference that also sets a URI is rejected, symmetrically a
    resource reference that also sets a name, and so is any other type. *)
Theorem validateReference_accepts_iff :
  forall ref : Reference,
    validateReference ref = None
    <-> (ref_Type ref = "ref/prompt"
         /\ (exists name, ref_Name ref = Some name /\ name <> "")
         /\ ref_URI ref = None)
        \/ (ref_Type ref = "ref/resource"
            /\ (exists uri, ref_URI ref = Some uri /\ uri <> "")
            /\ ref_Name ref = None).
Proof.
  intros [ty name uri]. unfold validateReference. simpl. split.
  - destruct (String.eqb ty "ref/prompt") eqn:Ep.
    + apply String.eqb_eq in Ep. intros H. left. split; [exact Ep |].
      destruct name as [n |]; [| discriminate].
      destruct (String.eqb n "") eqn:En; [discriminate |].
      destruct uri; [discriminate |].
      split; [| reflexivity]. exists n. split; [reflexivity |].
      apply String.eqb_neq. exact En.
    + destruct (String.eqb ty "ref/resource") eqn:Er; [| discriminate].
      apply String.eqb_eq in Er. intros H. right. split; [exact Er |].
      destruct uri as [u |]; [| discriminate].
      destruct (String.eqb u "") eqn:Eu; [discriminate |].
      destruct name; [discriminate |].
      split; [| reflexivity]. exists u. split; [reflexivity |].
      apply String.eqb_neq. exact Eu.
  - intros [[Ht [[n [Hn Hne]] Hu]] | [Ht [[u [Hu Hne]] Hn]]]; simpl in *; subst; simpl;
      rewrite (eqb_empty_false _ Hne); reflexivity.
Qed.

(** The references the package builds, and two that it rejects. *)
Example validateReference_examples :
  validateReference (NewPromptReference "generateCode") = None
  /\ validateReference (NewResourceReference "file:///configs/{env}") = None
  /\ validateReference {| ref_Type := "ref/prompt"; ref_Name := Some "p"; ref_URI := Some "u" |}
     = Some (Errorf "prompt reference should not have URI" [])
  /\ validateReference {| ref_Type := "ref/resource"; ref_Name := Some "p"; ref_URI := Some "u" |}
     = Some (Errorf "resource reference should not have name" [])
  /\ validateReference (NewPromptReference "")
     = Some (Errorf "prompt reference requires name" [])
  /\ validateReference {| ref_Type := "ref/tool"; ref_Name := Some "p"; ref_URI := None |}
     = Some (Errorf "invalid reference type: %s" [ArgString "ref/tool"]).
Proof. repeat split. Qed.

(** ** Resource content: exactly one of text and blob *)

Lemma isSome_true {A : Type} (p : option A) : isSome p = true <-> p <> None.
Proof. destruct p; simpl; split; congruence. Qed.

Lemma isSome_false {A : Type} (p : option A) : isSome p = false <-> p = None.
Proof. destruct p; simpl; split; congruence. Qed.

(** C5 as stated does not hold for every URI: the option list
    [WithContentText "a"] sets the text and not the blob, and with it the
    constructor succeeds for the URI "u" and fails for the empty URI. *)
Lemma NewResourceContent_empty_uri_fails :
  OptionsSucceed [WithContentText "a"] (ResourceContent_init "")
    {| rc_URI := ""; rc_Text := Some "a"; rc_Blob := None; rc_MimeType := None;
       rc_Annotations := None |}
  /\ NewResourceContent "" [WithContentText "a"]
     = (None, Some (Errorf "resource URI cannot be empty" []))
  /\ NewResourceContent "u" [WithContentText "a"]
     = (Some {| rc_URI := "u"; rc_Text := Some "a"; rc_Blob := None; rc_MimeType := None;
                rc_Annotations := None |}, None).
Proof.
  split; [| split; reflexivity].
  econstructor; [reflexivity | constructor].
Qed.

(** C5, amended. For every non-empty URI and every option list whose options
    all return nil, leaving the content [rc]: NewResourceContent returns an
    error when both text and blob are set in [rc], returns an error when
    neither is set, and succeeds (returning [rc]) exactly when one of them is
    set.  The check is made by the constructor: whatever the URI and the
    options, a ResourceContent that NewResourceContent returns has exactly
    one of text and blob set (and a non-empty URI was given); with the empty
    URI the constructor returns an error whatever the options. *)
Theorem NewResourceContent_exactly_one :
  (forall uri opts rc,
      uri <> "" ->
      OptionsSucceed opts (ResourceContent_init uri) rc ->
      (rc_Text rc <> None /\ rc_Blob rc <> None ->
       NewResourceContent uri opts
       = (None, Some (Errorf "exactly one of text or blob must be set" [])))
      /\ (rc_Text rc = None /\ rc_Blob rc = None ->
          NewResourceContent uri opts
          = (None, Some (Errorf "exactly one of text or blob must be set" [])))
      /\ (NewResourceContent uri opts = (Some rc, None) <-> exactly_one_body rc))
  /\ (forall uri opts rc err,
      NewResourceContent uri opts = (Some rc, err) ->
      err = None /\ exactly_one_body rc /\ uri <> ""
      /\ OptionsSucceed opts (ResourceContent_init uri) rc)
  /\ (forall opts,
      NewResourceContent "" opts = (None, Some (Errorf "resource URI cannot be empty" []))).
Proof.
  split; [| split; [| reflexivity]].
  - intros uri opts rc Huri Hs. unfold NewResourceContent.
    rewrite (eqb_empty_false _ Huri).
    rewrite (applyOptions_succeed "applying content option: %w" _ _ _ Hs).
    unfold exactly_one_body.
    destruct (rc_Text rc) as [t |], (rc_Blob rc) as [b |]; simpl;
      (split; [| split; [| split]]); intros; try reflexivity;
      repeat match goal with
             | H : _ /\ _ |- _ => destruct H
             | H : _ \/ _ |- _ => destruct H
             end; try congruence.
    + left. split; congruence.
    + right. split; congruence.
  - intros uri opts rc err. unfold NewResourceContent.
    destruct (String.eqb uri "") eqn:Eu; [discriminate |].
    destruct (applyOptions _ opts _) as [rc' [e |]] eqn:Ha; [discriminate |].
    destruct (isSome (rc_Text rc')) eqn:Et, (isSome (rc_Blob rc')) eqn:Eb; simpl;
      intros H; inversion H; subst; clear H;
      (split; [reflexivity |]);
      (split; [| split; [apply String.eqb_neq; exact Eu
                        | eapply applyOptions_nil_error; eauto]]).
    + left. split; [apply isSome_true | apply isSome_false]; assumption.
    + right. split; [apply isSome_false | apply isSome_true]; assumption.
Qed.

Lemma NewResourceContent_exactly_one_witness :
  NewResourceContent "file:///path/to/config.yaml"
    [WithContentText "key: value"; WithContentMimeType "application/yaml"]
  = (Some {| rc_URI := "file:///path/to/config.yaml"; rc_Text := Some "key: value";
             rc_Blob := None; rc_MimeType := Some "application/yaml";
             rc_Annotations := None |}, None)
  /\ NewResourceContent "u" [WithContentMimeType "text/plain"]
     = (None, Some (Errorf "exactly one of text or blob must be set" []))
  /\ NewResourceContent "u"
       [fun rc => ({| rc_URI := rc_URI rc; rc_Text := Some "a"; rc_Blob := Some "b";
                      rc_MimeType := rc_MimeType rc;
                      rc_Annotations := rc_Annotations rc |}, None)]
     = (None, Some (Errorf "exactly one of text or blob must be set" []))
  /\ exactly_one_body
       {| rc_URI := "u"; rc_Text := None; rc_Blob := Some "aGk="; rc_MimeType := None;
          rc_Annotations := None |}.
Proof.
  destruct NewResourceContent_exactly_one as [Hcheck [Hbuilt _]].
  split; [| split; [| split]].
  - apply (Hcheck "file:///path/to/config.yaml"
             [WithContentText "key: value"; WithContentMimeType "application/yaml"]).
    + discriminate.
    + econstructor; [reflexivity |]. econstructor; [reflexivity |]. constructor.
    + left. split; [discriminate | reflexivity].
  - refine (proj1 (proj2 (Hcheck "u" [WithContentMimeType "text/plain"] _ _ _)) _).
    + discriminate.
    + econstructor; [reflexivity |]. constructor.
    + split; reflexivity.
  - refine (proj1 (Hcheck "u" [_] _ _ _) _).
    + discriminate.
    + econstructor; [reflexivity |]. constructor.
    + split; discriminate.
  - apply (Hbuilt "u" [WithContentBlob "aGk="] _ None). reflexivity.
Defined.

(** ** Annotations *)

Lemma validateAudience_known (audience : list Role) :
  (forall role, In role audience -> known_role role) -> validateAudience audience = None.
Proof.
  induction audience as [| role rest IH]; simpl; intros H; [reflexivity |].
  destruct (H role (or_introl eq_refl)) as [E | E]; rewrite E; simpl;
    apply IH; intros r Hr; apply H; right; exact Hr.
Qed.

Lemma validateAudience_unknown (audience : list Role) (role : Role) :
  In role audience -> ~ known_role role ->
  exists other, validateAudience audience
                = Some (Errorf "invalid role in audience: %s" [ArgString other])
                /\ In other audience /\ ~ known_role other.
Proof.
  induction audience as [| r rest IH]; simpl; intros Hin Hbad; [contradiction |].
  destruct (String.eqb r RoleUser || String.eqb r RoleAssistant) eqn:E.
  - destruct Hin as [-> | Hin].
    + exfalso. apply Hbad. apply orb_true_iff in E.
      destruct E as [E | E]; apply String.eqb_eq in E; [left | right]; exact E.
    + destruct (IH Hin Hbad) as [other [Hv [Ho Hk]]]. exists other. auto.
  - exists r. split; [reflexivity |]. split; [left; reflexivity |].
    apply orb_false_iff in E. destruct E as [E1 E2].
    apply String.eqb_neq in E1, E2. intros [K | K]; contradiction.
Qed.

Lemma len_pos_of_In {A : Type} (x : A) (l : list A) : In x l -> (len l >? 0) = true.
Proof.
  destruct l; simpl; [contradiction |]. intros _.
  apply Z.gtb_lt. unfold len. cbn [List.length]. lia.
Qed.

(** C4 as stated does not hold for the constructors: NewTextContent returns
    a content with annotations that Validate rejects (priority 1.5, audience
    role "robot"). *)
Lemma NewTextContent_keeps_invalid_annotations :
  Annotations_Validate
    (Some {| ann_Audience := slice_of ["robot"]; ann_Priority := Some f64_one_and_a_half |})
  = Some (Errorf "priority must be between 0 and 1, got %f" [ArgFloat f64_one_and_a_half])
  /\ Annotations_Validate (Some {| ann_Audience := slice_of ["robot"]; ann_Priority := None |})
     = Some (Errorf "invalid role in audience: %s" [ArgString "robot"])
  /\ NewTextContent "hi"
       (Some {| ann_Audience := slice_of ["robot"]; ann_Priority := Some f64_one_and_a_half |})
     = {| c_Type := "text";
          c_TextContent :=
            Some {| tc_Text := "hi";
                    tc_Annotations :=
                      Some {| ann_Audience := slice_of ["robot"];
                              ann_Priority := Some f64_one_and_a_half |} |};
          c_ImageContent := None;
          c_ResourceContent := None |}.
Proof. repeat split. Qed.

(** C4, amended. Validation of annotations is the method Validate, which
    NewTextContent and NewImageContent do not call.  Validate rejects,
    without changing any value, every Annotations whose priority p has p < 0
    or p > 1, and every Annotations whose audience holds a role other than
    user and assistant;
    it accepts every Annotations whose roles are all user or assistant and
    whose priority is absent or has 0 <= p <= 1, so 0.0 and 1.0 are accepted
    and 1.5 is rejected.  NewTextContent and NewImageContent take any
    annotations, valid or not, and return a content that carries them
    unchanged; they have no error result. *)
Theorem Annotations_Validate_range_and_roles :
  (forall a p,
      ann_Priority a = Some p ->
      f64_lt p (float64_of_int 0) = true \/ f64_gt p (float64_of_int 1) = true ->
      Annotations_Validate (Some a)
      = Some (Errorf "priority must be between 0 and 1, got %f" [ArgFloat p]))
  /\ (forall a role,
      In role (elems (ann_Audience a)) -> ~ known_role role ->
      exists err, Annotations_Validate (Some a) = Some err)
  /\ (forall a,
      (forall role, In role (elems (ann_Audience a)) -> known_role role) ->
      (ann_Priority a = None
       \/ exists p, ann_Priority a = Some p
                    /\ f64_le (float64_of_int 0) p = true
                    /\ f64_le p (float64_of_int 1) = true) ->
      Annotations_Validate (Some a) = None)
  /\ (forall audience,
      (forall role, In role (elems audience) -> known_role role) ->
      Annotations_Validate
        (Some {| ann_Audience := audience; ann_Priority := Some (float64_of_int 0) |}) = None
      /\ Annotations_Validate
           (Some {| ann_Audience := audience; ann_Priority := Some (float64_of_int 1) |}) = None)
  /\ (forall audience,
      Annotations_Validate
        (Some {| ann_Audience := audience; ann_Priority := Some f64_one_and_a_half |})
      = Some (Errorf "priority must be between 0 and 1, got %f" [ArgFloat f64_one_and_a_half]))
  /\ (forall text annotations,
      c_TextContent (NewTextContent text annotations)
      = Some {| tc_Text := text; tc_Annotations := annotations |})
  /\ (forall data mimeType annotations,
      c_ImageContent (NewImageContent data mimeType annotations)
      = Some {| ic_Data := data; ic_MimeType := mimeType; ic_Annotations := annotations |}).
Proof.
  assert (Haccept : forall a,
      (forall role, In role (elems (ann_Audience a)) -> known_role role) ->
      (ann_Priority a = None
       \/ exists p, ann_Priority a = Some p
                    /\ f64_le (float64_of_int 0) p = true
                    /\ f64_le p (float64_of_int 1) = true) ->
      Annotations_Validate (Some a) = None).
  { intros a Hroles Hp. unfold Annotations_Validate.
    assert (Hv : validatePriority (ann_Priority a) = None).
    { destruct Hp as [-> | [p [-> [H0 H1]]]]; [reflexivity |].
      unfold validatePriority, priority_out_of_range, f64_gt.
      fold (f64_lt (float64_of_int 1) p).
      rewrite (f64_le_not_gt _ _ H0), (f64_le_not_gt _ _ H1). reflexivity. }
    rewrite Hv. rewrite (validateAudience_known _ Hroles).
    destruct (len (elems (ann_Audience a)) >? 0); reflexivity. }
  split; [| split; [| split; [exact Haccept | split; [| split; [| split]]]]].
  - intros a p Hp Hout. unfold Annotations_Validate, validatePriority, priority_out_of_range.
    rewrite Hp. destruct Hout as [H | H]; rewrite H; [| rewrite orb_true_r]; reflexivity.
  - intros a role Hin Hbad. unfold Annotations_Validate.
    destruct (validatePriority (ann_Priority a)) as [e |]; [eexists; reflexivity |].
    rewrite (len_pos_of_In _ _ Hin).
    destruct (validateAudience_unknown _ _ Hin Hbad) as [other [Hv _]].
    rewrite Hv. eexists; reflexivity.
  - intros audience Hroles. split; apply Haccept; simpl; try exact Hroles;
      right; eexists; (split; [reflexivity |]); split; vm_compute; reflexivity.
  - intros audience. reflexivity.
  - reflexivity.
  - reflexivity.
Qed.

Lemma Annotations_Validate_range_and_roles_witness :
  Annotations_Validate
    (Some {| ann_Audience := slice_of [RoleAssistant];
             ann_Priority := Some (f64_div (float64_of_int 8) (float64_of_int 10)) |}) = None
  /\ (exists err,
         Annotations_Validate
           (Some {| ann_Audience := slice_of [RoleUser; "robot"]; ann_Priority := None |}) = Some err)
  /\ Annotations_Validate
       (Some {| ann_Audience := nil_slice; ann_Priority := Some (float64_of_int (-1)) |})
     = Some (Errorf "priority must be between 0 and 1, got %f" [ArgFloat (float64_of_int (-1))])
  /\ Annotations_Validate
       (Some {| ann_Audience := slice_of [RoleUser]; ann_Priority := Some (float64_of_int 0) |}) = None
  /\ Annotations_Validate
       (Some {| ann_Audience := slice_of [RoleUser]; ann_Priority := Some (float64_of_int 1) |}) = None.
Proof.
  destruct Annotations_Validate_range_and_roles as [Hrange [Hrole [Haccept [Hbounds _]]]].
  assert (Huser : forall role, In role [RoleUser] -> known_role role).
  { intros role [<- | []]. left. reflexivity. }
  split; [| split; [| split; [| split]]].
  - apply Haccept; simpl.
    + intros role [<- | []]. right. reflexivity.
    + right. eexists. split; [reflexivity |]. split; vm_compute; reflexivity.
  - apply (Hrole _ "robot"); simpl.
    + right. left. reflexivity.
    + intros [K | K]; discriminate K.
  - apply Hrange; [reflexivity |]. left. vm_compute. reflexivity.
  - exact (proj1 (Hbounds (slice_of [RoleUser]) Huser)).
  - exact (proj2 (Hbounds (slice_of [RoleUser]) Huser)).
Defined.

(** ** The codec of [Content] *)

Lemma toValidUTF8_valid_bounded (n : nat) :
  forall s, (String.length s <= n)%nat -> utf8_valid s = true -> toValidUTF8 s = s.
Proof.
  induction n as [| n IH]; intros s Hlen Hv.
  - destruct s; [reflexivity | simpl in Hlen; lia].
  - destruct s as [| b0 r0]; [reflexivity |].
    simpl in Hlen. simpl in Hv |- *.
    destruct (byte_in 0 127 b0).
    { f_equal. apply IH; [lia | exact Hv]. }
    destruct r0 as [| b1 r1]; [discriminate |].
    simpl in Hlen.
    destruct (utf8_two b0 b1).
    { do 2 f_equal. apply IH; [lia | exact Hv]. }
    destruct r1 as [| b2 r2]; [discriminate |].
    simpl in Hlen.
    destruct (utf8_three b0 b1 b2).
    { do 3 f_equal. apply IH; [lia | exact Hv]. }
    destruct r2 as [| b3 r3]; [discriminate |].
    simpl in Hlen.
    apply andb_true_iff in Hv. destruct Hv as [H4 Hv]. rewrite H4.
    do 4 f_equal. apply IH; [lia | exact Hv].
Qed.

(** [json.Marshal] writes UTF-8 text as it is. *)
Lemma marshal_string_wire (s : string) : wire_string s -> marshal_string s = JString s.
Proof.
  intros H. unfold marshal_string. f_equal.
  apply (toValidUTF8_valid_bounded (String.length s)); [lia | exact H].
Qed.

Lemma map_marshal_string_wire (l : list string) :
  Forall wire_string l -> map marshal_string l = map JString l.
Proof.
  induction 1 as [| s l Hs _ IH]; simpl; [reflexivity |].
  rewrite (marshal_string_wire s Hs), IH. reflexivity.
Qed.

Lemma unmarshal_elems_strings (l old : list string) :
  unmarshal_elems unmarshal_string "" old (map JString l) = Ok l.
Proof.
  revert old. induction l as [| s l IH]; intros old; simpl; [reflexivity |].
  rewrite IH. reflexivity.
Qed.

Lemma marshal_Annotations_roundtrip (a : Annotations) :
  wire_Annotations (Some a) ->
  exists members,
    marshal_Annotations a = Ok (JObject members)
    /\ unmarshal_members Annotations_field members Annotations_zero = Ok a.
Proof.
  destruct a as [audience priority]. intros [Haud [Hne Hpri]].
  cbn [ann_Audience ann_Priority] in Haud, Hne, Hpri.
  unfold marshal_Annotations. cbn [ann_Audience ann_Priority].
  rewrite (map_marshal_string_wire _ Haud).
  assert (Hdec : forall old l, unmarshal_elems unmarshal_string "" old (map JString l) = Ok l)
    by (intros; apply unmarshal_elems_strings).
  destruct audience as [| [| r rest]]; [| exfalso; apply Hne; reflexivity |];
    cbn [elems];
    (destruct priority as [p |]; [unfold marshal_float64; rewrite Hpri |]);
    cbn [bind app];
    (eexists; split; [reflexivity |]);
    cbn [unmarshal_members]; unfold Annotations_field, unmarshal_slice_value, bind.
  all: cbn -[unmarshal_elems map].
  all: try rewrite Hdec; try reflexivity.
Qed.

Lemma marshal_annotations_roundtrip (a : option Annotations) :
  wire_Annotations a ->
  (a = None /\ marshal_annotations a = Ok [])
  \/ (exists ann members,
         a = Some ann
         /\ marshal_annotations a = Ok [("annotations", JObject members)]
         /\ unmarshal_Annotations Annotations_zero (JObject members) = Ok ann).
Proof.
  destruct a as [ann |]; intros H; [right | left; split; reflexivity].
  destruct (marshal_Annotations_roundtrip ann H) as [members [Hm Hu]].
  exists ann, members. split; [reflexivity |]. split; [| exact Hu].
  unfold marshal_annotations. rewrite Hm. reflexivity.
Qed.

Lemma TextContent_roundtrip (t : TextContent) :
  valid_TextContent t ->
  exists members,
    TextContent_members t = Ok members
    /\ decode_Content (JObject (("type", JString ContentTypeText) :: members))
       = ({| c_Type := ContentTypeText; c_TextContent := Some t; c_ImageContent := None;
             c_ResourceContent := None |}, None).
Proof.
  destruct t as [text ann]. intros [Htext Hann]. cbn [tc_Text tc_Annotations] in *.
  unfold TextContent_members. cbn [tc_Text tc_Annotations].
  rewrite (marshal_string_wire _ Htext).
  destruct (marshal_annotations_roundtrip ann Hann)
    as [[-> ->] | [a [members [-> [-> Hu]]]]]; cbn [bind];
    (eexists; split; [reflexivity |]).
  - reflexivity.
  - unfold decode_Content, Content_UnmarshalJSON.
    cbn -[unmarshal_Annotations]. rewrite Hu. reflexivity.
Qed.

Lemma ImageContent_roundtrip (i : ImageContent) :
  valid_ImageContent i ->
  exists members,
    ImageContent_members i = Ok members
    /\ decode_Content (JObject (("type", JString ContentTypeImage) :: members))
       = ({| c_Type := ContentTypeImage; c_TextContent := None; c_ImageContent := Some i;
             c_ResourceContent := None |}, None).
Proof.
  destruct i as [data mime ann]. intros [Hdata [Hmime Hann]].
  cbn [ic_Data ic_MimeType ic_Annotations] in *.
  unfold ImageContent_members. cbn [ic_Data ic_MimeType ic_Annotations].
  rewrite (marshal_string_wire _ Hdata), (marshal_string_wire _ Hmime).
  destruct (marshal_annotations_roundtrip ann Hann)
    as [[-> ->] | [a [members [-> [-> Hu]]]]]; cbn [bind];
    (eexists; split; [reflexivity |]).
  - reflexivity.
  - unfold decode_Content, Content_UnmarshalJSON.
    cbn -[unmarshal_Annotations]. rewrite Hu. reflexivity.
Qed.

Lemma marshal_opt_string_wire (name : string) (p : option string) :
  wire_opt_string p ->
  marshal_opt_string name p = match p with Some s => [(name, JString s)] | None => [] end.
Proof.
  destruct p as [s |]; simpl; intros H; [| reflexivity].
  rewrite (marshal_string_wire _ H). reflexivity.
Qed.

Lemma ResourceContent_roundtrip (r : ResourceContent) :
  valid_ResourceContent r ->
  exists members,
    ResourceContent_members r = Ok members
    /\ decode_Content (JObject (("type", JString ContentTypeResource) :: members))
       = ({| c_Type := ContentTypeResource; c_TextContent := None; c_ImageContent := None;
             c_ResourceContent := Some r |}, None).
Proof.
  destruct r as [uri text blob mime ann]. intros [Huri [Htext [Hblob [Hmime Hann]]]].
  cbn [rc_URI rc_Text rc_Blob rc_MimeType rc_Annotations] in *.
  unfold ResourceContent_members. cbn [rc_URI rc_Text rc_Blob rc_MimeType rc_Annotations].
  rewrite (marshal_string_wire _ Huri).
  rewrite (marshal_opt_string_wire _ _ Htext), (marshal_opt_string_wire _ _ Hblob),
    (marshal_opt_string_wire _ _ Hmime).
  destruct (marshal_annotations_roundtrip ann Hann)
    as [[-> ->] | [a [members [-> [-> Hu]]]]]; cbn [bind];
    (eexists; split; [reflexivity |]);
    unfold decode_Content, Content_UnmarshalJSON;
    destruct text, blob, mime; cbn -[unmarshal_Annotations]; try rewrite Hu; reflexivity.
Qed.

Lemma validateAudience_None (audience : list Role) :
  validateAudience audience = None -> forall role, In role audience -> known_role role.
Proof.
  induction audience as [| r rest IH]; simpl; intros H role Hin; [contradiction |].
  destruct (String.eqb r RoleUser || String.eqb r RoleAssistant) eqn:E; [| discriminate].
  destruct Hin as [<- | Hin]; [| exact (IH H role Hin)].
  apply orb_true_iff in E. destruct E as [E | E]; apply String.eqb_eq in E; [left | right]; exact E.
Qed.

(** Annotations that [Validate] accepts, whose priority is a number and
    whose audience is nil or has a role, are values that JSON carries
    unchanged. *)
Lemma Annotations_Validate_wire (a : Annotations) :
  Annotations_Validate (Some a) = None ->
  ann_Priority a <> Some S754_nan ->
  nil_or_nonempty (ann_Audience a) ->
  wire_Annotations (Some a).
Proof.
  destruct a as [audience priority]. unfold Annotations_Validate.
  cbn [ann_Audience ann_Priority wire_Annotations]. intros H Hnan Hne.
  destruct (validatePriority priority) as [e |] eqn:Hp; [discriminate |].
  split; [| split; [exact Hne |]].
  - apply Forall_forall. intros role Hin.
    assert (Hk : known_role role).
    { destruct (elems audience) as [| r rest]; [contradiction |].
      replace (len (r :: rest) >? 0) with true in H
        by (symmetry; apply Z.gtb_lt; unfold len; cbn [List.length]; lia).
      exact (validateAudience_None _ H role Hin). }
    destruct Hk as [-> | ->]; reflexivity.
  - destruct priority as [p |]; [| exact I].
    unfold validatePriority, priority_out_of_range in Hp.
    destruct p as [s | s | | s m e]; try reflexivity.
    + destruct s; vm_compute in Hp; discriminate.
    + exfalso. apply Hnan. reflexivity.
Qed.

Lemma discriminator_no_type (members : list (string * json)) (seen : string) :
  no_type_member members = true -> discriminator members seen = Some seen.
Proof.
  induction members as [| [key j] rest IH]; simpl; intros H; [reflexivity |].
  apply andb_true_iff in H. destruct H as [Hk Hrest].
  apply negb_true_iff in Hk. rewrite Hk. exact (IH Hrest).
Qed.

Lemma discriminator_own_type (members : list (string * json)) (ty : string) :
  no_type_member members = true ->
  discriminator (("type", JString ty) :: members) "" = Some ty.
Proof. intros H. cbn. apply discriminator_no_type. exact H. Qed.

Lemma marshal_annotations_keys (a : option Annotations) (members : list (string * json)) :
  marshal_annotations a = Ok members ->
  members = [] \/ exists j, members = [("annotations", j)].
Proof.
  destruct a as [ann |]; simpl.
  - destruct (marshal_Annotations ann) as [j |]; simpl; intros H; inversion H.
    right. eexists; reflexivity.
  - intros H; inversion H. left. reflexivity.
Qed.

Lemma TextContent_members_keys (t : TextContent) (members : list (string * json)) :
  TextContent_members t = Ok members -> no_type_member members = true.
Proof.
  unfold TextContent_members.
  destruct (marshal_annotations (tc_Annotations t)) as [ann |] eqn:Ha; simpl; [| discriminate].
  intros H; inversion H; subst.
  destruct (marshal_annotations_keys _ _ Ha) as [-> | [j ->]]; reflexivity.
Qed.

Lemma ImageContent_members_keys (i : ImageContent) (members : list (string * json)) :
  ImageContent_members i = Ok members -> no_type_member members = true.
Proof.
  unfold ImageContent_members.
  destruct (marshal_annotations (ic_Annotations i)) as [ann |] eqn:Ha; simpl; [| discriminate].
  intros H; inversion H; subst.
  destruct (marshal_annotations_keys _ _ Ha) as [-> | [j ->]]; reflexivity.
Qed.

Lemma ResourceContent_members_keys (r : ResourceContent) (members : list (string * json)) :
  ResourceContent_members r = Ok members -> no_type_member members = true.
Proof.
  unfold ResourceContent_members.
  destruct (marshal_annotations (rc_Annotations r)) as [ann |] eqn:Ha; simpl; [| discriminate].
  intros H; inversion H; subst.
  destruct (marshal_annotations_keys _ _ Ha) as [-> | [j ->]];
    destruct (rc_Text r), (rc_Blob r), (rc_MimeType r); reflexivity.
Qed.

(** C1 as stated does not hold for every value whose discriminator names
    the one populated variant, not even for those NewTextContent builds with
    annotations that Validate accepts.  The text made of the byte FF is
    encoded as U+FFFD and comes back as that; an audience that is empty but
    not nil is omitted by the encoder and comes back nil; and a NaN
    priority, which Validate lets through, cannot be encoded at all. *)
Lemma Content_roundtrip_changes_value :
  (exactly_one_variant (NewTextContent (String "255"%char "") None)
   /\ exists j,
        Content_MarshalJSON (NewTextContent (String "255"%char "") None) = Ok j
        /\ decode_Content j = (NewTextContent (utf8_replacement "") None, None)
        /\ NewTextContent (utf8_replacement "") None
           <> NewTextContent (String "255"%char "") None)
  /\ (exactly_one_variant
        (NewTextContent "hi" (Some {| ann_Audience := slice_of []; ann_Priority := None |}))
      /\ Annotations_Validate (Some {| ann_Audience := slice_of []; ann_Priority := None |})
         = None
      /\ exists j,
           Content_MarshalJSON
             (NewTextContent "hi"
                (Some {| ann_Audience := slice_of []; ann_Priority := None |})) = Ok j
           /\ decode_Content j
              = (NewTextContent "hi"
                   (Some {| ann_Audience := nil_slice; ann_Priority := None |}), None)
           /\ NewTextContent "hi" (Some {| ann_Audience := nil_slice; ann_Priority := None |})
              <> NewTextContent "hi"
                   (Some {| ann_Audience := slice_of []; ann_Priority := None |}))
  /\ (exactly_one_variant
        (NewTextContent "x"
           (Some {| ann_Audience := nil_slice; ann_Priority := Some S754_nan |}))
      /\ Annotations_Validate
           (Some {| ann_Audience := nil_slice; ann_Priority := Some S754_nan |}) = None
      /\ Content_MarshalJSON
           (NewTextContent "x"
              (Some {| ann_Audience := nil_slice; ann_Priority := Some S754_nan |}))
         = Err (UnsupportedValueError S754_nan)).
Proof.
  split; [| split].
  - split; [left; repeat split; discriminate |].
    exists (JObject [("type", JString "text"); ("text", JString (utf8_replacement ""))]).
    split; [vm_compute; reflexivity |]. split; [vm_compute; reflexivity | discriminate].
  - split; [left; repeat split; discriminate |]. split; [reflexivity |].
    exists (JObject [("type", JString "text"); ("text", JString "hi");
                     ("annotations", JObject [])]).
    split; [vm_compute; reflexivity |]. split; [vm_compute; reflexivity | discriminate].
  - split; [left; repeat split; discriminate |]. split; vm_compute; reflexivity.
Qed.

(** C1, amended. For every Content value v whose discriminator is text,
    image or resource, whose variant of that name is populated and whose two
    other variants are nil, and whose populated variant JSON carries
    unchanged (each string is UTF-8 text, the priority, when there is one,
    is a finite number, as every priority between 0 and 1 is, and the
    audience is nil or has at least one role), encoding v succeeds, decoding
    the encoded object into a fresh Content yields v itself, and the encoded
    object is a flat object whose first member, type, is the discriminator
    of the populated variant.  Encoding never produces a mismatch: whenever
    MarshalJSON succeeds, on any Content, the object starts with the member
    type, no later member is read as type by the decoder, and the variant
    that this discriminator names is populated. *)
Theorem Content_roundtrip :
  (forall v,
      valid_Content v ->
      exists members,
        Content_MarshalJSON v = Ok (JObject (("type", JString (c_Type v)) :: members))
        /\ decode_Content (JObject (("type", JString (c_Type v)) :: members)) = (v, None)
        /\ discriminator_agrees v)
  /\ (forall c j,
      Content_MarshalJSON c = Ok j ->
      exists members,
        j = JObject (("type", JString (c_Type c)) :: members)
        /\ discriminator (("type", JString (c_Type c)) :: members) "" = Some (c_Type c)
        /\ discriminator_agrees c).
Proof.
  split.
  - intros [ty text image resource].
    intros [[Hty [[t [Ht Hv]] [Hi Hr]]]
           | [[Hty [Ht [[i [Hi Hv]] Hr]]] | [Hty [Ht [Hi [r [Hr Hv]]]]]]];
      cbn [c_Type c_TextContent c_ImageContent c_ResourceContent] in *; subst.
    + destruct (TextContent_roundtrip t Hv) as [members [Hm Hd]].
      exists members. unfold Content_MarshalJSON.
      cbn [c_Type c_TextContent String.eqb Ascii.eqb Bool.eqb ContentTypeText andb].
      rewrite Hm. split; [reflexivity |]. split; [exact Hd |].
      left. split; [reflexivity | discriminate].
    + destruct (ImageContent_roundtrip i Hv) as [members [Hm Hd]].
      exists members. unfold Content_MarshalJSON. cbn -[ImageContent_members].
      rewrite Hm. split; [reflexivity |]. split; [exact Hd |].
      right. left. split; [reflexivity | discriminate].
    + destruct (ResourceContent_roundtrip r Hv) as [members [Hm Hd]].
      exists members. unfold Content_MarshalJSON. cbn -[ResourceContent_members].
      rewrite Hm. split; [reflexivity |]. split; [exact Hd |].
      right. right. split; [reflexivity | discriminate].
  - intros c j. unfold Content_MarshalJSON.
    destruct (String.eqb (c_Type c) ContentTypeText) eqn:E1.
    { apply String.eqb_eq in E1. destruct (c_TextContent c) as [t |] eqn:Ht; [| discriminate].
      destruct (TextContent_members t) as [ms |] eqn:Hms; simpl; [| discriminate].
      intros H; inversion H; subst. rewrite E1. eexists. split; [reflexivity |].
      split; [apply discriminator_own_type; exact (TextContent_members_keys _ _ Hms) |].
      left. split; [exact E1 | congruence]. }
    destruct (String.eqb (c_Type c) ContentTypeImage) eqn:E2.
    { apply String.eqb_eq in E2. destruct (c_ImageContent c) as [i |] eqn:Hi; [| discriminate].
      destruct (ImageContent_members i) as [ms |] eqn:Hms; simpl; [| discriminate].
      intros H; inversion H; subst. rewrite E2. eexists. split; [reflexivity |].
      split; [apply discriminator_own_type; exact (ImageContent_members_keys _ _ Hms) |].
      right. left. split; [exact E2 | congruence]. }
    destruct (String.eqb (c_Type c) ContentTypeResource) eqn:E3; [| discriminate].
    apply String.eqb_eq in E3. destruct (c_ResourceContent c) as [r |] eqn:Hr; [| discriminate].
    destruct (ResourceContent_members r) as [ms |] eqn:Hms; simpl; [| discriminate].
    intros H; inversion H; subst. rewrite E3. eexists. split; [reflexivity |].
    split; [apply discriminator_own_type; exact (ResourceContent_members_keys _ _ Hms) |].
    right. right. split; [exact E3 | congruence].
Qed.

Lemma Content_roundtrip_witness :
  (exists members,
      Content_MarshalJSON
        (NewTextContent "Hello, world!"
           (Some {| ann_Audience := slice_of [RoleAssistant];
                    ann_Priority := Some (f64_div (float64_of_int 8) (float64_of_int 10)) |}))
      = Ok (JObject (("type", JString "text") :: members))
      /\ decode_Content (JObject (("type", JString "text") :: members))
         = (NewTextContent "Hello, world!"
              (Some {| ann_Audience := slice_of [RoleAssistant];
                       ann_Priority :=
                         Some (f64_div (float64_of_int 8) (float64_of_int 10)) |}),
            None))
  /\ discriminator_agrees (NewImageContent "aGk=" "image/png" None).
Proof.
  split.
  - destruct (proj1 Content_roundtrip
                (NewTextContent "Hello, world!"
                   (Some {| ann_Audience := slice_of [RoleAssistant];
                            ann_Priority :=
                              Some (f64_div (float64_of_int 8) (float64_of_int 10)) |})))
      as [members [Hm [Hd _]]].
    + left. split; [reflexivity |]. split; [| split; reflexivity].
      eexists. split; [reflexivity |]. split; [reflexivity |].
      split; [| split; [discriminate | reflexivity]].
      constructor; [reflexivity | constructor].
    + exists members. split; [exact Hm | exact Hd].
  - destruct (proj2 Content_roundtrip (NewImageContent "aGk=" "image/png" None)
                (JObject [("type", JString "image"); ("data", JString "aGk=");
                          ("mimeType", JString "image/png")]) eq_refl)
      as [members [_ [_ H]]].
    exact H.
Defined.

(** The scenario of the package's usage example: the text "Hello, world!"
    with audience [assistant] and priority 0.8 (the binary64 nearest to 8/10)
    is written as the flat object with members type, text and annotations,
    and that object decodes to the same value. *)
Example Content_hello_world :
  Content_MarshalJSON
    (NewTextContent "Hello, world!"
       (Some {| ann_Audience := slice_of [RoleAssistant];
                ann_Priority := Some (f64_div (float64_of_int 8) (float64_of_int 10)) |}))
  = Ok (JObject
          [("type", JString "text");
           ("text", JString "Hello, world!");
           ("annotations",
            JObject
              [("audience", JArray [JString "assistant"]);
               ("priority",
                JNumber {| num_int := None;
                           num_float :=
                             Some (f64_div (float64_of_int 8) (float64_of_int 10)) |})])])
  /\ decode_Content
       (JObject
          [("type", JString "text");
           ("text", JString "Hello, world!");
           ("annotations",
            JObject
              [("audience", JArray [JString "assistant"]);
               ("priority",
                JNumber {| num_int := None;
                           num_float :=
                             Some (f64_div (float64_of_int 8) (float64_of_int 10)) |})])])
     = (NewTextContent "Hello, world!"
          (Some {| ann_Audience := slice_of [RoleAssistant];
                   ann_Priority := Some (f64_div (float64_of_int 8) (float64_of_int 10)) |}),
        None).
Proof. split; vm_compute; reflexivity. Qed.

(** ** Decoding [Content]: unknown discriminators *)

Lemma typeOnly_probe_reads (members : list (string * json)) (seen t : string) :
  discriminator members seen = Some t ->
  unmarshal_members typeOnly_field members {| to_Type := seen |} = Ok {| to_Type := t |}.
Proof.
  revert seen. induction members as [| [key j] rest IH]; simpl; intros seen H.
  - inversion H. reflexivity.
  - unfold typeOnly_field at 1. destruct (fieldMatch "type" key).
    + destruct j; simpl; try discriminate; apply IH; exact H.
    + simpl. apply IH. exact H.
Qed.

Lemma typeOnly_probe_rejects (members : list (string * json)) (seen : string) :
  discriminator members seen = None ->
  exists kind,
    unmarshal_members typeOnly_field members {| to_Type := seen |}
    = Err (UnmarshalTypeError kind "string").
Proof.
  revert seen. induction members as [| [key j] rest IH]; simpl; intros seen H.
  - discriminate.
  - unfold typeOnly_field at 1. destruct (fieldMatch "type" key).
    + destruct j; simpl; try (eexists; reflexivity); apply IH; exact H.
    + simpl. apply IH. exact H.
Qed.

Lemma typeOnly_probe_complete (members : list (string * json)) (seen : string) (t : typeOnly) :
  unmarshal_members typeOnly_field members {| to_Type := seen |} = Ok t ->
  discriminator members seen = Some (to_Type t).
Proof.
  destruct (discriminator members seen) as [ty |] eqn:Hd.
  - rewrite (typeOnly_probe_reads _ _ _ Hd). intros H; inversion H. reflexivity.
  - destruct (typeOnly_probe_rejects _ _ Hd) as [kind Hk]. rewrite Hk. discriminate.
Qed.

(** On an error the receiver is left as it was. *)
Lemma Content_UnmarshalJSON_error_keeps (c c' : Content) (data : json) (err : error) :
  Content_UnmarshalJSON c data = (c', Some err) -> c' = c.
Proof.
  unfold Content_UnmarshalJSON.
  destruct (unmarshal_struct "typeOnly" _ _ data) as [t | e]; [| congruence].
  destruct (String.eqb (to_Type t) ContentTypeText).
  { destruct (unmarshal_struct _ TextContent_field _ data); congruence. }
  destruct (String.eqb (to_Type t) ContentTypeImage).
  { destruct (unmarshal_struct _ ImageContent_field _ data); congruence. }
  destruct (String.eqb (to_Type t) ContentTypeResource).
  { destruct (unmarshal_struct _ ResourceContent_field _ data); congruence. }
  congruence.
Qed.

(** What a successful call leaves in the receiver. *)
Lemma Content_UnmarshalJSON_success (c c' : Content) (data : json) :
  Content_UnmarshalJSON c data = (c', None) ->
  (exists members,
      data = JObject members /\ discriminator members "" = Some (c_Type c'))
  /\ ((c_Type c' = ContentTypeText /\ c_TextContent c' <> None
       /\ c_ImageContent c' = c_ImageContent c /\ c_ResourceContent c' = c_ResourceContent c)
      \/ (c_Type c' = ContentTypeImage /\ c_ImageContent c' <> None
          /\ c_TextContent c' = c_TextContent c
          /\ c_ResourceContent c' = c_ResourceContent c)
      \/ (c_Type c' = ContentTypeResource /\ c_ResourceContent c' <> None
          /\ c_TextContent c' = c_TextContent c /\ c_ImageContent c' = c_ImageContent c)).
Proof.
  unfold Content_UnmarshalJSON.
  destruct (unmarshal_struct "typeOnly" _ _ data) as [t | e] eqn:Hprobe; [| discriminate].
  assert (Hdisc : to_Type t <> "" ->
                  exists members, data = JObject members
                                  /\ discriminator members "" = Some (to_Type t)).
  { intros Hne. destruct data as [| | | | | members]; simpl in Hprobe; try discriminate.
    - inversion Hprobe; subst. contradiction Hne. reflexivity.
    - exists members. split; [reflexivity |]. apply typeOnly_probe_complete. exact Hprobe. }
  destruct (String.eqb (to_Type t) ContentTypeText) eqn:E1.
  { apply String.eqb_eq in E1.
    destruct (unmarshal_struct _ TextContent_field _ data); [| discriminate].
    intros H; inversion H; subst; clear H. simpl. split.
    - rewrite <- E1. apply Hdisc. rewrite E1. discriminate.
    - left. repeat split. discriminate. }
  destruct (String.eqb (to_Type t) ContentTypeImage) eqn:E2.
  { apply String.eqb_eq in E2.
    destruct (unmarshal_struct _ ImageContent_field _ data); [| discriminate].
    intros H; inversion H; subst; clear H. simpl. split.
    - rewrite <- E2. apply Hdisc. rewrite E2. discriminate.
    - right. left. repeat split. discriminate. }
  destruct (String.eqb (to_Type t) ContentTypeResource) eqn:E3; [| discriminate].
  apply String.eqb_eq in E3.
  destruct (unmarshal_struct _ ResourceContent_field _ data); [| discriminate].
  intros H; inversion H; subst; clear H. simpl. split.
  - rewrite <- E3. apply Hdisc. rewrite E3. discriminate.
  - right. right. repeat split. discriminate.
Qed.

(** C3 as stated does not hold for every object: when the member type
    holds a number, the decoder's own type error comes back, not an
    "unknown content type" error. *)
Lemma Content_UnmarshalJSON_number_type :
  decode_Content
    (JObject [("type", JNumber {| num_int := Some 5; num_float := Some (float64_of_int 5) |});
              ("text", JString "hi")])
  = (Content_zero, Some (UnmarshalTypeError "number" "string")).
Proof. reflexivity. Qed.

(** C3, amended. For every JSON object whose member type, as the decoder
    reads it, is absent, null or a string other than text, image and
    resource, Content.UnmarshalJSON returns the error "unknown content type"
    with that string and leaves the receiver as it was; an object whose
    member type holds a value of another kind is rejected too, with the
    decoder's type error.  The method never succeeds by leaving a default or
    zero-value variant: when it succeeds the document is an object whose
    discriminator is the Type of the result, one of the three, and the
    variant pointer that Type names is non-nil, the two others being those of
    the receiver.  So when it succeeds on a zero-valued Content, as declared
    by var, exactly one variant pointer is non-nil and it agrees with Type;
    and whenever it fails the receiver is unchanged. *)
Theorem Content_UnmarshalJSON_unknown_type :
  (forall c members t,
      discriminator members "" = Some t ->
      t <> ContentTypeText -> t <> ContentTypeImage -> t <> ContentTypeResource ->
      Content_UnmarshalJSON c (JObject members)
      = (c, Some (Errorf "unknown content type: %s" [ArgString t])))
  /\ (forall c members,
      discriminator members "" = None ->
      exists kind,
        Content_UnmarshalJSON c (JObject members)
        = (c, Some (UnmarshalTypeError kind "string")))
  /\ (forall c data c',
      Content_UnmarshalJSON c data = (c', None) ->
      (exists members,
          data = JObject members /\ discriminator members "" = Some (c_Type c'))
      /\ discriminator_agrees c'
      /\ ((c_Type c' = ContentTypeText
           /\ c_ImageContent c' = c_ImageContent c
           /\ c_ResourceContent c' = c_ResourceContent c)
          \/ (c_Type c' = ContentTypeImage
              /\ c_TextContent c' = c_TextContent c
              /\ c_ResourceContent c' = c_ResourceContent c)
          \/ (c_Type c' = ContentTypeResource
              /\ c_TextContent c' = c_TextContent c
              /\ c_ImageContent c' = c_ImageContent c)))
  /\ (forall data c', decode_Content data = (c', None) -> exactly_one_variant c')
  /\ (forall c data c' err, Content_UnmarshalJSON c data = (c', Some err) -> c' = c).
Proof.
  split; [| split; [| split; [| split]]].
  - intros c members t Hd H1 H2 H3. unfold Content_UnmarshalJSON.
    cbn [unmarshal_struct]. rewrite (typeOnly_probe_reads _ _ _ Hd). cbn [to_Type].
    apply String.eqb_neq in H1, H2, H3. rewrite H1, H2, H3. reflexivity.
  - intros c members Hd. unfold Content_UnmarshalJSON. cbn [unmarshal_struct].
    destruct (typeOnly_probe_rejects _ _ Hd) as [kind Hk]. rewrite Hk.
    exists kind. reflexivity.
  - intros c data c' H. destruct (Content_UnmarshalJSON_success _ _ _ H) as [Hdoc Hv].
    split; [exact Hdoc |].
    destruct Hv as [[Ht [Hp [H1 H2]]] | [[Ht [Hp [H1 H2]]] | [Ht [Hp [H1 H2]]]]].
    + split; [left; auto | left; auto].
    + split; [right; left; auto | right; left; auto].
    + split; [right; right; auto | right; right; auto].
  - intros data c' H. unfold decode_Content in H.
    destruct (Content_UnmarshalJSON_success _ _ _ H) as [_ Hv]. unfold exactly_one_variant.
    destruct Hv as [[Ht [Hp [H1 H2]]] | [[Ht [Hp [H1 H2]]] | [Ht [Hp [H1 H2]]]]];
      simpl in H1, H2; auto 10.
  - intros c data c' err. apply Content_UnmarshalJSON_error_keeps.
Qed.

Lemma Content_UnmarshalJSON_unknown_type_witness :
  decode_Content (JObject [("text", JString "hi"); ("type", JString "video")])
  = (Content_zero, Some (Errorf "unknown content type: %s" [ArgString "video"]))
  /\ (exists kind,
         decode_Content (JObject [("type", JArray [JString "text"])])
         = (Content_zero, Some (UnmarshalTypeError kind "string")))
  /\ exactly_one_variant (NewImageContent "aGk=" "image/png" None)
  /\ discriminator_agrees (NewTextContent "hi" None).
Proof.
  destruct Content_UnmarshalJSON_unknown_type as [Hunknown [Hkind [Hok [Hone _]]]].
  split; [| split; [| split]].
  - apply Hunknown; [reflexivity | discriminate | discriminate | discriminate].
  - apply Hkind. reflexivity.
  - apply (Hone (JObject [("type", JString "image"); ("data", JString "aGk=");
                          ("mimeType", JString "image/png")])).
    reflexivity.
  - apply (Hok Content_zero (JObject [("type", JString "text"); ("text", JString "hi")])).
    reflexivity.
Defined.

(** Decoding does not start from scratch: a receiver that already holds a
    variant keeps it when a document of another variant is decoded into it,
    against the remark on the struct that only one of the pointers is
    non-nil. *)
Example Content_UnmarshalJSON_reused_receiver :
  Content_UnmarshalJSON (NewTextContent "a" None)
    (JObject [("type", JString "image"); ("data", JString "aGk=");
              ("mimeType", JString "image/png")])
  = ({| c_Type := "image";
        c_TextContent := Some {| tc_Text := "a"; tc_Annotations := None |};
        c_ImageContent := Some {| ic_Data := "aGk="; ic_MimeType := "image/png";
                                  ic_Annotations := None |};
        c_ResourceContent := None |}, None).
Proof. reflexivity. Qed.

(** Member names are matched as [json.Unmarshal] matches them: without
    regard to case, the last one winning, [null] leaving things as they are. *)
Example discriminator_examples :
  discriminator [("TYPE", JString "text")] "" = Some "text"
  /\ discriminator [("type", JString "text"); ("Type", JString "video")] "" = Some "video"
  /\ discriminator [("type", JString "text"); ("type", JNull)] "" = Some "text"
  /\ discriminator [("kind", JString "text")] "" = Some ""
  /\ discriminator [("type", JBool true)] "" = None.
Proof. repeat split. Qed.

(** ** Decoding [ErrorInfo] *)

Lemma temp_probe_reads (members : list (string * json)) (seen ty : string) :
  errorType_of members seen = Some ty ->
  unmarshal_members temp_field members {| temp_ErrorType := seen |}
  = Ok {| temp_ErrorType := ty |}.
Proof.
  revert seen. induction members as [| [key j] rest IH]; simpl; intros seen H.
  - inversion H. reflexivity.
  - unfold temp_field at 1. destruct (fieldMatch "errorType" key).
    + destruct j; simpl; try discriminate; apply IH; exact H.
    + simpl. apply IH. exact H.
Qed.

Lemma temp_probe_rejects (members : list (string * json)) (seen : string) :
  errorType_of members seen = None ->
  exists kind,
    unmarshal_members temp_field members {| temp_ErrorType := seen |}
    = Err (UnmarshalTypeError kind "string").
Proof.
  revert seen. induction members as [| [key j] rest IH]; simpl; intros seen H.
  - discriminate.
  - unfold temp_field at 1. destruct (fieldMatch "errorType" key).
    + destruct j; simpl; try (eexists; reflexivity); apply IH; exact H.
    + simpl. apply IH. exact H.
Qed.

(** C2 as stated does not hold for every non-null data field: the code 1
    maps to no known variant, the data field is the string "oops", and
    decoding fails. *)
Lemma ErrorInfo_UnmarshalJSON_string_data :
  decode_ErrorInfo
    (JObject [("code", JNumber {| num_int := Some 1; num_float := Some (float64_of_int 1) |});
              ("message", JString "m");
              ("data", JString "oops")])
  = ({| ei_Code := 1; ei_Message := "m"; ei_Data := None |},
     Some (UnmarshalTypeError "string" "struct")).
Proof. reflexivity. Qed.

(** C2, amended. Let ErrorInfo.UnmarshalJSON be given a document that decodes
    into a code, a message and a data field, the data field being a JSON
    object whose member errorType, as the decoder reads it, is absent, null
    or a string.  If the code is neither -32602 nor -32603 (it maps to no
    known variant), decoding succeeds, stores the code and the message and
    leaves the Data field as it was, hence empty in a fresh ErrorInfo.  If
    the code is -32603 and errorType is not "toolExecution", decoding fails
    with the error "unknown error type" (the code and message being stored
    already).  For the code -32602 the errorType is not consulted.  A data
    field that is a string, a number, a boolean or an array, or an object
    whose errorType is none of string and null, makes decoding fail with the
    decoder's type error whatever the code. *)
Theorem ErrorInfo_UnmarshalJSON_dispatch :
  forall (e : ErrorInfo) (data : json) (aux : ErrorInfo_aux) (raw : RawMessage),
    unmarshal_struct "struct" aux_field aux_zero data = Ok aux ->
    aux_Data aux = Some raw ->
    (forall members ty,
        raw = JObject members ->
        errorType_of members "" = Some ty ->
        (aux_Code aux <> ErrInvalidParams -> aux_Code aux <> ErrInternal ->
         ErrorInfo_UnmarshalJSON e data
         = ({| ei_Code := aux_Code aux; ei_Message := aux_Message aux; ei_Data := ei_Data e |},
            None))
        /\ (aux_Code aux = ErrInternal -> ty <> "toolExecution" ->
            ErrorInfo_UnmarshalJSON e data
            = ({| ei_Code := aux_Code aux; ei_Message := aux_Message aux;
                  ei_Data := ei_Data e |},
               Some (Errorf "unknown error type: %s" [ArgString ty])))
        /\ (aux_Code aux = ErrInvalidParams ->
            ErrorInfo_UnmarshalJSON e data
            = match unmarshal_struct "types.ValidationError" ValidationError_field
                      {| ve_Validation := [] |} raw with
              | Ok v =>
                  ({| ei_Code := aux_Code aux; ei_Message := aux_Message aux;
                      ei_Data := Some (ErrorData_Validation v) |}, None)
              | Err err =>
                  ({| ei_Code := aux_Code aux; ei_Message := aux_Message aux;
                      ei_Data := ei_Data e |}, Some err)
              end))
    /\ ((forall members, raw = JObject members -> errorType_of members "" = None) ->
        raw <> JNull ->
        exists kind goType,
          ErrorInfo_UnmarshalJSON e data
          = ({| ei_Code := aux_Code aux; ei_Message := aux_Message aux; ei_Data := ei_Data e |},
             Some (UnmarshalTypeError kind goType))).
Proof.
  intros e data aux raw Haux Hraw. unfold ErrorInfo_UnmarshalJSON.
  rewrite Haux, Hraw. cbn [ei_Code ei_Message ei_Data]. split.
  - intros members ty -> Hty. cbn [unmarshal_struct].
    rewrite (temp_probe_reads _ _ _ Hty). cbn [temp_ErrorType].
    split; [| split].
    + intros H1 H2. apply Z.eqb_neq in H1, H2. rewrite H1, H2. reflexivity.
    + intros H1 H2. rewrite H1. apply String.eqb_neq in H2. rewrite H2. reflexivity.
    + intros H1. rewrite H1. cbn [Z.eqb ErrInvalidParams Pos.eqb].
      destruct (unmarshal_members ValidationError_field members _); reflexivity.
  - intros Hbad Hnull.
    destruct raw as [| b | n | s | elems | members]; cbn [unmarshal_struct json_kind];
      try (do 2 eexists; reflexivity).
    + contradiction Hnull. reflexivity.
    + destruct (temp_probe_rejects members "" (Hbad members eq_refl)) as [kind Hk].
      rewrite Hk. do 2 eexists; reflexivity.
Qed.

Lemma ErrorInfo_UnmarshalJSON_dispatch_witness :
  decode_ErrorInfo
    (JObject [("code", JNumber {| num_int := Some 1; num_float := Some (float64_of_int 1) |});
              ("message", JString "m");
              ("data", JObject [("detail", JString "x")])])
  = ({| ei_Code := 1; ei_Message := "m"; ei_Data := None |}, None)
  /\ ErrorInfo_UnmarshalJSON (NewValidationError [])
       (JObject [("code", JNumber {| num_int := Some ErrInternal;
                                     num_float := Some (float64_of_int ErrInternal) |});
                 ("message", JString "failed");
                 ("data", JObject [("errorType", JString "timeout")])])
     = ({| ei_Code := ErrInternal; ei_Message := "failed";
           ei_Data := Some (ErrorData_Validation {| ve_Validation := [] |}) |},
        Some (Errorf "unknown error type: %s" [ArgString "timeout"]))
  /\ (exists kind goType,
         decode_ErrorInfo
           (JObject [("code", JNumber {| num_int := Some 1;
                                         num_float := Some (float64_of_int 1) |});
                     ("data", JArray [])])
         = ({| ei_Code := 1; ei_Message := ""; ei_Data := None |},
            Some (UnmarshalTypeError kind goType))).
Proof.
  split; [| split].
  - unfold decode_ErrorInfo.
    destruct (ErrorInfo_UnmarshalJSON_dispatch ErrorInfo_zero
                (JObject [("code", JNumber {| num_int := Some 1;
                                              num_float := Some (float64_of_int 1) |});
                          ("message", JString "m");
                          ("data", JObject [("detail", JString "x")])])
                _ _ eq_refl eq_refl) as [H _].
    destruct (H _ "" eq_refl eq_refl) as [H1 _]. apply H1; discriminate.
  - destruct (ErrorInfo_UnmarshalJSON_dispatch (NewValidationError [])
                (JObject [("code", JNumber {| num_int := Some ErrInternal;
                                              num_float := Some (float64_of_int ErrInternal) |});
                          ("message", JString "failed");
                          ("data", JObject [("errorType", JString "timeout")])])
                _ _ eq_refl eq_refl) as [H _].
    destruct (H _ "timeout" eq_refl eq_refl) as [_ [H2 _]].
    apply H2; [reflexivity | discriminate].
  - unfold decode_ErrorInfo.
    destruct (ErrorInfo_UnmarshalJSON_dispatch ErrorInfo_zero
                (JObject [("code", JNumber {| num_int := Some 1;
                                              num_float := Some (float64_of_int 1) |});
                          ("data", JArray [])])
                _ _ eq_refl eq_refl) as [_ H].
    apply H; [intros members K | intros K]; discriminate K.
Defined.

(** The two variants decode from the objects the package documents. *)
Example ErrorInfo_decodes_variants :
  decode_ErrorInfo
    (JObject [("code", JNumber {| num_int := Some (-32602);
                                  num_float := Some (float64_of_int (-32602)) |});
              ("message", JString "Invalid parameters");
              ("data", JObject [("validation",
                                 JArray [JObject [("field", JString "maxTokens");
                                                  ("error", JString "must be positive")]])])])
  = (NewValidationError [{| vf_Field := "maxTokens"; vf_Error := "must be positive" |}], None)
  /\ decode_ErrorInfo
       (JObject [("code", JNumber {| num_int := Some (-32603);
                                     num_float := Some (float64_of_int (-32603)) |});
                 ("message", JString "Tool execution failed");
                 ("data", JObject [("toolName", JString "searchCode");
                                   ("errorType", JString "toolExecution");
                                   ("details", JString "timed out")])])
     = (NewToolExecutionError "searchCode" "toolExecution" "timed out", None).
Proof. split; reflexivity. Qed.

(** The member errorType is also the tag of the field ErrType of
    ToolExecutionError, so the error of the package's own usage example
    (tool "searchCode", error type "timeout") does not decode. *)
Example ErrorInfo_tool_error_type_clash :
  decode_ErrorInfo
    (JObject [("code", JNumber {| num_int := Some (-32603);
                                  num_float := Some (float64_of_int (-32603)) |});
              ("message", JString "Tool execution failed");
              ("data", JObject [("toolName", JString "searchCode");
                                ("errorType", JString "timeout");
                                ("details", JString "Operation timed out after 30s")])])
  = ({| ei_Code := ErrInternal; ei_Message := "Tool execution failed"; ei_Data := None |},
     Some (Errorf "unknown error type: %s" [ArgString "timeout"])).
Proof. reflexivity. Qed.

(** * Further properties *)

(** ** Resource content built with the package's options *)

Lemma lastOr_cons {A : Type} (x : A) (l : list A) (d : A) :
  lastOr (x :: l) d = lastOr l x.
Proof. reflexivity. Qed.

Lemma content_calls_apply (calls : list ContentOptionCall) :
  forall rc,
    isSome (rc_Text rc) && isSome (rc_Blob rc) = false ->
    ((isSome (rc_Text rc) || nonempty (content_texts calls))
     && (isSome (rc_Blob rc) || nonempty (content_blobs calls)) = false ->
     applyOptions "applying content option: %w" (map content_option calls) rc
     = ({| rc_URI := rc_URI rc;
           rc_Text := lastOr (map Some (content_texts calls)) (rc_Text rc);
           rc_Blob := lastOr (map Some (content_blobs calls)) (rc_Blob rc);
           rc_MimeType := lastOr (map Some (content_mimeTypes calls)) (rc_MimeType rc);
           rc_Annotations := lastOr (content_annotations calls) (rc_Annotations rc) |}, None))
    /\ ((isSome (rc_Text rc) || nonempty (content_texts calls))
        && (isSome (rc_Blob rc) || nonempty (content_blobs calls)) = true ->
        exists v err,
          applyOptions "applying content option: %w" (map content_option calls) rc
          = (v, Some err)).
Proof.
  induction calls as [| call rest IH]; intros rc Hrc.
  - simpl. rewrite !orb_false_r. split.
    + intros _. destruct rc; reflexivity.
    + intros H. congruence.
  - destruct rc as [uri text blob mime ann]. simpl in Hrc.
    destruct text as [t0 |], blob as [b0 |]; try discriminate Hrc;
      destruct call as [t | b | m | a];
      cbn [map content_option applyOptions WithContentText WithContentBlob
             WithContentMimeType WithContentAnnotations rc_Blob rc_Text rc_URI rc_MimeType
             rc_Annotations isSome];
      first
        [ match goal with
          | |- context [applyOptions _ (map content_option rest) ?r] =>
              exact (IH r eq_refl)
          end
        | split; [cbn; discriminate | intros _; do 2 eexists; reflexivity] ].
Qed.

(** X1. For option lists written with the four options of ResourceContent
    (WithContentText, WithContentBlob, WithContentMimeType,
    WithContentAnnotations), in any order and number: NewResourceContent
    succeeds exactly when the URI is not empty and the list holds text
    options or blob options but not both kinds, and then each field of the
    content returned holds what the last option for it gave (the URI being
    the one given).  In every other case it returns an error and no
    content. *)
Theorem NewResourceContent_with_package_options :
  forall (uri : string) (calls : list ContentOptionCall) (rc : ResourceContent),
    (NewResourceContent uri (map content_option calls) = (Some rc, None)
     <-> uri <> ""
         /\ nonempty (content_texts calls) <> nonempty (content_blobs calls)
         /\ rc = content_of_calls uri calls)
    /\ (uri = "" \/ nonempty (content_texts calls) = nonempty (content_blobs calls) ->
        is_failure (NewResourceContent uri (map content_option calls))).
Proof.
  intros uri calls rc. unfold NewResourceContent.
  destruct (String.eqb uri "") eqn:Eu.
  { apply String.eqb_eq in Eu. split.
    - split; [discriminate | intros [H _]; contradiction].
    - intros _. eexists; reflexivity. }
  apply String.eqb_neq in Eu.
  destruct (content_calls_apply calls (ResourceContent_init uri) eq_refl) as [Hok Hbad].
  cbn [ResourceContent_init rc_Text rc_Blob rc_URI rc_MimeType rc_Annotations isSome orb]
    in Hok, Hbad.
  fold (content_of_calls uri calls) in Hok.
  destruct (nonempty (content_texts calls)) eqn:Et, (nonempty (content_blobs calls)) eqn:Eb.
  - destruct (Hbad eq_refl) as [v [err Hv]]. rewrite Hv. split.
    + split; [discriminate | intros [_ [H _]]; congruence].
    + intros _. eexists; reflexivity.
  - rewrite (Hok eq_refl).
    assert (Hshape : isSome (rc_Text (content_of_calls uri calls)) = true
                     /\ isSome (rc_Blob (content_of_calls uri calls)) = false).
    { unfold content_of_calls. cbn [rc_Text rc_Blob].
      destruct (content_texts calls) as [| t ts]; [discriminate |].
      destruct (content_blobs calls); [| discriminate]. split; [| reflexivity].
      cbn [map]. rewrite lastOr_cons. clear. revert t.
      induction ts as [| x xs IH]; intros t; [reflexivity | cbn [map]; rewrite lastOr_cons; apply IH]. }
    destruct Hshape as [H1 H2]. rewrite H1, H2. cbn. split.
    + split.
      * intros H. inversion H. split; [exact Eu |]. split; [discriminate | reflexivity].
      * intros [_ [_ ->]]. reflexivity.
    + intros [H | H]; [contradiction | discriminate].
  - rewrite (Hok eq_refl).
    assert (Hshape : isSome (rc_Text (content_of_calls uri calls)) = false
                     /\ isSome (rc_Blob (content_of_calls uri calls)) = true).
    { unfold content_of_calls. cbn [rc_Text rc_Blob].
      destruct (content_blobs calls) as [| t ts]; [discriminate |].
      destruct (content_texts calls); [| discriminate]. split; [reflexivity |].
      cbn [map]. rewrite lastOr_cons. clear. revert t.
      induction ts as [| x xs IH]; intros t; [reflexivity | cbn [map]; rewrite lastOr_cons; apply IH]. }
    destruct Hshape as [H1 H2]. rewrite H1, H2. cbn. split.
    + split.
      * intros H. inversion H. split; [exact Eu |]. split; [discriminate | reflexivity].
      * intros [_ [_ ->]]. reflexivity.
    + intros [H | H]; [contradiction | discriminate].
  - rewrite (Hok eq_refl).
    assert (Hshape : isSome (rc_Text (content_of_calls uri calls)) = false
                     /\ isSome (rc_Blob (content_of_calls uri calls)) = false).
    { unfold content_of_calls. cbn [rc_Text rc_Blob].
      destruct (content_texts calls); [| discriminate].
      destruct (content_blobs calls); [| discriminate]. split; reflexivity. }
    destruct Hshape as [H1 H2]. rewrite H1, H2. cbn. split.
    + split; [discriminate | intros [_ [H _]]; congruence].
    + intros _. eexists; reflexivity.
Qed.

Lemma NewResourceContent_with_package_options_witness :
  NewResourceContent "file:///a"
    (map content_option
       [CallContentBlob "AA=="; CallContentMimeType "image/png"; CallContentBlob "aGk="])
  = (Some {| rc_URI := "file:///a"; rc_Text := None; rc_Blob := Some "aGk=";
             rc_MimeType := Some "image/png"; rc_Annotations := None |}, None)
  /\ is_failure (NewResourceContent "file:///a"
                   (map content_option [CallContentBlob "AA=="; CallContentText "hi"])).
Proof.
  split.
  - apply (proj1 (NewResourceContent_with_package_options "file:///a"
                    [CallContentBlob "AA=="; CallContentMimeType "image/png";
                     CallContentBlob "aGk="] _)).
    split; [discriminate |]. split; [discriminate | reflexivity].
  - apply (proj2 (NewResourceContent_with_package_options "file:///a"
                    [CallContentBlob "AA=="; CallContentText "hi"]
                    (ResourceContent_init ""))).
    right. reflexivity.
Defined.

(** ** Resources and templates built with the package's options *)

Lemma resource_calls_apply (calls : list ResourceOptionCall) :
  forall r,
    applyOptions "applying resource option: %w" (map resource_option calls) r
    = ({| res_URI := res_URI r; res_Name := res_Name r;
          res_Description := lastOr (map Some (resource_descriptions calls)) (res_Description r);
          res_MimeType := lastOr (map Some (resource_mimeTypes calls)) (res_MimeType r);
          res_Annotations := lastOr (resource_annotations calls) (res_Annotations r) |}, None).
Proof.
  induction calls as [| call rest IH]; intros r.
  - destruct r; reflexivity.
  - destruct call;
      cbn [map applyOptions resource_option WithResourceDescription WithResourceMimeType
             WithResourceAnnotations];
      rewrite IH; reflexivity.
Qed.

Lemma template_calls_apply (calls : list ResourceOptionCall) :
  forall rt,
    applyOptions "applying template option: %w" (map template_option calls) rt
    = ({| rt_Name := rt_Name rt; rt_URITemplate := rt_URITemplate rt;
          rt_Description := lastOr (map Some (resource_descriptions calls)) (rt_Description rt);
          rt_MimeType := lastOr (map Some (resource_mimeTypes calls)) (rt_MimeType rt);
          rt_Annotations := lastOr (resource_annotations calls) (rt_Annotations rt) |}, None).
Proof.
  induction calls as [| call rest IH]; intros rt.
  - destruct rt; reflexivity.
  - destruct call;
      cbn [map applyOptions template_option WithTemplateDescription WithTemplateMimeType
             WithTemplateAnnotations];
      rewrite IH; reflexivity.
Qed.

(** X2. With the options the package provides for them, in any order and
    number, NewResource and NewResourceTemplate fail only on an empty
    required argument (the URI is checked before the name, the template name
    before the URI template): otherwise they succeed, the two required
    strings are stored as given, and the description, the MIME type and the
    annotations are those of the last option for each, nil when there is
    none. *)
Theorem NewResource_with_package_options :
  forall (a b : string) (calls : list ResourceOptionCall),
    NewResource a b (map resource_option calls)
    = (if String.eqb a "" then (None, Some (Errorf "resource URI cannot be empty" []))
       else if String.eqb b "" then (None, Some (Errorf "resource name cannot be empty" []))
       else (Some {| res_URI := a; res_Name := b;
                     res_Description := lastOr (map Some (resource_descriptions calls)) None;
                     res_MimeType := lastOr (map Some (resource_mimeTypes calls)) None;
                     res_Annotations := lastOr (resource_annotations calls) None |}, None))
    /\ NewResourceTemplate a b (map template_option calls)
       = (if String.eqb a "" then (None, Some (Errorf "template name cannot be empty" []))
          else if String.eqb b "" then (None, Some (Errorf "URI template cannot be empty" []))
          else (Some {| rt_Name := a; rt_URITemplate := b;
                        rt_Description := lastOr (map Some (resource_descriptions calls)) None;
                        rt_MimeType := lastOr (map Some (resource_mimeTypes calls)) None;
                        rt_Annotations := lastOr (resource_annotations calls) None |}, None)).
Proof.
  intros a b calls. unfold NewResource, NewResourceTemplate, construct.
  rewrite resource_calls_apply, template_calls_apply.
  destruct (String.eqb a ""), (String.eqb b ""); split; reflexivity.
Qed.

(** ** Prompts built with the package's options *)

Lemma argument_calls_apply (calls : list ArgumentOptionCall) :
  forall a,
    applyOptions "applying argument option: %w" (map argument_option calls) a
    = ({| pa_Name := pa_Name a;
          pa_Description :=
            lastOr (map Some (flat_map (fun c => match c with
                                                 | CallArgumentDescription d => [d]
                                                 | _ => []
                                                 end) calls)) (pa_Description a);
          pa_Required :=
            lastOr (map Some (flat_map (fun c => match c with
                                                 | CallArgumentRequired r => [r]
                                                 | _ => []
                                                 end) calls)) (pa_Required a) |}, None).
Proof.
  induction calls as [| call rest IH]; intros a.
  - destruct a; reflexivity.
  - destruct call;
      cbn [map applyOptions argument_option WithArgumentDescription WithArgumentRequired];
      rewrite IH; reflexivity.
Qed.

Lemma WithPromptArgument_calls (name : string) (acalls : list ArgumentOptionCall) (p : Prompt) :
  WithPromptArgument name (map argument_option acalls) p
  = ({| p_Name := p_Name p; p_Description := p_Description p;
        p_Arguments := p_Arguments p ++ [argument_of_call name acalls] |}, None).
Proof.
  unfold WithPromptArgument. rewrite argument_calls_apply. reflexivity.
Qed.

Lemma prompt_calls_apply (calls : list PromptOptionCall) :
  forall p,
    applyOptions "applying prompt option: %w" (map prompt_option calls) p
    = ({| p_Name := p_Name p;
          p_Description := lastOr (map Some (prompt_descriptions calls)) (p_Description p);
          p_Arguments := p_Arguments p ++ prompt_arguments calls |}, None).
Proof.
  induction calls as [| call rest IH]; intros p.
  - destruct p as [n d args]. cbn. rewrite app_nil_r. reflexivity.
  - destruct call as [d | name acalls]; cbn [map applyOptions prompt_option].
    + cbn [WithPromptDescription]. rewrite IH. reflexivity.
    + rewrite WithPromptArgument_calls. rewrite IH.
      cbn [p_Name p_Description p_Arguments].
      rewrite <- app_assoc. reflexivity.
Qed.

(** X3. With the options the package provides (WithPromptDescription and
    WithPromptArgument, the latter with WithArgumentDescription and
    WithArgumentRequired), in any order and number, NewPrompt fails only on
    an empty prompt name.  Otherwise the prompt returned has the name given,
    the description of the last WithPromptDescription, and one argument for
    each WithPromptArgument, in the order of the options, each with the
    description and the required flag of its last argument option.  No
    argument name is checked: empty and repeated names are kept. *)
Theorem NewPrompt_with_package_options :
  forall (name : string) (calls : list PromptOptionCall),
    NewPrompt name (map prompt_option calls)
    = (if String.eqb name "" then (None, Some (Errorf "prompt name cannot be empty" []))
       else (Some {| p_Name := name;
                     p_Description := lastOr (map Some (prompt_descriptions calls)) None;
                     p_Arguments := prompt_arguments calls |}, None)).
Proof.
  intros name calls. unfold NewPrompt, construct. rewrite prompt_calls_apply.
  destruct (String.eqb name ""); reflexivity.
Qed.

(** X4. An error of an argument option reaches the caller of NewPrompt
    wrapped twice: when the options before a WithPromptArgument succeed and
    one of its argument options returns err, NewPrompt returns no prompt and
    the error "applying prompt option: applying argument option: err",
    whatever options follow; the argument is not appended. *)
Theorem NewPrompt_argument_error_chain :
  forall (name argName : string) (before after : list PromptOption)
         (argOpts : list PromptArgumentOption) (p : Prompt) (err : error),
    name <> "" ->
    OptionsSucceed before (Prompt_init name) p ->
    OptionFails argOpts (PromptArgument_init argName) err ->
    WithPromptArgument argName argOpts p
    = (p, Some (Errorf "applying argument option: %w" [ArgError err]))
    /\ NewPrompt name (before ++ WithPromptArgument argName argOpts :: after)
       = (None,
          Some (Errorf "applying prompt option: %w"
                  [ArgError (Errorf "applying argument option: %w" [ArgError err])])).
Proof.
  intros name argName before after argOpts p err Hname Hbefore Hfail.
  assert (Harg : WithPromptArgument argName argOpts p
                 = (p, Some (Errorf "applying argument option: %w" [ArgError err]))).
  { unfold WithPromptArgument. fold (PromptArgument_init argName).
    destruct (applyOptions_fails "applying argument option: %w" _ _ _ Hfail) as [v Hv].
    rewrite Hv. reflexivity. }
  split; [exact Harg |].
  unfold NewPrompt. rewrite (eqb_empty_false _ Hname).
  apply construct_fails.
  clear Hname. induction Hbefore as [v | opt rest v v1 v2 Hopt _ IH].
  - eapply fails_here. exact Harg.
  - eapply fails_later; [exact Hopt | apply IH; assumption].
Qed.

Lemma NewPrompt_argument_error_chain_witness :
  NewPrompt "generateCode"
    [WithPromptDescription "Generates code";
     WithPromptArgument "language"
       [WithArgumentRequired true; fun a => (a, Some (Errorf "boom" []))];
     WithPromptArgument "style" []]
  = (None,
     Some (Errorf "applying prompt option: %w"
             [ArgError (Errorf "applying argument option: %w" [ArgError (Errorf "boom" [])])])).
Proof.
  apply (proj2 (NewPrompt_argument_error_chain "generateCode" "language"
                  [WithPromptDescription "Generates code"] [WithPromptArgument "style" []]
                  [WithArgumentRequired true; fun a => (a, Some (Errorf "boom" []))]
                  {| p_Name := "generateCode"; p_Description := Some "Generates code";
                     p_Arguments := [] |}
                  (Errorf "boom" [])
                  ltac:(discriminate)
                  ltac:(econstructor; [reflexivity | constructor])
                  ltac:(eapply fails_later; [reflexivity | eapply fails_here; reflexivity]))).
Defined.

(** ** Completion results and requests built with the package's own values *)

Lemma construct_succeed_iff {T : Type} (wrap : string) (opts : list (ConfigOption T)) (v v' : T) :
  construct wrap opts v = (Some v', None) <-> OptionsSucceed opts v v'.
Proof.
  split; [| apply construct_succeed].
  unfold construct. intros H.
  destruct (applyOptions wrap opts v) as [w [e |]] eqn:Happ; inversion H; subst.
  exact (applyOptions_nil_error _ _ _ _ Happ).
Qed.

Lemma construct_failure_or_success {T : Type} (wrap : string) (opts : list (ConfigOption T))
    (v : T) :
  is_failure (construct wrap opts v) \/ exists v', construct wrap opts v = (Some v', None).
Proof.
  unfold construct. destruct (applyOptions wrap opts v) as [w [e |]].
  - left. exists e. reflexivity.
  - right. exists w. reflexivity.
Qed.

Lemma is_failure_not_success {T : Type} (r : option T * option error) (v : T) :
  is_failure r -> r <> (Some v, None).
Proof. intros [e ->]. discriminate. Qed.

Lemma result_calls_apply (calls : list ResultOptionCall) :
  forall r,
    (forallb (fun total => len (ci_Values (cres_Completion r)) <=? total) (result_totals calls)
     = true ->
     applyOptions "applying complete result option: %w" (map result_option calls) r
     = ({| cres_Completion :=
             {| ci_Values := ci_Values (cres_Completion r);
                ci_Total := lastOr (map Some (result_totals calls)) (ci_Total (cres_Completion r));
                ci_HasMore := lastOr (map Some (result_hasMores calls))
                                (ci_HasMore (cres_Completion r)) |} |}, None))
    /\ (forallb (fun total => len (ci_Values (cres_Completion r)) <=? total)
          (result_totals calls) = false ->
        exists v err,
          applyOptions "applying complete result option: %w" (map result_option calls) r
          = (v, Some err)).
Proof.
  induction calls as [| call rest IH]; intros [[values total hasMore]].
  - split; [reflexivity | discriminate].
  - destruct call as [t | b];
      cbn [map applyOptions result_option result_totals flat_map app forallb];
      unfold WithResultTotal, WithHasMore;
      cbn [cres_Completion ci_Values ci_Total ci_HasMore].
    + fold (result_totals rest).
      destruct (Z.ltb_spec t (len values)) as [Hlt | Hge].
      * replace (len values <=? t) with false by (symmetry; apply Z.leb_gt; lia).
        split; [discriminate | intros _; do 2 eexists; reflexivity].
      * replace (len values <=? t) with true by (symmetry; apply Z.leb_le; lia).
        exact (IH {| cres_Completion := {| ci_Values := values; ci_Total := Some t;
                                           ci_HasMore := hasMore |} |}).
    + fold (result_totals rest).
      exact (IH {| cres_Completion := {| ci_Values := values; ci_Total := total;
                                         ci_HasMore := Some b |} |}).
Qed.

(** X5. With WithResultTotal and WithHasMore in any order and number,
    NewCompleteResult succeeds exactly when there are at most 100 values and
    every total given is at least the number of values (not only the last
    one); the result then carries the values unchanged, the last total and
    the last hasMore flag, nil where none was given.  In every other case it
    returns an error and no result. *)
Theorem NewCompleteResult_with_package_options :
  forall (values : list string) (calls : list ResultOptionCall) (r : CompleteResult),
    (NewCompleteResult values (map result_option calls) = (Some r, None)
     <-> len values <= 100
         /\ Forall (fun total => len values <= total) (result_totals calls)
         /\ r = {| cres_Completion :=
                     {| ci_Values := values;
                        ci_Total := lastOr (map Some (result_totals calls)) None;
                        ci_HasMore := lastOr (map Some (result_hasMores calls)) None |} |})
    /\ (len values > 100 \/ Exists (fun total => total < len values) (result_totals calls) ->
        is_failure (NewCompleteResult values (map result_option calls))).
Proof.
  intros values calls r.
  assert (Hall : forallb (fun total => len values <=? total) (result_totals calls) = true
                 <-> Forall (fun total => len values <= total) (result_totals calls)).
  { rewrite forallb_forall, Forall_forall.
    split; intros H x Hx; specialize (H x Hx); [apply Z.leb_le | apply Z.leb_le]; exact H. }
  destruct (result_calls_apply calls (CompleteResult_init values)) as [Hok Hbad].
  cbn [CompleteResult_init cres_Completion ci_Values ci_Total ci_HasMore] in Hok, Hbad.
  unfold NewCompleteResult, construct.
  destruct (Z.gtb_spec (len values) 100) as [Hgt | Hle].
  - split.
    + split; [discriminate | intros [H _]; lia].
    + intros _. eexists. reflexivity.
  - destruct (forallb (fun total => len values <=? total) (result_totals calls)) eqn:Hfb.
    + rewrite (Hok eq_refl). split.
      * split.
        -- intros H. inversion H. split; [lia |]. split; [apply Hall; reflexivity | reflexivity].
        -- intros (_ & _ & ->). reflexivity.
      * intros [Hgt | Hex]; [lia |].
        exfalso. apply Exists_exists in Hex. destruct Hex as (t & Hin & Hlt).
        assert (Hf : Forall (fun total => len values <= total) (result_totals calls))
          by (apply Hall; reflexivity).
        rewrite Forall_forall in Hf. specialize (Hf t Hin). lia.
    + destruct (Hbad eq_refl) as (v & err & Happ). rewrite Happ. split.
      * split; [discriminate |].
        intros (_ & Hf & _). apply Hall in Hf. discriminate.
      * intros _. eexists. reflexivity.
Qed.

Lemma NewCompleteResult_with_package_options_witness :
  NewCompleteResult ["prod"; "pre-prod"; "preview"]
    (map result_option [CallResultTotal 5; CallHasMore true])
  = (Some {| cres_Completion := {| ci_Values := ["prod"; "pre-prod"; "preview"];
                                   ci_Total := Some 5; ci_HasMore := Some true |} |}, None)
  /\ is_failure (NewCompleteResult ["prod"; "pre-prod"; "preview"]
                   (map result_option [CallResultTotal 2; CallResultTotal 5])).
Proof.
  split.
  - apply (proj1 (NewCompleteResult_with_package_options ["prod"; "pre-prod"; "preview"]
                    [CallResultTotal 5; CallHasMore true] _)).
    split; [vm_compute; discriminate |]. split; [| reflexivity].
    constructor; [vm_compute; discriminate | constructor].
  - apply (proj2 (NewCompleteResult_with_package_options ["prod"; "pre-prod"; "preview"]
                    [CallResultTotal 2; CallResultTotal 5] (CompleteResult_init []))).
    right. constructor. vm_compute. reflexivity.
Defined.

(** X6. A reference made by NewPromptReference or NewResourceReference
    passes validateReference exactly when the string it was made from is not
    empty.  Hence NewCompleteRequest with such a reference returns a request
    exactly when that string and the argument name are both non-empty and
    the options succeed, and the request then is the one the options
    configured from method "completion/complete", the reference and the
    argument name and value as given. *)
Theorem NewCompleteRequest_with_package_references :
  forall (s argName argValue : string) (opts : list CompleteRequestOption)
         (req : CompleteRequest),
    (validateReference (NewPromptReference s) = None <-> s <> "")
    /\ (validateReference (NewResourceReference s) = None <-> s <> "")
    /\ (NewCompleteRequest (NewPromptReference s) argName argValue opts = (Some req, None)
        <-> s <> "" /\ argName <> ""
            /\ OptionsSucceed opts
                 {| creq_Method := "completion/complete";
                    creq_Params :=
                      {| cp_Ref := {| ref_Type := "ref/prompt"; ref_Name := Some s;
                                      ref_URI := None |};
                         cp_Argument := {| arg_Name := argName; arg_Value := argValue |} |} |}
                 req)
    /\ (NewCompleteRequest (NewResourceReference s) argName argValue opts = (Some req, None)
        <-> s <> "" /\ argName <> ""
            /\ OptionsSucceed opts
                 {| creq_Method := "completion/complete";
                    creq_Params :=
                      {| cp_Ref := {| ref_Type := "ref/resource"; ref_Name := None;
                                      ref_URI := Some s |};
                         cp_Argument := {| arg_Name := argName; arg_Value := argValue |} |} |}
                 req).
Proof.
  intros s argName argValue opts req.
  unfold NewCompleteRequest, validateReference, NewPromptReference, NewResourceReference,
    CompleteRequest_init.
  cbn [ref_Type ref_Name ref_URI String.eqb Ascii.eqb Bool.eqb].
  cbn.
  destruct (String.eqb_spec s "") as [-> | Hs];
    destruct (String.eqb_spec argName "") as [-> | Ha];
    repeat match goal with |- _ /\ _ => split end;
    try (split; [discriminate | intros H; exfalso; tauto]);
    try (split; [intros _; assumption | reflexivity]);
    try (rewrite construct_succeed_iff; tauto).
Qed.

(** ** Logging *)

Ltac left_most_eq :=
  match goal with
  | E : String.eqb _ _ = true |- _ =>
      apply String.eqb_eq in E; rewrite E; repeat (first [left; reflexivity | right])
  end.

Lemma validateLoggingLevel_accepts (level : LoggingLevel) :
  validateLoggingLevel level = None <-> In level LoggingLevels.
Proof.
  unfold validateLoggingLevel, LoggingLevels, LogLevelDebug, LogLevelInfo, LogLevelNotice,
    LogLevelWarning, LogLevelError, LogLevelCritical, LogLevelAlert, LogLevelEmergency.
  split.
  - intros H.
    destruct (String.eqb level "debug") eqn:?; [left_most_eq |].
    destruct (String.eqb level "info") eqn:?; [left_most_eq |].
    destruct (String.eqb level "notice") eqn:?; [left_most_eq |].
    destruct (String.eqb level "warning") eqn:?; [left_most_eq |].
    destruct (String.eqb level "error") eqn:?; [left_most_eq |].
    destruct (String.eqb level "critical") eqn:?; [left_most_eq |].
    destruct (String.eqb level "alert") eqn:?; [left_most_eq |].
    destruct (String.eqb level "emergency") eqn:?; [left_most_eq |].
    simpl in H. discriminate.
  - intros H. simpl in H. decompose [or] H; subst; try reflexivity; contradiction.
Qed.

Lemma validateLoggingLevel_rejects (level : LoggingLevel) :
  ~ In level LoggingLevels ->
  validateLoggingLevel level = Some (Errorf "invalid logging level: %s" [ArgString level]).
Proof.
  intros Hnot. destruct (validateLoggingLevel level) as [e |] eqn:Hv.
  - unfold validateLoggingLevel in Hv.
    destruct (_ || _) in Hv; [discriminate | symmetry; exact Hv].
  - exfalso. apply Hnot. apply validateLoggingLevel_accepts. exact Hv.
Qed.

(** X7. NewSetLevelRequest and NewLoggingMessage accept exactly the eight
    levels the package declares.  NewSetLevelRequest returns a request
    exactly when the level is one of them and the options succeed;
    NewLoggingMessage returns a message exactly when the level is one of
    them, the data is not nil and the options succeed.  For any other level
    both return the error "invalid logging level: <level>" itself, not
    wrapped, whatever the data and the options are. *)
Theorem logging_constructors_accept_iff :
  forall (Any : Type) (level : LoggingLevel) (data : option Any)
         (sopts : list SetLevelRequestOption) (mopts : list (LoggingMessageOption Any))
         (req : SetLevelRequest) (msg : LoggingMessageNotification Any),
    (NewSetLevelRequest level sopts = (Some req, None)
     <-> In level LoggingLevels /\ OptionsSucceed sopts (SetLevelRequest_init level) req)
    /\ (NewLoggingMessage level data mopts = (Some msg, None)
        <-> In level LoggingLevels /\ data <> None
            /\ OptionsSucceed mopts (LoggingMessage_init level data) msg)
    /\ (~ In level LoggingLevels ->
        NewSetLevelRequest level sopts
        = (None, Some (Errorf "invalid logging level: %s" [ArgString level]))
        /\ NewLoggingMessage level data mopts
           = (None, Some (Errorf "invalid logging level: %s" [ArgString level]))).
Proof.
  intros Any level data sopts mopts req msg.
  unfold NewSetLevelRequest, NewLoggingMessage.
  destruct (validateLoggingLevel level) as [e |] eqn:Hv.
  - assert (Hnot : ~ In level LoggingLevels).
    { intros Hin. apply validateLoggingLevel_accepts in Hin. congruence. }
    split; [| split].
    + split; [discriminate | intros [Hin _]; contradiction].
    + split; [discriminate | intros [Hin _]; contradiction].
    + intros _. rewrite (validateLoggingLevel_rejects _ Hnot) in Hv.
      inversion Hv. split; reflexivity.
  - assert (Hin : In level LoggingLevels) by (apply validateLoggingLevel_accepts; exact Hv).
    split; [| split].
    + rewrite construct_succeed_iff. tauto.
    + destruct data as [d |].
      * rewrite construct_succeed_iff. split.
        -- intros H. split; [exact Hin |]. split; [discriminate | exact H].
        -- intros (_ & _ & H). exact H.
      * split; [discriminate | intros (_ & H & _); contradiction].
    + intros Hnot. contradiction.
Qed.

Lemma logging_constructors_accept_iff_witness :
  NewSetLevelRequest "verbose" []
  = (None, Some (Errorf "invalid logging level: %s" [ArgString "verbose"]))
  /\ NewLoggingMessage (Any := string) "verbose" None [WithLogger ""]
     = (None, Some (Errorf "invalid logging level: %s" [ArgString "verbose"])).
Proof.
  apply (proj2 (proj2 (logging_constructors_accept_iff string "verbose" None []
                         [WithLogger ""] (SetLevelRequest_init "")
                         (LoggingMessage_init "" None)))).
  simpl. intros H. decompose [or] H; try discriminate; contradiction.
Defined.

Lemma logger_calls_apply {Any : Type} (names : list string) :
  forall msg : LoggingMessageNotification Any,
    (existsb (fun name => String.eqb name "") names = false ->
     applyOptions "applying logging message option: %w" (map WithLogger names) msg
     = ({| lmn_Method := lmn_Method msg;
           lmn_Params := {| lmp_Level := lmp_Level (lmn_Params msg);
                            lmp_Data := lmp_Data (lmn_Params msg);
                            lmp_Logger := lastOr (map Some names)
                                            (lmp_Logger (lmn_Params msg)) |} |}, None))
    /\ (existsb (fun name => String.eqb name "") names = true ->
        exists v,
          applyOptions "applying logging message option: %w" (map WithLogger names) msg
          = (v, Some (Errorf "applying logging message option: %w"
                        [ArgError (Errorf "logger name cannot be empty" [])]))).
Proof.
  induction names as [| name rest IH]; intros [method [level data logger]].
  - split; [reflexivity | discriminate].
  - cbn [map applyOptions existsb]. unfold WithLogger at 1 3.
    cbn [lmn_Method lmn_Params lmp_Level lmp_Data lmp_Logger].
    destruct (String.eqb name "").
    + split; [discriminate | intros _; eexists; reflexivity].
    + cbn [orb].
      exact (IH {| lmn_Method := method;
                   lmn_Params := {| lmp_Level := level; lmp_Data := data;
                                    lmp_Logger := Some name |} |}).
Qed.

Lemma NewLoggingMessage_loggers {Any : Type} (level : LoggingLevel) (data : Any)
    (names : list string) :
  validateLoggingLevel level = None ->
  NewLoggingMessage level (Some data) (map WithLogger names)
  = message_with_loggers level data names.
Proof.
  intros Hv. unfold NewLoggingMessage, message_with_loggers, construct. rewrite Hv.
  destruct (logger_calls_apply names (LoggingMessage_init level (Some data))) as [Hok Hbad].
  destruct (existsb _ names).
  - destruct (Hbad eq_refl) as [v Hv']. rewrite Hv'. reflexivity.
  - rewrite (Hok eq_refl). reflexivity.
Qed.

(** X8. The five constructors by level (NewDebugMessage, NewInfoMessage,
    NewWarningMessage, NewErrorMessage, NewCriticalMessage) never fail on the
    level.  With non-nil data and any number of WithLogger options they
    return the message of their level with the data and the last logger name
    (no logger for no option), unless one of the names is empty: then they
    return no message and the error "applying logging message option: logger
    name cannot be empty", also when a later option gives a proper name. *)
Theorem level_messages_with_loggers :
  forall (Any : Type) (data : Any) (names : list string),
    NewDebugMessage (Some data) (map WithLogger names)
    = message_with_loggers "debug" data names
    /\ NewInfoMessage (Some data) (map WithLogger names)
       = message_with_loggers "info" data names
    /\ NewWarningMessage (Some data) (map WithLogger names)
       = message_with_loggers "warning" data names
    /\ NewErrorMessage (Some data) (map WithLogger names)
       = message_with_loggers "error" data names
    /\ NewCriticalMessage (Some data) (map WithLogger names)
       = message_with_loggers "critical" data names.
Proof.
  intros Any data names.
  unfold NewDebugMessage, NewInfoMessage, NewWarningMessage, NewErrorMessage,
    NewCriticalMessage.
  repeat match goal with |- _ /\ _ => split end;
    apply NewLoggingMessage_loggers; reflexivity.
Qed.

(** ** Validation of sampling parameters *)

Lemma rangePriorities_accepts (entries : list (string * option float64)) :
  rangePriorities entries = None
  <-> Forall (fun e => unit_interval_or_nil (snd e)) entries.
Proof.
  induction entries as [| [name [p |]] rest IH]; cbn [rangePriorities].
  - split; [constructor | reflexivity].
  - destruct (priority_out_of_range p) eqn:Hp.
    + split; [discriminate |]. intros H. inversion H as [| ? ? Hhd _]; subst.
      cbn in Hhd. congruence.
    + rewrite IH. split.
      * intros H. constructor; [exact Hp | exact H].
      * intros H. inversion H; assumption.
  - rewrite IH. split.
    + intros H. constructor; [exact I | exact H].
    + intros H. inversion H; assumption.
Qed.

Lemma rangePriorities_reports (entries : list (string * option float64)) (err : error) :
  rangePriorities entries = Some err ->
  exists name p,
    In (name, Some p) entries /\ priority_out_of_range p = true
    /\ err = Errorf "%s must be between 0 and 1, got %f" [ArgString name; ArgFloat p].
Proof.
  induction entries as [| [name [p |]] rest IH]; cbn [rangePriorities]; [discriminate | |].
  - destruct (priority_out_of_range p) eqn:Hp.
    + intros H. inversion H. exists name, p. split; [left; reflexivity | split; auto].
    + intros H. destruct (IH H) as (n & q & Hin & Hq & He).
      exists n, q. split; [right; exact Hin | split; assumption].
  - intros H. destruct (IH H) as (n & q & Hin & Hq & He).
    exists n, q. split; [right; exact Hin | split; assumption].
Qed.

Lemma rangeFirst_Permutation (name : string) (entries : list (string * option float64)) :
  Permutation entries (rangeFirst name entries).
Proof.
  unfold rangeFirst. induction entries as [| e rest IH]; [constructor |].
  cbn [filter]. destruct (String.eqb (fst e) name); cbn [negb app].
  - constructor. exact IH.
  - apply Permutation_cons_app. exact IH.
Qed.

Lemma ModelPreferences_accepts (rangeOrder : list (string * option float64) ->
                                list (string * option float64)) (mp : ModelPreferences) :
  (forall entries, Permutation entries (rangeOrder entries)) ->
  ModelPreferences_Validate rangeOrder (Some mp) = None
  <-> unit_interval_or_nil (mp_CostPriority mp)
      /\ unit_interval_or_nil (mp_SpeedPriority mp)
      /\ unit_interval_or_nil (mp_IntelligencePriority mp).
Proof.
  intros Hperm. unfold ModelPreferences_Validate. rewrite rangePriorities_accepts.
  split.
  - intros H.
    apply (Permutation_Forall (Permutation_sym (Hperm (ModelPreferences_priorities mp)))) in H.
    unfold ModelPreferences_priorities in H.
    inversion H as [| ? ? H1 H']; subst. inversion H' as [| ? ? H2 H'']; subst.
    inversion H'' as [| ? ? H3 _]; subst. auto.
  - intros (H1 & H2 & H3).
    apply (Permutation_Forall (Hperm (ModelPreferences_priorities mp))).
    unfold ModelPreferences_priorities. repeat constructor; assumption.
Qed.

(** X9. Whether ModelPreferences.Validate accepts does not depend on the
    order in which Go ranges over its map of priorities: for every order
    that yields each entry once, it returns nil exactly when each of
    CostPriority, SpeedPriority and IntelligencePriority is nil or lies in
    [0, 1] (a NaN priority passes, both comparisons being false on it).  The
    hints are not examined, and a nil receiver is accepted. *)
Theorem ModelPreferences_Validate_accepts_iff :
  forall (rangeOrder : list (string * option float64) -> list (string * option float64))
         (mp : ModelPreferences),
    (forall entries, Permutation entries (rangeOrder entries)) ->
    (ModelPreferences_Validate rangeOrder (Some mp) = None
     <-> unit_interval_or_nil (mp_CostPriority mp)
         /\ unit_interval_or_nil (mp_SpeedPriority mp)
         /\ unit_interval_or_nil (mp_IntelligencePriority mp))
    /\ ModelPreferences_Validate rangeOrder None = None.
Proof.
  intros rangeOrder mp Hperm. split; [| reflexivity].
  apply ModelPreferences_accepts. exact Hperm.
Qed.

Lemma ModelPreferences_Validate_accepts_iff_witness :
  ModelPreferences_Validate (@rev _)
    (Some {| mp_Hints := [{| mh_Name := Some "claude" |}];
             mp_CostPriority := Some (float64_of_int 1);
             mp_SpeedPriority := None;
             mp_IntelligencePriority := Some S754_nan |}) = None.
Proof.
  apply (proj1 (ModelPreferences_Validate_accepts_iff (@rev _)
                  {| mp_Hints := [{| mh_Name := Some "claude" |}];
                     mp_CostPriority := Some (float64_of_int 1);
                     mp_SpeedPriority := None;
                     mp_IntelligencePriority := Some S754_nan |}
                  (fun entries => Permutation_rev entries))).
  split; [vm_compute; reflexivity | split; [exact I | vm_compute; reflexivity]].
Defined.

(** X10. Which error ModelPreferences.Validate returns is not determined by
    its receiver when several priorities are out of range.  The error always
    names a priority that is set and out of range, with its value; and for
    each such priority there is an order of the map iteration under which it
    is the one reported. *)
Theorem ModelPreferences_Validate_reported_priority :
  forall (mp : ModelPreferences),
    (forall rangeOrder err,
        (forall entries, Permutation entries (rangeOrder entries)) ->
        ModelPreferences_Validate rangeOrder (Some mp) = Some err ->
        exists name p,
          In (name, Some p) (ModelPreferences_priorities mp)
          /\ priority_out_of_range p = true
          /\ err = Errorf "%s must be between 0 and 1, got %f" [ArgString name; ArgFloat p])
    /\ (forall name p,
           In (name, Some p) (ModelPreferences_priorities mp) ->
           priority_out_of_range p = true ->
           exists rangeOrder,
             (forall entries, Permutation entries (rangeOrder entries))
             /\ ModelPreferences_Validate rangeOrder (Some mp)
                = Some (Errorf "%s must be between 0 and 1, got %f"
                          [ArgString name; ArgFloat p])).
Proof.
  intros mp. split.
  - intros rangeOrder err Hperm H. unfold ModelPreferences_Validate in H.
    destruct (rangePriorities_reports _ _ H) as (name & p & Hin & Hp & He).
    exists name, p. split; [| split; assumption].
    apply (Permutation_in _ (Permutation_sym (Hperm (ModelPreferences_priorities mp)))).
    exact Hin.
  - intros name p Hin Hp. exists (rangeFirst name).
    split; [intros entries; apply rangeFirst_Permutation |].
    unfold ModelPreferences_Validate, ModelPreferences_priorities in *.
    destruct Hin as [Hin | [Hin | [Hin | []]]]; inversion Hin as [[Hname Hprio]];
      subst name; cbn -[priority_out_of_range]; rewrite Hprio, Hp; reflexivity.
Qed.

Lemma ModelPreferences_Validate_reported_priority_witness :
  exists first second,
    (forall entries, Permutation entries (first entries))
    /\ (forall entries, Permutation entries (second entries))
    /\ ModelPreferences_Validate first
         (Some {| mp_Hints := []; mp_CostPriority := Some (float64_of_int 2);
                  mp_SpeedPriority := Some (float64_of_int (-1));
                  mp_IntelligencePriority := None |})
       = Some (Errorf "%s must be between 0 and 1, got %f"
                 [ArgString "costPriority"; ArgFloat (float64_of_int 2)])
    /\ ModelPreferences_Validate second
         (Some {| mp_Hints := []; mp_CostPriority := Some (float64_of_int 2);
                  mp_SpeedPriority := Some (float64_of_int (-1));
                  mp_IntelligencePriority := None |})
       = Some (Errorf "%s must be between 0 and 1, got %f"
                 [ArgString "speedPriority"; ArgFloat (float64_of_int (-1))]).
Proof.
  destruct (ModelPreferences_Validate_reported_priority
              {| mp_Hints := []; mp_CostPriority := Some (float64_of_int 2);
                 mp_SpeedPriority := Some (float64_of_int (-1));
                 mp_IntelligencePriority := None |}) as [_ Hany].
  destruct (Hany "costPriority" (float64_of_int 2)) as (first & Hp1 & H1);
    [left; reflexivity | vm_compute; reflexivity |].
  destruct (Hany "speedPriority" (float64_of_int (-1))) as (second & Hp2 & H2);
    [right; left; reflexivity | vm_compute; reflexivity |].
  exists first, second. repeat match goal with |- _ /\ _ => split end; assumption.
Defined.

(** X11. CreateMessageParams.Validate returns nil exactly when there is at
    least one message, MaxTokens is positive, the temperature is nil or is
    neither below 0 nor above 1 (so a NaN temperature passes),
    IncludeContext is nil or one of none / thisServer / allServers, and the
    model preferences are nil or have each priority nil or neither below 0
    nor above 1, whatever the order of the map iteration in
    ModelPreferences.Validate.  It never looks inside the messages: any two
    non-empty message lists give the same result, so a message with an
    unknown role is accepted here, while Message.Validate accepts a message
    exactly when its role is user or assistant. *)
Theorem CreateMessageParams_Validate_accepts_iff :
  forall (Any : Type)
         (rangeOrder : list (string * option float64) -> list (string * option float64))
         (p : CreateMessageParams Any),
    (forall entries, Permutation entries (rangeOrder entries)) ->
    (CreateMessageParams_Validate rangeOrder p = None
     <-> cmp_Messages p <> []
         /\ 0 < cmp_MaxTokens p
         /\ unit_interval_or_nil (cmp_Temperature p)
         /\ known_context_or_nil (cmp_IncludeContext p)
         /\ match cmp_ModelPreferences p with
            | Some mp =>
                unit_interval_or_nil (mp_CostPriority mp)
                /\ unit_interval_or_nil (mp_SpeedPriority mp)
                /\ unit_interval_or_nil (mp_IntelligencePriority mp)
            | None => True
            end)
    /\ (forall messages,
           messages <> [] -> cmp_Messages p <> [] ->
           CreateMessageParams_Validate rangeOrder (with_messages messages p)
           = CreateMessageParams_Validate rangeOrder p)
    /\ (forall m, Message_Validate m = None <-> known_role (msg_Role m)).
Proof.
  intros Any rangeOrder p Hperm. split; [| split].
  - unfold CreateMessageParams_Validate.
    destruct p as [messages prefs sys ic temp maxTokens stops meta].
    cbn [cmp_Messages cmp_ModelPreferences cmp_IncludeContext cmp_Temperature cmp_MaxTokens].
    destruct messages as [| m rest].
    { split; [discriminate | intros [H _]; contradiction]. }
    replace (len (m :: rest) =? 0) with false
      by (symmetry; apply Z.eqb_neq; unfold len; cbn [List.length]; lia).
    destruct (Z.leb_spec maxTokens 0) as [Hle | Hgt].
    { split; [discriminate | intros (_ & H & _); lia]. }
    assert (Htemp : (match temp with
                     | Some t => f64_lt t (float64_of_int 0) || f64_gt t (float64_of_int 1)
                     | None => false
                     end) = false <-> unit_interval_or_nil temp).
    { destruct temp; cbn; unfold priority_out_of_range; tauto. }
    destruct (match temp with Some _ => _ | None => false end).
    { split; [discriminate |]. intros (_ & _ & H & _). apply Htemp in H. discriminate. }
    assert (Ht : unit_interval_or_nil temp) by (apply Htemp; reflexivity).
    destruct ic as [ic |].
    + unfold IncludeContextNone, IncludeContextThisServer, IncludeContextAllServers,
        known_context_or_nil.
      destruct (String.eqb_spec ic "none") as [Hn | Hn];
        [| destruct (String.eqb_spec ic "thisServer") as [Hs | Hs];
           [| destruct (String.eqb_spec ic "allServers") as [Ha | Ha]]];
        cbn [orb];
        try (split; [discriminate | intros (_ & _ & _ & [H | [H | H]] & _); contradiction]);
        (destruct prefs as [mp |];
         [ destruct (ModelPreferences_Validate rangeOrder (Some mp)) as [e |] eqn:Hmp;
           [ split; [discriminate |];
             intros (_ & _ & _ & _ & H);
             apply (ModelPreferences_accepts rangeOrder mp Hperm) in H; congruence
           | apply (ModelPreferences_accepts rangeOrder mp Hperm) in Hmp;
             split; [intros _ |]; [repeat split; try lia; try discriminate; tauto | reflexivity] ]
         | split; [intros _ |]; [repeat split; try lia; try discriminate; tauto | reflexivity] ]).
    + destruct prefs as [mp |].
      * destruct (ModelPreferences_Validate rangeOrder (Some mp)) as [e |] eqn:Hmp.
        -- split; [discriminate |]. intros (_ & _ & _ & _ & H).
           apply (ModelPreferences_accepts rangeOrder mp Hperm) in H. congruence.
        -- apply (ModelPreferences_accepts rangeOrder mp Hperm) in Hmp.
           split; [intros _ |]; [repeat split; try lia; try discriminate; tauto | reflexivity].
      * split; [intros _ |]; [repeat split; try lia; try discriminate; tauto | reflexivity].
  - intros messages Hm Hp. unfold CreateMessageParams_Validate, with_messages.
    cbn [cmp_Messages cmp_ModelPreferences cmp_IncludeContext cmp_Temperature cmp_MaxTokens].
    destruct messages as [| m rest]; [contradiction |].
    destruct (cmp_Messages p) as [| m' rest']; [contradiction |].
    replace (len (m :: rest) =? 0) with false
      by (symmetry; apply Z.eqb_neq; unfold len; cbn [List.length]; lia).
    replace (len (m' :: rest') =? 0) with false
      by (symmetry; apply Z.eqb_neq; unfold len; cbn [List.length]; lia).
    reflexivity.
  - intros m. unfold Message_Validate, known_role, RoleUser, RoleAssistant.
    destruct (String.eqb_spec (msg_Role m) "user") as [Hu | Hu];
      [| destruct (String.eqb_spec (msg_Role m) "assistant") as [Ha | Ha]]; cbn [orb].
    + tauto.
    + tauto.
    + split; [discriminate | intros [H | H]; contradiction].
Qed.

Lemma CreateMessageParams_Validate_accepts_iff_witness :
  CreateMessageParams_Validate (Any := string) (fun entries => entries)
    {| cmp_Messages := [{| sm_Role := "robot"; sm_Content := Content_zero |}];
       cmp_ModelPreferences :=
         Some {| mp_Hints := []; mp_CostPriority := None;
                 mp_SpeedPriority := Some (float64_of_int 0);
                 mp_IntelligencePriority := None |};
       cmp_SystemPrompt := None;
       cmp_IncludeContext := Some IncludeContextThisServer;
       cmp_Temperature := Some (float64_of_int 1);
       cmp_MaxTokens := 100;
       cmp_StopSequences := [];
       cmp_Metadata := [] |} = None.
Proof.
  apply (proj1 (CreateMessageParams_Validate_accepts_iff string (fun entries => entries) _
                  (fun entries => Permutation_refl entries))).
  cbn. repeat match goal with |- _ /\ _ => split end;
    try discriminate; try lia; try (vm_compute; reflexivity); try exact I.
  right. left. reflexivity.
Defined.

(** ** Progress notifications *)

(** X12. NewProgressPercentage rejects a percentage below 0 or above 100
    with its own error, and otherwise returns the notification with that
    percentage as progress and no total: the check of
    NewProgressNotification for a negative progress can never fail in it.  A
    percentage on which both comparisons are false, as NaN, is accepted. *)
Theorem NewProgressPercentage_result :
  forall (token : ProgressToken) (percentage : float64),
    NewProgressPercentage token percentage
    = (if f64_lt percentage (float64_of_int 0) || f64_gt percentage (float64_of_int 100)
       then (None, Some (Errorf "percentage must be between 0 and 100" []))
       else (Some {| pn_Method := "notifications/progress";
                     pn_Params := {| pp_ProgressToken := token; pp_Progress := percentage;
                                     pp_Total := None |} |}, None))
    /\ NewProgressPercentage token S754_nan
       = (Some {| pn_Method := "notifications/progress";
                  pn_Params := {| pp_ProgressToken := token; pp_Progress := S754_nan;
                                  pp_Total := None |} |}, None).
Proof.
  intros token percentage. split; [| reflexivity].
  unfold NewProgressPercentage, NewProgressNotification.
  destruct (f64_lt percentage (float64_of_int 0)); [reflexivity |].
  destruct (f64_gt percentage (float64_of_int 100)); reflexivity.
Qed.

Lemma NewProgressWithItems_accepted (token : ProgressToken) (completed total : Z) :
  0 <= completed <= total -> 0 < total ->
  (items_accepted completed total = true ->
   NewProgressWithItems token completed total
   = (Some {| pn_Method := "notifications/progress";
              pn_Params := {| pp_ProgressToken := token;
                              pp_Progress := items_percentage completed total;
                              pp_Total := Some (float64_of_int total) |} |}, None))
  /\ (items_accepted completed total = false ->
      is_failure (NewProgressWithItems token completed total)).
Proof.
  intros Hc Ht. unfold NewProgressWithItems, items_accepted.
  replace (completed <? 0) with false by (symmetry; apply Z.ltb_ge; lia).
  replace (total <=? 0) with false by (symmetry; apply Z.leb_gt; lia).
  replace (completed >? total) with false
    by (symmetry; rewrite Z.gtb_ltb; apply Z.ltb_ge; lia).
  unfold NewProgressNotification, construct.
  cbn [applyOptions]. unfold WithProgressTotal, ProgressNotification_init.
  cbn [pn_Params pn_Method pp_Progress pp_ProgressToken].
  destruct (f64_lt (items_percentage completed total) (float64_of_int 0)).
  { split; [discriminate | intros _; eexists; reflexivity]. }
  destruct (f64_le (float64_of_int total) (float64_of_int 0)).
  { split; [discriminate | intros _; eexists; reflexivity]. }
  destruct (f64_gt (items_percentage completed total) (float64_of_int total)).
  { split; [discriminate | intros _; eexists; reflexivity]. }
  split; [reflexivity | discriminate].
Qed.

Lemma items_accepted_upto_spec (bound : nat) :
  items_accepted_upto bound = true ->
  forall completed total : Z,
    0 <= completed <= total -> 1 <= total <= Z.of_nat bound ->
    items_accepted completed total = (100 * completed <=? total * total).
Proof.
  unfold items_accepted_upto. intros Hall completed total Hc Ht.
  rewrite forallb_forall in Hall.
  assert (Hin : In (Z.to_nat total) (seq 1 bound)) by (apply in_seq; lia).
  specialize (Hall (Z.to_nat total) Hin).
  rewrite forallb_forall in Hall.
  assert (Hin' : In (Z.to_nat completed) (seq 0 (S (Z.to_nat total)))) by (apply in_seq; lia).
  specialize (Hall (Z.to_nat completed) Hin').
  rewrite !Z2Nat.id in Hall by lia.
  apply Bool.eqb_prop in Hall. exact Hall.
Qed.

Lemma items_accepted_upto_200 : items_accepted_upto 200 = true.
Proof. vm_compute. reflexivity. Qed.

(** X13. For every total from 1 to 200 and every number of completed items
    from 0 to the total, NewProgressWithItems returns a notification exactly
    when 100 * completed <= total * total, that is when the percentage does
    not exceed the number of items, which the call passes as the total of
    the notification.  So for a total below 100 the notification of the
    completed operation (completed = total) can never be built, and from 100
    items on every count is accepted.  (float64 arithmetic evaluated on each
    of the 20300 pairs.) *)
Theorem NewProgressWithItems_small_totals :
  forall (token : ProgressToken) (completed total : Z),
    0 <= completed <= total -> 1 <= total <= 200 ->
    (100 * completed <= total * total ->
     NewProgressWithItems token completed total
     = (Some {| pn_Method := "notifications/progress";
                pn_Params := {| pp_ProgressToken := token;
                                pp_Progress := items_percentage completed total;
                                pp_Total := Some (float64_of_int total) |} |}, None))
    /\ (total * total < 100 * completed ->
        is_failure (NewProgressWithItems token completed total))
    /\ (completed = total -> total < 100 ->
        is_failure (NewProgressWithItems token completed total)).
Proof.
  intros token completed total Hc Ht.
  assert (Hacc : items_accepted completed total = (100 * completed <=? total * total)).
  { apply (items_accepted_upto_spec 200 items_accepted_upto_200); lia. }
  destruct (NewProgressWithItems_accepted token completed total Hc ltac:(lia)) as [Hok Hbad].
  rewrite Hacc in Hok, Hbad.
  split; [| split].
  - intros H. apply Hok. apply Z.leb_le. exact H.
  - intros H. apply Hbad. apply Z.leb_gt. exact H.
  - intros -> H. apply Hbad. apply Z.leb_gt. nia.
Qed.

Lemma NewProgressWithItems_small_totals_witness :
  NewProgressWithItems 7 50 100
  = (Some {| pn_Method := "notifications/progress";
             pn_Params := {| pp_ProgressToken := 7;
                             pp_Progress := items_percentage 50 100;
                             pp_Total := Some (float64_of_int 100) |} |}, None)
  /\ is_failure (NewProgressWithItems 7 99 99).
Proof.
  split.
  - apply (proj1 (NewProgressWithItems_small_totals 7 50 100 ltac:(lia) ltac:(lia))). lia.
  - apply (proj2 (proj2 (NewProgressWithItems_small_totals 7 99 99 ltac:(lia) ltac:(lia))));
      [reflexivity | lia].
Defined.

Lemma progress_totals_apply (totals : list float64) :
  forall n,
    (forallb (total_accepted (pp_Progress (pn_Params n))) totals = true ->
     applyOptions "applying progress notification option: %w" (map WithProgressTotal totals) n
     = ({| pn_Method := pn_Method n;
           pn_Params := {| pp_ProgressToken := pp_ProgressToken (pn_Params n);
                           pp_Progress := pp_Progress (pn_Params n);
                           pp_Total := lastOr (map Some totals) (pp_Total (pn_Params n)) |} |},
        None))
    /\ (forallb (total_accepted (pp_Progress (pn_Params n))) totals = false ->
        exists v err,
          applyOptions "applying progress notification option: %w"
            (map WithProgressTotal totals) n = (v, Some err)).
Proof.
  induction totals as [| total rest IH]; intros [method [token progress t0]].
  - split; [reflexivity | discriminate].
  - cbn [map applyOptions forallb]. unfold WithProgressTotal at 1 3, total_accepted at 1 3.
    cbn [pn_Method pn_Params pp_ProgressToken pp_Progress pp_Total].
    destruct (f64_le total (float64_of_int 0)).
    { split; [discriminate | intros _; do 2 eexists; reflexivity]. }
    destruct (f64_gt progress total).
    { split; [discriminate | intros _; do 2 eexists; reflexivity]. }
    cbn [negb andb].
    exact (IH {| pn_Method := method;
                 pn_Params := {| pp_ProgressToken := token; pp_Progress := progress;
                                 pp_Total := Some total |} |}).
Qed.

(** X14. With any number of WithProgressTotal options,
    NewProgressNotification returns a notification exactly when the progress
    is not below 0 and every total given (not only the last) is not <= 0
    and not exceeded by the progress (a NaN total passes both comparisons);
    the notification then carries the
    progress and the last total, or no total when no option was given.  In
    every other case it returns an error and no notification. *)
Theorem NewProgressNotification_with_totals :
  forall (token : ProgressToken) (progress : float64) (totals : list float64)
         (n : ProgressNotification),
    (NewProgressNotification token progress (map WithProgressTotal totals) = (Some n, None)
     <-> f64_lt progress (float64_of_int 0) = false
         /\ Forall (fun total => f64_le total (float64_of_int 0) = false
                                 /\ f64_gt progress total = false) totals
         /\ n = {| pn_Method := "notifications/progress";
                   pn_Params := {| pp_ProgressToken := token; pp_Progress := progress;
                                   pp_Total := lastOr (map Some totals) None |} |})
    /\ (f64_lt progress (float64_of_int 0) = true
        \/ Exists (fun total => f64_le total (float64_of_int 0) = true
                                \/ f64_gt progress total = true) totals ->
        is_failure (NewProgressNotification token progress (map WithProgressTotal totals))).
Proof.
  intros token progress totals n.
  assert (Hall : forallb (total_accepted progress) totals = true
                 <-> Forall (fun total => f64_le total (float64_of_int 0) = false
                                          /\ f64_gt progress total = false) totals).
  { rewrite forallb_forall, Forall_forall. unfold total_accepted.
    split; intros H x Hx; specialize (H x Hx).
    - apply andb_true_iff in H. destruct H as [H1 H2].
      apply negb_true_iff in H1, H2. auto.
    - destruct H as [H1 H2]. rewrite H1, H2. reflexivity. }
  destruct (progress_totals_apply totals (ProgressNotification_init token progress))
    as [Hok Hbad].
  cbn [ProgressNotification_init pn_Method pn_Params pp_ProgressToken pp_Progress pp_Total]
    in Hok, Hbad.
  unfold NewProgressNotification, construct.
  destruct (f64_lt progress (float64_of_int 0)).
  - split.
    + split; [discriminate | intros [H _]; discriminate].
    + intros _. eexists. reflexivity.
  - destruct (forallb (total_accepted progress) totals) eqn:Hfb.
    + rewrite (Hok eq_refl). split.
      * split.
        -- intros H. inversion H. split; [reflexivity |].
           split; [apply Hall; reflexivity | reflexivity].
        -- intros (_ & _ & ->). reflexivity.
      * intros [H | Hex]; [discriminate |].
        exfalso. apply Exists_exists in Hex. destruct Hex as (t & Hin & Hbad').
        assert (Hf : Forall (fun total => f64_le total (float64_of_int 0) = false
                                          /\ f64_gt progress total = false) totals)
          by (apply Hall; reflexivity).
        rewrite Forall_forall in Hf. destruct (Hf t Hin) as [H1 H2].
        destruct Hbad' as [H' | H']; congruence.
    + destruct (Hbad eq_refl) as (v & err & Happ). rewrite Happ. split.
      * split; [discriminate |].
        intros (_ & Hf & _). apply Hall in Hf. discriminate.
      * intros _. eexists. reflexivity.
Qed.

Lemma NewProgressNotification_with_totals_witness :
  NewProgressNotification 1 (float64_of_int 50)
    (map WithProgressTotal [float64_of_int 200; float64_of_int 100])
  = (Some {| pn_Method := "notifications/progress";
             pn_Params := {| pp_ProgressToken := 1; pp_Progress := float64_of_int 50;
                             pp_Total := Some (float64_of_int 100) |} |}, None)
  /\ is_failure (NewProgressNotification 1 (float64_of_int 50)
                   (map WithProgressTotal [float64_of_int 10; float64_of_int 100])).
Proof.
  split.
  - apply (proj1 (NewProgressNotification_with_totals 1 (float64_of_int 50)
                    [float64_of_int 200; float64_of_int 100] _)).
    split; [vm_compute; reflexivity |]. split; [| reflexivity].
    repeat constructor; vm_compute; reflexivity.
  - apply (proj2 (NewProgressNotification_with_totals 1 (float64_of_int 50)
                    [float64_of_int 10; float64_of_int 100]
                    (ProgressNotification_init 0 (float64_of_int 0)))).
    right. constructor. right. vm_compute. reflexivity.
Defined.

(** ** Encoding of contents *)

Lemma marshal_annotations_succeeds (a : option Annotations) :
  (exists ms, marshal_annotations a = Ok ms) <-> encodable_Annotations a.
Proof.
  destruct a as [[audience [p |]] |];
    unfold marshal_annotations, marshal_Annotations, encodable_Annotations, marshal_float64,
      bind;
    cbn [ann_Priority ann_Audience].
  - destruct (f64_finite p).
    + split; [reflexivity | intros _; eexists; reflexivity].
    + split; [intros [ms H]; discriminate | discriminate].
  - split; [intros _; exact I | intros _; eexists; reflexivity].
  - split; [intros _; exact I | intros _; eexists; reflexivity].
Qed.

(** X15. Content.MarshalJSON looks at the discriminator and at the one
    variant it names, never at the two others.  It succeeds exactly when the
    discriminator is text, image or resource, the variant it names is
    non-nil, and the priority of that variant's annotations, if any, is a
    finite number; strings that are not UTF-8 never make it fail.  For any
    other discriminator it returns "unknown content type: <type>", and for a
    nil named variant "<type> content is nil"; the remaining failure, a
    priority that is NaN or infinite, is the error of json.Marshal. *)
Theorem Content_MarshalJSON_succeeds_iff :
  forall c : Content,
    ((exists j, Content_MarshalJSON c = Ok j)
     <-> discriminator_agrees c /\ encodable_Annotations (named_annotations c))
    /\ Content_MarshalJSON c = Content_MarshalJSON (only_named c)
    /\ (c_Type c <> ContentTypeText -> c_Type c <> ContentTypeImage ->
        c_Type c <> ContentTypeResource ->
        Content_MarshalJSON c = Err (Errorf "unknown content type: %s" [ArgString (c_Type c)]))
    /\ (c_Type c = ContentTypeText -> c_TextContent c = None ->
        Content_MarshalJSON c = Err (Errorf "text content is nil" []))
    /\ (c_Type c = ContentTypeImage -> c_ImageContent c = None ->
        Content_MarshalJSON c = Err (Errorf "image content is nil" []))
    /\ (c_Type c = ContentTypeResource -> c_ResourceContent c = None ->
        Content_MarshalJSON c = Err (Errorf "resource content is nil" [])).
Proof.
  intros [ty text image resource].
  unfold Content_MarshalJSON, discriminator_agrees, named_annotations, only_named.
  cbn [c_Type c_TextContent c_ImageContent c_ResourceContent].
  destruct (String.eqb_spec ty ContentTypeText) as [-> | N1].
  { cbn [String.eqb Ascii.eqb Bool.eqb ContentTypeText ContentTypeImage ContentTypeResource].
    split; [| split; [reflexivity |]].
    - destruct text as [t |].
      + unfold TextContent_members.
        pose proof (marshal_annotations_succeeds (tc_Annotations t)) as Hann.
        destruct (marshal_annotations (tc_Annotations t)) as [ms | e]; cbn [bind].
        * split.
          -- intros _. split; [left; split; [reflexivity | discriminate] |].
             apply Hann. eexists. reflexivity.
          -- intros _. eexists. reflexivity.
        * split; [intros [j H]; discriminate |].
          intros [_ H]. apply Hann in H. destruct H as [ms H]. discriminate.
      + split; [intros [j H]; discriminate |].
        intros [[[_ H] | [[H _] | [H _]]] _]; [contradiction | discriminate | discriminate].
    - repeat match goal with |- _ /\ _ => split end; intros; subst;
        try reflexivity; try contradiction; discriminate. }
  destruct (String.eqb_spec ty ContentTypeImage) as [-> | N2].
  { cbn [String.eqb Ascii.eqb Bool.eqb ContentTypeText ContentTypeImage ContentTypeResource].
    split; [| split; [reflexivity |]].
    - destruct image as [i |].
      + unfold ImageContent_members.
        pose proof (marshal_annotations_succeeds (ic_Annotations i)) as Hann.
        destruct (marshal_annotations (ic_Annotations i)) as [ms | e]; cbn [bind].
        * split.
          -- intros _. split; [right; left; split; [reflexivity | discriminate] |].
             apply Hann. eexists. reflexivity.
          -- intros _. eexists. reflexivity.
        * split; [intros [j H]; discriminate |].
          intros [_ H]. apply Hann in H. destruct H as [ms H]. discriminate.
      + split; [intros [j H]; discriminate |].
        intros [[[H _] | [[_ H] | [H _]]] _]; [discriminate | contradiction | discriminate].
    - repeat match goal with |- _ /\ _ => split end; intros; subst;
        try reflexivity; try contradiction; discriminate. }
  destruct (String.eqb_spec ty ContentTypeResource) as [-> | N3].
  { cbn [String.eqb Ascii.eqb Bool.eqb ContentTypeText ContentTypeImage ContentTypeResource].
    split; [| split; [reflexivity |]].
    - destruct resource as [r |].
      + unfold ResourceContent_members.
        pose proof (marshal_annotations_succeeds (rc_Annotations r)) as Hann.
        destruct (marshal_annotations (rc_Annotations r)) as [ms | e]; cbn [bind].
        * split.
          -- intros _. split; [right; right; split; [reflexivity | discriminate] |].
             apply Hann. eexists. reflexivity.
          -- intros _. eexists. reflexivity.
        * split; [intros [j H]; discriminate |].
          intros [_ H]. apply Hann in H. destruct H as [ms H]. discriminate.
      + split; [intros [j H]; discriminate |].
        intros [[[H _] | [[H _] | [_ H]]] _]; [discriminate | discriminate | contradiction].
    - repeat match goal with |- _ /\ _ => split end; intros; subst;
        try reflexivity; try contradiction; discriminate. }
  split; [| split; [reflexivity |]].
  - split; [intros [j H]; discriminate |].
    intros [[[H _] | [[H _] | [H _]]] _]; contradiction.
  - repeat match goal with |- _ /\ _ => split end; intros; subst;
      try reflexivity; contradiction.
Qed.

Lemma Content_MarshalJSON_succeeds_iff_witness :
  Content_MarshalJSON
    {| c_Type := "audio"; c_TextContent := Some {| tc_Text := "hi"; tc_Annotations := None |};
       c_ImageContent := None; c_ResourceContent := None |}
  = Err (Errorf "unknown content type: %s" [ArgString "audio"]).
Proof.
  apply (proj1 (proj2 (proj2 (Content_MarshalJSON_succeeds_iff
                                {| c_Type := "audio";
                                   c_TextContent := Some {| tc_Text := "hi";
                                                            tc_Annotations := None |};
                                   c_ImageContent := None;
                                   c_ResourceContent := None |}))));
    discriminate.
Defined.

(** ** Round trip of contents whose strings are not UTF-8 *)

Lemma toValidUTF8_valid_upto (n : nat) :
  forall s, (String.length s <= n)%nat -> utf8_valid (toValidUTF8 s) = true.
Proof.
  assert (Hrep : forall rest, utf8_valid (utf8_replacement rest) = utf8_valid rest)
    by (intros rest; reflexivity).
  induction n as [| n IH]; intros s Hlen.
  - destruct s; [reflexivity | simpl in Hlen; lia].
  - destruct s as [| b0 r0]; [reflexivity |].
    simpl in Hlen. cbn [toValidUTF8].
    destruct (byte_in 0 127 b0) eqn:H0.
    { cbn [utf8_valid]. rewrite H0. apply IH. lia. }
    destruct r0 as [| b1 r1].
    { rewrite Hrep. reflexivity. }
    simpl in Hlen.
    destruct (utf8_two b0 b1) eqn:H2.
    { cbn [utf8_valid]. rewrite H0, H2. apply IH. lia. }
    destruct r1 as [| b2 r2].
    { rewrite Hrep. apply IH. simpl. lia. }
    simpl in Hlen.
    destruct (utf8_three b0 b1 b2) eqn:H3.
    { cbn [utf8_valid]. rewrite H0, H2, H3. apply IH. lia. }
    destruct r2 as [| b3 r3].
    { rewrite Hrep. apply IH. simpl. lia. }
    simpl in Hlen.
    destruct (utf8_four b0 b1 b2 b3) eqn:H4.
    { cbn [utf8_valid]. rewrite H0, H2, H3, H4. apply IH. lia. }
    rewrite Hrep. apply IH. simpl. lia.
Qed.

Lemma toValidUTF8_wire (s : string) : wire_string (toValidUTF8 s).
Proof. apply (toValidUTF8_valid_upto (String.length s)). lia. Qed.

Lemma marshal_string_coerced (s : string) :
  marshal_string (toValidUTF8 s) = marshal_string s.
Proof. rewrite (marshal_string_wire _ (toValidUTF8_wire s)). reflexivity. Qed.

Lemma marshal_opt_string_coerced (name : string) (p : option string) :
  marshal_opt_string name (option_map toValidUTF8 p) = marshal_opt_string name p.
Proof. destruct p as [s |]; cbn; [rewrite marshal_string_coerced |]; reflexivity. Qed.

Lemma wire_opt_string_coerced (p : option string) : wire_opt_string (option_map toValidUTF8 p).
Proof. destruct p as [s |]; cbn; [apply toValidUTF8_wire | exact I]. Qed.

Lemma marshal_annotations_coerced (a : option Annotations) :
  marshal_annotations (option_map coerce_Annotations a) = marshal_annotations a.
Proof.
  destruct a as [[audience priority] |]; [| reflexivity].
  unfold option_map, marshal_annotations, marshal_Annotations, coerce_Annotations,
    coerce_audience.
  cbn [ann_Audience ann_Priority].
  destruct (elems audience) as [| s l]; [reflexivity |].
  cbn [elems map]. rewrite marshal_string_coerced, map_map.
  rewrite (map_ext _ _ marshal_string_coerced). reflexivity.
Qed.

Lemma wire_Annotations_coerced (a : option Annotations) :
  encodable_Annotations a -> wire_Annotations (option_map coerce_Annotations a).
Proof.
  destruct a as [[audience priority] |]; [| intros _; exact I].
  unfold option_map, encodable_Annotations, wire_Annotations, coerce_Annotations,
    coerce_audience, nil_or_nonempty.
  cbn [ann_Audience ann_Priority]. intros H.
  destruct (elems audience) as [| role rest].
  - split; [constructor | split; [discriminate | exact H]].
  - split; [| split; [discriminate | exact H]].
    apply Forall_forall. intros s Hs. cbn [elems] in Hs. apply in_map_iff in Hs.
    destruct Hs as [s' [<- _]]. apply toValidUTF8_wire.
Qed.

(** X16. What a round trip through JSON does to any Content that can be
    encoded.  For every Content whose discriminator names a non-nil variant
    with a finite priority (if any), MarshalJSON succeeds and decoding its
    output into a fresh Content yields the same discriminator and the named
    variant with each string replaced by its UTF-8 coercion (every byte that
    starts no well-formed sequence becomes U+FFFD) and an audience without
    roles replaced by the nil slice (an empty slice that is not nil does not
    come back), the two other variants nil.  The coercion changes nothing in
    a string that is UTF-8 nor in an audience that is nil or has a role, and
    applying it twice is applying it once, so a second round trip changes
    nothing more. *)
Theorem Content_roundtrip_coerces_strings :
  forall c : Content,
    discriminator_agrees c ->
    encodable_Annotations (named_annotations c) ->
    (exists j,
        Content_MarshalJSON c = Ok j
        /\ decode_Content j = (only_named (coerce_Content c), None)
        /\ Content_MarshalJSON (only_named (coerce_Content c)) = Ok j)
    /\ (forall s, wire_string s -> toValidUTF8 s = s)
    /\ (forall s, toValidUTF8 (toValidUTF8 s) = toValidUTF8 s)
    /\ (forall audience,
           nil_or_nonempty audience -> Forall wire_string (elems audience) ->
           coerce_audience audience = audience)
    /\ (forall audience,
           coerce_audience (coerce_audience audience) = coerce_audience audience).
Proof.
  intros [ty text image resource] Hagree Henc.
  assert (Hid : forall s, wire_string s -> toValidUTF8 s = s).
  { intros s Hs. apply (toValidUTF8_valid_bounded (String.length s)); [lia | exact Hs]. }
  assert (Hidem : forall s, toValidUTF8 (toValidUTF8 s) = toValidUTF8 s).
  { intros s. apply Hid. apply toValidUTF8_wire. }
  split; [| split; [exact Hid | split; [exact Hidem | split]]].
  2: { assert (Hmap : forall l, Forall wire_string l -> map toValidUTF8 l = l).
       { induction 1 as [| s l Hs _ IH]; cbn [map]; [reflexivity |].
         rewrite (Hid s Hs), IH. reflexivity. }
       intros [| [| role rest]] Hne Hwire; [reflexivity | exfalso; apply Hne; reflexivity |].
       unfold coerce_audience. cbn [elems] in *. f_equal. exact (Hmap _ Hwire). }
  2: { intros [| [| role rest]]; [reflexivity | reflexivity |].
       unfold coerce_audience. cbn [elems map]. rewrite Hidem, map_map.
       rewrite (map_ext _ _ Hidem). reflexivity. }
  unfold named_annotations in Henc.
  destruct Hagree as [[Hty Hsome] | [[Hty Hsome] | [Hty Hsome]]];
    cbn [c_Type c_TextContent c_ImageContent c_ResourceContent] in *; subst ty;
    cbn [String.eqb Ascii.eqb Bool.eqb ContentTypeText ContentTypeImage ContentTypeResource]
      in Henc.
  - destruct text as [t |]; [| contradiction].
    assert (Hv : valid_TextContent (coerce_TextContent t)).
    { split; [apply toValidUTF8_wire | apply wire_Annotations_coerced; exact Henc]. }
    destruct (TextContent_roundtrip _ Hv) as [members [Hm Hd]].
    assert (Hm' : TextContent_members t = Ok members).
    { rewrite <- Hm. unfold TextContent_members, coerce_TextContent.
      cbn [tc_Text tc_Annotations].
      rewrite marshal_annotations_coerced, marshal_string_coerced. reflexivity. }
    exists (JObject (("type", JString ContentTypeText) :: members)).
    unfold Content_MarshalJSON, only_named, coerce_Content.
    cbn [c_Type c_TextContent c_ImageContent c_ResourceContent String.eqb Ascii.eqb Bool.eqb
           ContentTypeText ContentTypeImage ContentTypeResource option_map].
    rewrite Hm', Hm. split; [reflexivity |]. split; [exact Hd | reflexivity].
  - destruct image as [i |]; [| contradiction].
    assert (Hv : valid_ImageContent (coerce_ImageContent i)).
    { split; [apply toValidUTF8_wire |].
      split; [apply toValidUTF8_wire | apply wire_Annotations_coerced; exact Henc]. }
    destruct (ImageContent_roundtrip _ Hv) as [members [Hm Hd]].
    assert (Hm' : ImageContent_members i = Ok members).
    { rewrite <- Hm. unfold ImageContent_members, coerce_ImageContent.
      cbn [ic_Data ic_MimeType ic_Annotations].
      rewrite marshal_annotations_coerced, !marshal_string_coerced. reflexivity. }
    exists (JObject (("type", JString ContentTypeImage) :: members)).
    unfold Content_MarshalJSON, only_named, coerce_Content.
    cbn [c_Type c_TextContent c_ImageContent c_ResourceContent String.eqb Ascii.eqb Bool.eqb
           ContentTypeText ContentTypeImage ContentTypeResource option_map].
    rewrite Hm', Hm. split; [reflexivity |]. split; [exact Hd | reflexivity].
  - destruct resource as [r |]; [| contradiction].
    assert (Hv : valid_ResourceContent (coerce_ResourceContent r)).
    { split; [apply toValidUTF8_wire |].
      repeat (split; [apply wire_opt_string_coerced |]).
      apply wire_Annotations_coerced; exact Henc. }
    destruct (ResourceContent_roundtrip _ Hv) as [members [Hm Hd]].
    assert (Hm' : ResourceContent_members r = Ok members).
    { rewrite <- Hm. unfold ResourceContent_members, coerce_ResourceContent.
      cbn [rc_URI rc_Text rc_Blob rc_MimeType rc_Annotations].
      rewrite marshal_annotations_coerced, marshal_string_coerced,
        !marshal_opt_string_coerced. reflexivity. }
    exists (JObject (("type", JString ContentTypeResource) :: members)).
    unfold Content_MarshalJSON, only_named, coerce_Content.
    cbn [c_Type c_TextContent c_ImageContent c_ResourceContent String.eqb Ascii.eqb Bool.eqb
           ContentTypeText ContentTypeImage ContentTypeResource option_map].
    rewrite Hm', Hm. split; [reflexivity |]. split; [exact Hd | reflexivity].
Qed.

Lemma Content_roundtrip_coerces_strings_witness :
  exists j,
    Content_MarshalJSON
      (NewTextContent (String "255"%char "a")
         (Some {| ann_Audience := slice_of []; ann_Priority := None |})) = Ok j
    /\ decode_Content j
       = (NewTextContent (String "239"%char (String "191"%char (String "189"%char "a")))
            (Some {| ann_Audience := nil_slice; ann_Priority := None |}),
          None).
Proof.
  destruct (Content_roundtrip_coerces_strings
              (NewTextContent (String "255"%char "a")
                 (Some {| ann_Audience := slice_of []; ann_Priority := None |})))
    as [[j [Hm [Hd _]]] _].
  - left. split; [reflexivity | discriminate].
  - exact I.
  - exists j. split; [exact Hm | exact Hd].
Defined.

(** ** Decoding of errors *)

Lemma fieldMatch_fold (name key : string) :
  fieldMatch name key = true -> foldName key = foldName name.
Proof.
  unfold fieldMatch. intros H. apply orb_true_iff in H. destruct H as [H | H].
  - apply String.eqb_eq in H. subst. reflexivity.
  - apply String.eqb_eq in H. exact H.
Qed.

Lemma fieldMatch_exclusive (name name' key : string) :
  foldName name <> foldName name' ->
  fieldMatch name key = true -> fieldMatch name' key = false.
Proof.
  intros Hne H. destruct (fieldMatch name' key) eqn:H'; [| reflexivity].
  apply fieldMatch_fold in H, H'. congruence.
Qed.

Lemma tool_errType_agrees (members : list (string * json)) :
  forall (t0 t : ToolExecutionError) (temp : ErrorInfo_temp),
    unmarshal_members temp_field members {| temp_ErrorType := tee_ErrType t0 |} = Ok temp ->
    unmarshal_members ToolExecutionError_field members t0 = Ok t ->
    tee_ErrType t = temp_ErrorType temp.
Proof.
  induction members as [| [key j] rest IH]; intros t0 t temp; cbn [unmarshal_members].
  - intros H1 H2. inversion H1. inversion H2. subst. reflexivity.
  - unfold temp_field at 1, ToolExecutionError_field at 1.
    destruct (fieldMatch "errorType" key) eqn:Hty.
    + rewrite (fieldMatch_exclusive "errorType" "toolName" key
                 ltac:(vm_compute; discriminate) Hty).
      cbn [temp_ErrorType].
      destruct (unmarshal_string (tee_ErrType t0) j) as [s | e]; cbn [bind]; [| discriminate].
      intros H1 H2.
      exact (IH {| tee_ToolName := tee_ToolName t0; tee_ErrType := s;
                   tee_Details := tee_Details t0 |} t temp H1 H2).
    + cbn [bind]. intros H1.
      destruct (fieldMatch "toolName" key).
      * destruct (unmarshal_string (tee_ToolName t0) j) as [s | e]; cbn [bind]; [| discriminate].
        intros H2.
        exact (IH {| tee_ToolName := s; tee_ErrType := tee_ErrType t0;
                     tee_Details := tee_Details t0 |} t temp H1 H2).
      * destruct (fieldMatch "details" key).
        -- destruct (unmarshal_string (tee_Details t0) j) as [s | e]; cbn [bind];
             [| discriminate].
           intros H2.
           exact (IH {| tee_ToolName := tee_ToolName t0; tee_ErrType := tee_ErrType t0;
                        tee_Details := s |} t temp H1 H2).
        -- cbn [bind]. intros H2. exact (IH t0 t temp H1 H2).
Qed.

(** X17. What ErrorInfo.UnmarshalJSON stores in Data always agrees with the
    code.  After a successful call the Data field is either the one the
    receiver held before the call, or a ValidationError and the code is
    -32602, or a ToolExecutionError and the code is -32603; and the ErrType
    field of a decoded ToolExecutionError is always "toolExecution", since
    the member errorType serves both as the type tag and as that field.
    Hence no document decodes to what NewToolExecutionError builds with any
    other error type, such as the "timeout" of the package's usage example. *)
Theorem ErrorInfo_UnmarshalJSON_data_agrees_with_code :
  forall (e e' : ErrorInfo) (data : json),
    ErrorInfo_UnmarshalJSON e data = (e', None) ->
    (ei_Data e' = ei_Data e
     \/ (ei_Code e' = ErrInvalidParams
         /\ exists v, ei_Data e' = Some (ErrorData_Validation v))
     \/ (ei_Code e' = ErrInternal
         /\ exists t, ei_Data e' = Some (ErrorData_ToolExecution t)
                      /\ tee_ErrType t = "toolExecution"))
    /\ (forall toolName errorType details,
           ei_Data e = None ->
           errorType <> "toolExecution" ->
           e' <> NewToolExecutionError toolName errorType details).
Proof.
  intros e e' data H.
  assert (Hmain : ei_Data e' = ei_Data e
                  \/ (ei_Code e' = ErrInvalidParams
                      /\ exists v, ei_Data e' = Some (ErrorData_Validation v))
                  \/ (ei_Code e' = ErrInternal
                      /\ exists t, ei_Data e' = Some (ErrorData_ToolExecution t)
                                   /\ tee_ErrType t = "toolExecution")).
  { unfold ErrorInfo_UnmarshalJSON in H.
    destruct (unmarshal_struct "struct" aux_field aux_zero data) as [aux | err];
      [| discriminate].
    destruct (aux_Data aux) as [raw |]; [| inversion H; left; reflexivity].
    destruct (unmarshal_struct "struct" temp_field _ raw) as [temp | err] eqn:Htemp;
      [| discriminate].
    cbn [ei_Code] in H.
    destruct (Z.eqb_spec (aux_Code aux) ErrInvalidParams) as [Hc | Hc].
    - destruct (unmarshal_struct "types.ValidationError" _ _ raw) as [v | err];
        [| discriminate].
      inversion H. right. left. split; [exact Hc | eexists; reflexivity].
    - destruct (Z.eqb_spec (aux_Code aux) ErrInternal) as [Hi | Hi];
        [| inversion H; left; reflexivity].
      destruct (String.eqb_spec (temp_ErrorType temp) "toolExecution") as [Hty | Hty];
        [| discriminate].
      destruct (unmarshal_struct "types.ToolExecutionError" _ _ raw) as [t | err] eqn:Htool;
        [| discriminate].
      inversion H. right. right. split; [exact Hi |]. exists t. split; [reflexivity |].
      rewrite <- Hty. destruct raw; cbn [unmarshal_struct] in Htemp, Htool; try discriminate.
      + inversion Htemp. inversion Htool. subst. discriminate.
      + exact (tool_errType_agrees members ToolExecutionError_zero t temp Htemp Htool). }
  split; [exact Hmain |].
  intros toolName errorType details Hfresh Hne Heq. subst e'.
  cbn [NewToolExecutionError ei_Data ei_Code] in Hmain. rewrite Hfresh in Hmain.
  destruct Hmain as [Hk | [[Hc _] | [_ [t [Ht Hty]]]]].
  - discriminate.
  - discriminate.
  - inversion Ht. subst t. cbn in Hty. contradiction.
Qed.

Lemma ErrorInfo_UnmarshalJSON_data_agrees_with_code_witness :
  ErrorInfo_UnmarshalJSON ErrorInfo_zero
    (error_doc (-32603) "Tool execution failed"
       (tool_doc "searchCode" "toolExecution" "Operation timed out after 30s"))
  = ({| ei_Code := -32603; ei_Message := "Tool execution failed";
        ei_Data := Some (ErrorData_ToolExecution
                           {| tee_ToolName := "searchCode"; tee_ErrType := "toolExecution";
                              tee_Details := "Operation timed out after 30s" |}) |}, None)
  /\ {| ei_Code := -32603; ei_Message := "Tool execution failed";
        ei_Data := Some (ErrorData_ToolExecution
                           {| tee_ToolName := "searchCode"; tee_ErrType := "toolExecution";
                              tee_Details := "Operation timed out after 30s" |}) |}
     <> NewToolExecutionError "searchCode" "timeout" "Operation timed out after 30s".
Proof.
  assert (H : ErrorInfo_UnmarshalJSON ErrorInfo_zero
                (error_doc (-32603) "Tool execution failed"
                   (tool_doc "searchCode" "toolExecution" "Operation timed out after 30s"))
              = ({| ei_Code := -32603; ei_Message := "Tool execution failed";
                    ei_Data := Some (ErrorData_ToolExecution
                                       {| tee_ToolName := "searchCode";
                                          tee_ErrType := "toolExecution";
                                          tee_Details := "Operation timed out after 30s" |}) |},
                 None)) by (vm_compute; reflexivity).
  split; [exact H |].
  apply (proj2 (ErrorInfo_UnmarshalJSON_data_agrees_with_code _ _ _ H));
    [reflexivity | discriminate].
Defined.

Lemma aux_decodes (code : Z) (message : string) (data : json) :
  in_int64 code = true ->
  unmarshal_struct "struct" aux_field aux_zero (error_doc code message data)
  = Ok {| aux_Code := code; aux_Message := message; aux_Data := Some data |}.
Proof.
  intros Hcode. unfold error_doc, int_token. cbn [unmarshal_struct unmarshal_members].
  unfold aux_field at 1.
  replace (fieldMatch "code" "code") with true by (vm_compute; reflexivity).
  cbn [unmarshal_int num_int]. rewrite Hcode. cbn [bind].
  unfold aux_field at 1.
  replace (fieldMatch "code" "message") with false by (vm_compute; reflexivity).
  replace (fieldMatch "message" "message") with true by (vm_compute; reflexivity).
  cbn [unmarshal_string bind aux_Code aux_Message aux_Data aux_zero].
  unfold aux_field.
  replace (fieldMatch "code" "data") with false by (vm_compute; reflexivity).
  replace (fieldMatch "message" "data") with false by (vm_compute; reflexivity).
  replace (fieldMatch "data" "data") with true by (vm_compute; reflexivity).
  reflexivity.
Qed.

Lemma failures_decode (failures : list ValidationFailure) :
  forall old,
    unmarshal_elems (unmarshal_struct "types.ValidationFailure" ValidationFailure_field)
      ValidationFailure_zero old (map failure_doc failures) = Ok failures.
Proof.
  induction failures as [| [field err] rest IH]; intros old; [reflexivity |].
  cbn [map unmarshal_elems]. rewrite IH.
  unfold failure_doc. cbn [unmarshal_struct unmarshal_members vf_Field vf_Error].
  unfold ValidationFailure_field.
  replace (fieldMatch "field" "field") with true by (vm_compute; reflexivity).
  replace (fieldMatch "field" "error") with false by (vm_compute; reflexivity).
  replace (fieldMatch "error" "error") with true by (vm_compute; reflexivity).
  reflexivity.
Qed.

(** X18. The wire form of the package's third usage example decodes to what
    the constructors build.  For every receiver, every message and every
    list of failures, decoding the object with code -32602 and data
    {"validation": [{"field": .., "error": ..}, ..]} succeeds and stores
    exactly these failures, in order.  Decoding the object with code -32603
    and data {"toolName": .., "errorType": .., "details": ..} succeeds only
    when errorType is "toolExecution" and then stores the three strings;
    with any other errorType it fails with "unknown error type: <errorType>"
    and leaves Data as the receiver had it, code and message being already
    overwritten. *)
Theorem ErrorInfo_UnmarshalJSON_wire_documents :
  forall (e : ErrorInfo) (message : string),
    (forall failures,
        ErrorInfo_UnmarshalJSON e (error_doc ErrInvalidParams message (validation_doc failures))
        = ({| ei_Code := ErrInvalidParams; ei_Message := message;
              ei_Data := Some (ErrorData_Validation {| ve_Validation := failures |}) |}, None))
    /\ (forall toolName details,
           ErrorInfo_UnmarshalJSON e
             (error_doc ErrInternal message (tool_doc toolName "toolExecution" details))
           = ({| ei_Code := ErrInternal; ei_Message := message;
                 ei_Data := Some (ErrorData_ToolExecution
                                    {| tee_ToolName := toolName;
                                       tee_ErrType := "toolExecution";
                                       tee_Details := details |}) |}, None))
    /\ (forall toolName errorType details,
           errorType <> "toolExecution" ->
           ErrorInfo_UnmarshalJSON e
             (error_doc ErrInternal message (tool_doc toolName errorType details))
           = ({| ei_Code := ErrInternal; ei_Message := message; ei_Data := ei_Data e |},
              Some (Errorf "unknown error type: %s" [ArgString errorType]))).
Proof.
  intros e message.
  assert (Htemp : forall toolName errorType details,
             unmarshal_struct "struct" temp_field {| temp_ErrorType := "" |}
               (tool_doc toolName errorType details)
             = Ok {| temp_ErrorType := errorType |}).
  { intros. unfold tool_doc. cbn [unmarshal_struct unmarshal_members]. unfold temp_field.
    replace (fieldMatch "errorType" "toolName") with false by (vm_compute; reflexivity).
    replace (fieldMatch "errorType" "errorType") with true by (vm_compute; reflexivity).
    replace (fieldMatch "errorType" "details") with false by (vm_compute; reflexivity).
    reflexivity. }
  assert (Htool : forall toolName errorType details,
             unmarshal_struct "types.ToolExecutionError" ToolExecutionError_field
               ToolExecutionError_zero (tool_doc toolName errorType details)
             = Ok {| tee_ToolName := toolName; tee_ErrType := errorType;
                     tee_Details := details |}).
  { intros. unfold tool_doc. cbn [unmarshal_struct unmarshal_members].
    unfold ToolExecutionError_field.
    replace (fieldMatch "toolName" "toolName") with true by (vm_compute; reflexivity).
    replace (fieldMatch "toolName" "errorType") with false by (vm_compute; reflexivity).
    replace (fieldMatch "errorType" "errorType") with true by (vm_compute; reflexivity).
    replace (fieldMatch "toolName" "details") with false by (vm_compute; reflexivity).
    replace (fieldMatch "errorType" "details") with false by (vm_compute; reflexivity).
    replace (fieldMatch "details" "details") with true by (vm_compute; reflexivity).
    reflexivity. }
  split; [| split].
  - intros failures. unfold ErrorInfo_UnmarshalJSON.
    rewrite (aux_decodes ErrInvalidParams message _ eq_refl).
    cbn [aux_Data aux_Code aux_Message ei_Code].
    unfold validation_doc at 1. cbn [unmarshal_struct unmarshal_members]. unfold temp_field.
    replace (fieldMatch "errorType" "validation") with false by (vm_compute; reflexivity).
    replace (ErrInvalidParams =? ErrInvalidParams) with true by reflexivity.
    unfold validation_doc. cbn [unmarshal_struct unmarshal_members].
    unfold ValidationError_field.
    replace (fieldMatch "validation" "validation") with true by (vm_compute; reflexivity).
    cbn [unmarshal_slice ve_Validation]. rewrite failures_decode. reflexivity.
  - intros toolName details. unfold ErrorInfo_UnmarshalJSON.
    rewrite (aux_decodes ErrInternal message _ eq_refl).
    cbn [aux_Data aux_Code aux_Message ei_Code]. rewrite Htemp, Htool. reflexivity.
  - intros toolName errorType details Hne. unfold ErrorInfo_UnmarshalJSON.
    rewrite (aux_decodes ErrInternal message _ eq_refl).
    cbn [aux_Data aux_Code aux_Message ei_Code]. rewrite Htemp.
    cbn [temp_ErrorType].
    replace (ErrInternal =? ErrInvalidParams) with false by reflexivity.
    replace (ErrInternal =? ErrInternal) with true by reflexivity.
    apply String.eqb_neq in Hne. rewrite Hne. reflexivity.
Qed.

Lemma ErrorInfo_UnmarshalJSON_wire_documents_witness :
  ErrorInfo_UnmarshalJSON ErrorInfo_zero
    (error_doc ErrInternal "Tool execution failed"
       (tool_doc "searchCode" "timeout" "Operation timed out after 30s"))
  = ({| ei_Code := ErrInternal; ei_Message := "Tool execution failed"; ei_Data := None |},
     Some (Errorf "unknown error type: %s" [ArgString "timeout"])).
Proof.
  apply (proj2 (proj2 (ErrorInfo_UnmarshalJSON_wire_documents ErrorInfo_zero
                         "Tool execution failed"))).
  discriminate.
Defined.

(** X19. A data member that is absent or null.  For every receiver, an
    object with only code and message decodes successfully for every code
    and leaves the Data field as the receiver had it (so a reused receiver
    keeps its old data under the new code).  With "data": null, json keeps
    the null as raw bytes, so the data counts as present: under code -32602
    decoding succeeds and stores a ValidationError without failures; under
    code -32603 it fails with "unknown error type: " (the empty type); under
    any other code it succeeds and leaves Data as it was. *)
Theorem ErrorInfo_UnmarshalJSON_absent_or_null_data :
  forall (e : ErrorInfo) (code : Z) (message : string),
    in_int64 code = true ->
    ErrorInfo_UnmarshalJSON e (JObject [("code", int_token code); ("message", JString message)])
    = ({| ei_Code := code; ei_Message := message; ei_Data := ei_Data e |}, None)
    /\ ErrorInfo_UnmarshalJSON e (error_doc code message JNull)
       = (if code =? ErrInvalidParams then
            ({| ei_Code := code; ei_Message := message;
                ei_Data := Some (ErrorData_Validation {| ve_Validation := [] |}) |}, None)
          else if code =? ErrInternal then
            ({| ei_Code := code; ei_Message := message; ei_Data := ei_Data e |},
             Some (Errorf "unknown error type: %s" [ArgString ""]))
          else ({| ei_Code := code; ei_Message := message; ei_Data := ei_Data e |}, None)).
Proof.
  intros e code message Hcode. split.
  - unfold ErrorInfo_UnmarshalJSON, int_token. cbn [unmarshal_struct unmarshal_members].
    unfold aux_field at 1.
    replace (fieldMatch "code" "code") with true by (vm_compute; reflexivity).
    cbn [unmarshal_int num_int]. rewrite Hcode. cbn [bind].
    unfold aux_field.
    replace (fieldMatch "code" "message") with false by (vm_compute; reflexivity).
    replace (fieldMatch "message" "message") with true by (vm_compute; reflexivity).
    reflexivity.
  - unfold ErrorInfo_UnmarshalJSON. rewrite (aux_decodes code message _ Hcode).
    cbn [aux_Data aux_Code aux_Message ei_Code unmarshal_struct temp_ErrorType].
    destruct (code =? ErrInvalidParams); [reflexivity |].
    destruct (code =? ErrInternal); reflexivity.
Qed.

Lemma ErrorInfo_UnmarshalJSON_absent_or_null_data_witness :
  ErrorInfo_UnmarshalJSON (NewValidationError [{| vf_Field := "maxTokens";
                                                  vf_Error := "must be positive" |}])
    (JObject [("code", int_token (-32601)); ("message", JString "Method not found")])
  = ({| ei_Code := -32601; ei_Message := "Method not found";
        ei_Data := Some (ErrorData_Validation
                           {| ve_Validation := [{| vf_Field := "maxTokens";
                                                   vf_Error := "must be positive" |}] |}) |},
     None).
Proof.
  apply (proj1 (ErrorInfo_UnmarshalJSON_absent_or_null_data
                  (NewValidationError [{| vf_Field := "maxTokens";
                                          vf_Error := "must be positive" |}])
                  (-32601) "Method not found" eq_refl)).
Defined.

(** ** Decoding of contents: members that belong to no field *)

Lemma unmarshal_members_skip {T : Type} (field : string -> json -> T -> result T)
    (key : string) (j : json) :
  (forall v, field key j v = Ok v) ->
  forall pre post v,
    unmarshal_members field (pre ++ (key, j) :: post) v
    = unmarshal_members field (pre ++ post) v.
Proof.
  intros Hskip. induction pre as [| [k x] pre IH]; intros post v; cbn [app unmarshal_members].
  - rewrite Hskip. reflexivity.
  - destruct (field k x v) as [v' | e]; cbn [bind]; [apply IH | reflexivity].
Qed.

Lemma foreign_key_matches_none (key : string) :
  foreign_key key = true ->
  fieldMatch "type" key = false /\ fieldMatch "text" key = false
  /\ fieldMatch "annotations" key = false /\ fieldMatch "data" key = false
  /\ fieldMatch "mimeType" key = false /\ fieldMatch "uri" key = false
  /\ fieldMatch "blob" key = false.
Proof.
  unfold foreign_key. intros H. apply negb_true_iff in H.
  repeat match type of H with
         | (_ || _) = false => apply orb_false_iff in H; destruct H as [H ?]
         end.
  repeat match goal with |- _ /\ _ => split end; assumption.
Qed.

(** X20. Content.UnmarshalJSON ignores every member whose name is that of no
    field of the variants (type, text, annotations, data, mimeType, uri,
    blob, compared as encoding/json does, without regard to case): adding
    such a member with any value, anywhere in the object, changes neither
    the content stored nor the error returned, for every receiver. *)
Theorem Content_UnmarshalJSON_ignores_foreign_members :
  forall (c : Content) (key : string) (j : json) (pre post : list (string * json)),
    foreign_key key = true ->
    Content_UnmarshalJSON c (JObject (pre ++ (key, j) :: post))
    = Content_UnmarshalJSON c (JObject (pre ++ post)).
Proof.
  intros c key j pre post Hkey.
  destruct (foreign_key_matches_none key Hkey)
    as (Htype & Htext & Hann & Hdata & Hmime & Huri & Hblob).
  unfold Content_UnmarshalJSON. cbn [unmarshal_struct].
  rewrite (unmarshal_members_skip typeOnly_field key j)
    by (intros v; unfold typeOnly_field; rewrite Htype; reflexivity).
  rewrite (unmarshal_members_skip TextContent_field key j)
    by (intros v; unfold TextContent_field; rewrite Htext, Hann; reflexivity).
  rewrite (unmarshal_members_skip ImageContent_field key j)
    by (intros v; unfold ImageContent_field; rewrite Hdata, Hmime, Hann; reflexivity).
  rewrite (unmarshal_members_skip ResourceContent_field key j)
    by (intros v; unfold ResourceContent_field;
        rewrite Huri, Htext, Hblob, Hmime, Hann; reflexivity).
  reflexivity.
Qed.

Lemma Content_UnmarshalJSON_ignores_foreign_members_witness :
  decode_Content (JObject [("type", JString "text"); ("_meta", JArray [JNull]);
                           ("text", JString "hi")])
  = decode_Content (JObject [("type", JString "text"); ("text", JString "hi")]).
Proof.
  apply (Content_UnmarshalJSON_ignores_foreign_members Content_zero "_meta" (JArray [JNull])
           [("type", JString "text")] [("text", JString "hi")]).
  vm_compute. reflexivity.
Defined.

(** ** Schemas, capabilities and initialisation built with the package's options *)

Lemma schema_calls_apply (calls : list SchemaOptionCall) :
  forall s,
    fold_left (fun schema opt => opt schema) (map schema_option calls) s
    = Build_JSONSchema (js_Type s) (js_Properties s) (js_Required s) (js_Items s) (js_Enum s)
        (lastOr (schema_minLengths calls) (js_MinLength s))
        (lastOr (schema_maxLengths calls) (js_MaxLength s))
        (lastOr (schema_minimums calls) (js_Minimum s))
        (lastOr (schema_maximums calls) (js_Maximum s))
        (lastOr (schema_patterns calls) (js_Pattern s)).
Proof.
  induction calls as [| call rest IH]; intros s.
  - destruct s; reflexivity.
  - cbn [map fold_left]. rewrite IH. destruct call; reflexivity.
Qed.

(** X21. StringSchemaWithConstraints with the four schema options, in any
    order and number, returns a schema of type string whose minLength,
    maxLength, pattern and numeric range are those of the last option for
    each, absent when there is none, and which has no properties, required
    names, items or enum.  Nothing is checked: a minimum length above the
    maximum length is kept, and WithNumberRange puts numeric bounds on the
    string schema. *)
Theorem StringSchemaWithConstraints_with_package_options :
  forall calls : list SchemaOptionCall,
    StringSchemaWithConstraints (map schema_option calls) = string_schema_of calls
    /\ js_Type (StringSchemaWithConstraints (map schema_option calls)) = TypeString.
Proof.
  intros calls. unfold StringSchemaWithConstraints. rewrite schema_calls_apply.
  split; reflexivity.
Qed.

Lemma server_calls_apply (calls : list ServerOptionCall) :
  forall sc,
    applyOptions "applying server capability option: %w" (map server_option calls) sc
    = ({| sc_Experimental := sc_Experimental sc;
          sc_Logging := lastOr (server_loggings calls) (sc_Logging sc);
          sc_Prompts := lastOr (server_prompts calls) (sc_Prompts sc);
          sc_Resources := lastOr (server_resources calls) (sc_Resources sc);
          sc_Tools := lastOr (server_tools calls) (sc_Tools sc) |}, None).
Proof.
  induction calls as [| call rest IH]; intros sc.
  - destruct sc; reflexivity.
  - destruct call;
      cbn [map applyOptions server_option WithServerLogging WithServerPrompts
             WithServerResources WithServerTools];
      rewrite IH; reflexivity.
Qed.

Lemma client_calls_apply (calls : list ClientOptionCall) :
  forall cc,
    applyOptions "applying client capability option: %w" (map client_option calls) cc
    = ({| cc_Experimental := cc_Experimental cc;
          cc_Roots := lastOr (client_roots calls) (cc_Roots cc);
          cc_Sampling := lastOr (client_samplings calls) (cc_Sampling cc) |}, None).
Proof.
  induction calls as [| call rest IH]; intros cc.
  - destruct cc; reflexivity.
  - destruct call;
      cbn [map applyOptions client_option WithClientRoots WithClientSampling];
      rewrite IH; reflexivity.
Qed.

(** X22. With the options that take no free-form data (WithServerLogging,
    WithServerPrompts, WithServerResources, WithServerTools; WithClientRoots,
    WithClientSampling), in any order and number, NewServerCapabilities and
    NewClientCapabilities always succeed.  Each capability of the result is
    the one the last option for it built, nil when no option named it, and
    the experimental map is empty. *)
Theorem capabilities_with_package_options :
  forall (scalls : list ServerOptionCall) (ccalls : list ClientOptionCall),
    NewServerCapabilities (map server_option scalls)
    = (Some (server_capabilities_of scalls), None)
    /\ NewClientCapabilities (map client_option ccalls)
       = (Some (client_capabilities_of ccalls), None).
Proof.
  intros scalls ccalls. unfold NewServerCapabilities, NewClientCapabilities, construct.
  rewrite server_calls_apply, client_calls_apply. split; reflexivity.
Qed.

(** The two capability constructors return a nil pointer only with an error. *)
Lemma capabilities_never_nil_without_error :
  (forall opts, NewServerCapabilities opts <> (None, None))
  /\ (forall opts, NewClientCapabilities opts <> (None, None)).
Proof.
  split; intros opts; unfold NewServerCapabilities, NewClientCapabilities, construct;
    destruct (applyOptions _ opts _) as [v [e |]]; discriminate.
Qed.






(** X24. An error of a capability option reaches the caller of
    NewInitializeResult wrapped three times: when the options before a
    WithServerCapabilities succeed and one of its capability options returns
    err, the constructor returns no result and the error "applying
    initialize result option: creating server capabilities: applying server
    capability option: err", whatever options follow. *)
Theorem NewInitializeResult_capability_error_chain :
  forall (LatestProtocolVersion : string) (info : Implementation)
         (before after : list InitializeResultOption)
         (capOpts : list ServerCapabilityOption) (r : InitializeResult) (err : error),
    OptionsSucceed before (InitializeResult_init LatestProtocolVersion info) r ->
    OptionFails capOpts ServerCapabilities_init err ->
    NewInitializeResult LatestProtocolVersion info
      (before ++ WithServerCapabilities capOpts :: after)
    = (None,
       Some (Errorf "applying initialize result option: %w"
               [ArgError
                  (Errorf "creating server capabilities: %w"
                     [ArgError (Errorf "applying server capability option: %w"
                                  [ArgError err])])])).
Proof.
  intros LatestProtocolVersion info before after capOpts r err Hbefore Hfail.
  assert (Hcap : WithServerCapabilities capOpts r
                 = (r, Some (Errorf "creating server capabilities: %w"
                               [ArgError (Errorf "applying server capability option: %w"
                                            [ArgError err])]))).
  { unfold WithServerCapabilities, NewServerCapabilities.
    rewrite (construct_fails _ _ _ _ Hfail). reflexivity. }
  unfold NewInitializeResult. apply construct_fails.
  induction Hbefore as [v | opt rest v v1 v2 Hopt _ IH].
  - eapply fails_here. exact Hcap.
  - eapply fails_later; [exact Hopt | apply IH; assumption].
Qed.

Lemma NewInitializeResult_capability_error_chain_witness :
  NewInitializeResult "2024-11-05" {| impl_Name := "srv"; impl_Version := "1.0" |}
    [WithInstructions "hello";
     WithServerCapabilities [WithServerLogging; fun sc => (sc, Some (Errorf "boom" []))]]
  = (None,
     Some (Errorf "applying initialize result option: %w"
             [ArgError
                (Errorf "creating server capabilities: %w"
                   [ArgError (Errorf "applying server capability option: %w"
                                [ArgError (Errorf "boom" [])])])])).
Proof.
  apply (NewInitializeResult_capability_error_chain "2024-11-05"
           {| impl_Name := "srv"; impl_Version := "1.0" |}
           [WithInstructions "hello"] []
           [WithServerLogging; fun sc => (sc, Some (Errorf "boom" []))]
           {| ires_ProtocolVersion := "2024-11-05";
              ires_ServerInfo := {| impl_Name := "srv"; impl_Version := "1.0" |};
              ires_Capabilities := ServerCapabilities_init;
              ires_Instructions := Some "hello" |}
           (Errorf "boom" [])).
  - econstructor; [reflexivity | constructor].
  - eapply fails_later; [reflexivity | eapply fails_here; reflexivity].
Defined.
